(** * Biquad filter engine: shallow embedding and verified properties

    The development follows the C sources of the filter core:
    - [biquad.c]      : the per-sample recurrence ([biquad_init],
                        [biquad_flush_delays], [biquad_process]);
    - [hpf.c], [lpf.c], [parametric.c] : the three coefficient designs and the
                        channel dispatcher ([*_process_channel],
                        [*_process_buffer]), reference build (the blocks
                        under [#ifdef USE_MLIR] are compiled out);
    - [mlir_biquad.cpp] : the JIT kernel and its two C entry points;
    - the block of [*_process_buffer] under [#ifdef USE_MLIR], in the
                        module [WithMLIR];
    - [audio_util.c]  : the checks of the command-line tool and its calls
                        of the filters ([validate_config], [apply_hpf],
                        [apply_lpf], [apply_peq]), in the module [Util];
    - [audio_io.c]    : the conversions between PCM bytes and samples
                        ([pcm_to_float64], [float64_to_pcm]), in binary64,
                        in the module [AudioIO].

    Every function of the filter core and of the tool is written once,
    over an interface [DoubleOps] of the arithmetic the C code uses on
    [double]; the conversions of [audio_io.c], which depend on the bits of
    a [double], are written over binary64.  The interface has two
    instances: [binary64], IEEE 754 double precision as the machine computes
    it (Rocq's primitive floats; every operation rounds on its own, without
    fused multiply-add or extended precision), and [exact], the real
    numbers, in which the design formulas are read as mathematics.

    A pointer is an [option]: [None] when null.  A function that writes
    through its arguments returns them as the call leaves them. *)

From Stdlib Require Import ZArith List Bool Lia.
From Stdlib Require Import Floats Uint63.
From Stdlib Require Import Reals Lra.
From Stdlib Require String.
Import ListNotations.

Set Implicit Arguments.

(* ================================================================= *)
(** ** Arithmetic on [double] *)

Declare Scope double_scope.
Delimit Scope double_scope with D.

(** The operations of C on [double] that the filter core uses.  [dlit z] is
    the literal of an integer value ([2.0] is [dlit 2]); C's [a > b] is
    [dlt b a] and [a >= b] is [dle b a]. *)
Class DoubleOps (F : Type) : Type := {
  dadd : F -> F -> F;
  dsub : F -> F -> F;
  dmul : F -> F -> F;
  ddiv : F -> F -> F;
  dlt : F -> F -> bool;
  dle : F -> F -> bool;
  dlit : Z -> F;
  FLT_MIN_PLUS : F;      (* biquad.h:  1.175494351e-38 *)
  FLT_MIN_MINUS : F      (* biquad.h: -1.175494351e-38 *)
}.

(** What the designs take from [<math.h>]. *)
Class Libm (F : Type) : Type := {
  M_PI : F;
  sqrt_d : F -> F;
  tan_d : F -> F;
  pow_d : F -> F -> F
}.

Infix "+" := dadd : double_scope.
Infix "-" := dsub : double_scope.
Infix "*" := dmul : double_scope.
Infix "/" := ddiv : double_scope.
Notation "x <? y" := (dlt x y) : double_scope.
Notation "x >? y" := (dlt y x) : double_scope.
Notation "x >=? y" := (dle y x) : double_scope.

(** *** IEEE 754 binary64 *)

Definition float_of_Z (z : Z) : float :=
  match z with
  | Zneg p => PrimFloat.opp (PrimFloat.of_uint63 (Uint63.of_Z (Zpos p)))
  | _ => PrimFloat.of_uint63 (Uint63.of_Z z)
  end.

#[local] Set Warnings "-inexact-float".
#[export] Instance binary64 : DoubleOps float := {|
  dadd := PrimFloat.add;
  dsub := PrimFloat.sub;
  dmul := PrimFloat.mul;
  ddiv := PrimFloat.div;
  dlt := PrimFloat.ltb;
  dle := PrimFloat.leb;
  dlit := float_of_Z;
  FLT_MIN_PLUS := 1.175494351e-38%float;
  FLT_MIN_MINUS := (-1.175494351e-38)%float
|}.

(** [libm] is not part of the repository: the binary64 instance takes [tan]
    and [pow] as given; [sqrt] is the IEEE operation. *)
Definition binary64_libm (tan : float -> float) (pow : float -> float -> float)
  : Libm float := {|
  M_PI := 3.14159265358979323846%float;
  sqrt_d := PrimFloat.sqrt;
  tan_d := tan;
  pow_d := pow
|}.

(** *** Exact real arithmetic *)

Definition Rltb (x y : R) : bool := if Rlt_dec x y then true else false.
Definition Rleb (x y : R) : bool := if Rle_dec x y then true else false.

#[export] Instance exact : DoubleOps R := {|
  dadd := Rplus;
  dsub := Rminus;
  dmul := Rmult;
  ddiv := Rdiv;
  dlt := Rltb;
  dle := Rleb;
  dlit := IZR;
  FLT_MIN_PLUS := (1175494351 / 10 ^ 47)%R;
  FLT_MIN_MINUS := (- (1175494351 / 10 ^ 47))%R
|}.

#[export] Instance exact_libm : Libm R := {|
  M_PI := PI;
  sqrt_d := sqrt;
  tan_d := tan;
  pow_d := Rpower
|}.

(* ================================================================= *)
(** ** The biquad unit ([biquad.h], [biquad.c]) *)

Record BiQuad (F : Type) : Type := mkBiQuad {
  a0 : F; a1 : F; a2 : F;       (* feedforward coefficients *)
  b1 : F; b2 : F;               (* feedback coefficients *)
  c0 : F;                       (* wet gain *)
  d0 : F;                       (* dry gain *)
  xz1 : F; xz2 : F;             (* x(n-1), x(n-2) *)
  yz1 : F; yz2 : F              (* y(n-1), y(n-2) *)
}.

Section Biquad.
Context {F : Type} {ops : DoubleOps F}.
Local Open Scope double_scope.

(** Assignments to the fields of [*bq]. *)
Definition set_a0 (bq : BiQuad F) (v : F) : BiQuad F :=
  mkBiQuad v (a1 bq) (a2 bq) (b1 bq) (b2 bq) (c0 bq) (d0 bq)
           (xz1 bq) (xz2 bq) (yz1 bq) (yz2 bq).
Definition set_a1 (bq : BiQuad F) (v : F) : BiQuad F :=
  mkBiQuad (a0 bq) v (a2 bq) (b1 bq) (b2 bq) (c0 bq) (d0 bq)
           (xz1 bq) (xz2 bq) (yz1 bq) (yz2 bq).
Definition set_a2 (bq : BiQuad F) (v : F) : BiQuad F :=
  mkBiQuad (a0 bq) (a1 bq) v (b1 bq) (b2 bq) (c0 bq) (d0 bq)
           (xz1 bq) (xz2 bq) (yz1 bq) (yz2 bq).
Definition set_b1 (bq : BiQuad F) (v : F) : BiQuad F :=
  mkBiQuad (a0 bq) (a1 bq) (a2 bq) v (b2 bq) (c0 bq) (d0 bq)
           (xz1 bq) (xz2 bq) (yz1 bq) (yz2 bq).
Definition set_b2 (bq : BiQuad F) (v : F) : BiQuad F :=
  mkBiQuad (a0 bq) (a1 bq) (a2 bq) (b1 bq) v (c0 bq) (d0 bq)
           (xz1 bq) (xz2 bq) (yz1 bq) (yz2 bq).
Definition set_c0 (bq : BiQuad F) (v : F) : BiQuad F :=
  mkBiQuad (a0 bq) (a1 bq) (a2 bq) (b1 bq) (b2 bq) v (d0 bq)
           (xz1 bq) (xz2 bq) (yz1 bq) (yz2 bq).
Definition set_d0 (bq : BiQuad F) (v : F) : BiQuad F :=
  mkBiQuad (a0 bq) (a1 bq) (a2 bq) (b1 bq) (b2 bq) (c0 bq) v
           (xz1 bq) (xz2 bq) (yz1 bq) (yz2 bq).
Definition set_xz1 (bq : BiQuad F) (v : F) : BiQuad F :=
  mkBiQuad (a0 bq) (a1 bq) (a2 bq) (b1 bq) (b2 bq) (c0 bq) (d0 bq)
           v (xz2 bq) (yz1 bq) (yz2 bq).
Definition set_xz2 (bq : BiQuad F) (v : F) : BiQuad F :=
  mkBiQuad (a0 bq) (a1 bq) (a2 bq) (b1 bq) (b2 bq) (c0 bq) (d0 bq)
           (xz1 bq) v (yz1 bq) (yz2 bq).
Definition set_yz1 (bq : BiQuad F) (v : F) : BiQuad F :=
  mkBiQuad (a0 bq) (a1 bq) (a2 bq) (b1 bq) (b2 bq) (c0 bq) (d0 bq)
           (xz1 bq) (xz2 bq) v (yz2 bq).
Definition set_yz2 (bq : BiQuad F) (v : F) : BiQuad F :=
  mkBiQuad (a0 bq) (a1 bq) (a2 bq) (b1 bq) (b2 bq) (c0 bq) (d0 bq)
           (xz1 bq) (xz2 bq) (yz1 bq) v.

(** A [BiQuad *] is [None] when null, and otherwise the unit it points
    to; a function that writes through the pointer returns the unit as it
    is afterwards. *)

(** [void biquad_flush_delays(BiQuad *bq)] *)
Definition biquad_flush_delays (bq : option (BiQuad F)) : option (BiQuad F) :=
  match bq with
  | None => None
  | Some bq =>
      let bq := set_xz1 bq (dlit 0) in
      let bq := set_xz2 bq (dlit 0) in
      let bq := set_yz1 bq (dlit 0) in
      let bq := set_yz2 bq (dlit 0) in
      Some bq
  end.

(** [void biquad_init(BiQuad *bq)] *)
Definition biquad_init (bq : option (BiQuad F)) : option (BiQuad F) :=
  match bq with
  | None => None
  | Some bq =>
      let bq := set_a0 bq (dlit 0) in
      let bq := set_a1 bq (dlit 0) in
      let bq := set_a2 bq (dlit 0) in
      let bq := set_b1 bq (dlit 0) in
      let bq := set_b2 bq (dlit 0) in
      let bq := set_c0 bq (dlit 1) in
      let bq := set_d0 bq (dlit 0) in
      biquad_flush_delays (Some bq)
  end.

(** The two underflow checks of [biquad_process], in their order. *)
Definition underflow_check (yn : F) : F :=
  let yn := if (yn >? dlit 0) && (yn <? FLT_MIN_PLUS) then dlit 0 else yn in
  let yn := if (yn <? dlit 0) && (yn >? FLT_MIN_MINUS) then dlit 0 else yn in
  yn.

(** The body of [biquad_process] past its null check: the unit afterwards
    and the value returned. *)
Definition biquad_process_unit (bq : BiQuad F) (input : F) : BiQuad F * F :=
  let yn := a0 bq * input + a1 bq * xz1 bq + a2 bq * xz2 bq
            - b1 bq * yz1 bq - b2 bq * yz2 bq in
  let yn := underflow_check yn in
  let bq := set_yz2 bq (yz1 bq) in
  let bq := set_yz1 bq yn in
  let bq := set_xz2 bq (xz1 bq) in
  let bq := set_xz1 bq input in
  (bq, yn).

(** [double biquad_process(BiQuad *bq, double input)] *)
Definition biquad_process (bq : option (BiQuad F)) (input : F)
  : option (BiQuad F) * F :=
  match bq with
  | None => (None, input)
  | Some bq => let (bq, yn) := biquad_process_unit bq input in (Some bq, yn)
  end.

End Biquad.

(* ================================================================= *)
(** ** Sample buffers ([audio_io.h]) and array accesses *)

(** [AudioBuffer]: [data] is [None] for a null pointer and otherwise the
    array it points to; [length] is the [size_t] field.  [size_t] indices
    are natural numbers: an index that stays below the size of an allocated
    array of [double] cannot wrap. *)
Record AudioBuffer (F : Type) : Type := mkAudioBuffer {
  data : option (list F);
  length : nat;
  sample_rate : Z;
  channels : Z;
  bit_depth : Z
}.

Definition set_data {F : Type} (b : AudioBuffer F) (d : option (list F))
  : AudioBuffer F :=
  mkAudioBuffer d (length b) (sample_rate b) (channels b) (bit_depth b).

(** [d[i]] read: [None] outside the array (undefined behaviour in C). *)
Definition load {F : Type} (d : list F) (i : nat) : option F := nth_error d i.

(** [d[i] = v]. *)
Fixpoint store {F : Type} (d : list F) (i : nat) (v : F) : list F :=
  match d, i with
  | [], _ => []
  | _ :: d', O => v :: d'
  | x :: d', S i' => x :: store d' i' v
  end.

(** [for (size_t i = i0; i < n; i += step) body]: [None] when the body has
    no defined result, or when [fuel] iterations were not enough. *)
Fixpoint for_loop {S : Type} (fuel i n step : nat)
  (body : nat -> S -> option S) (s : S) : option S :=
  if (i <? n)%nat then
    match fuel with
    | O => None
    | Datatypes.S fuel' =>
        match body i s with
        | None => None
        | Some s' => for_loop fuel' (i + step) n step body s'
        end
    end
  else Some s.

(** Conversions of C between [size_t] (64 bits) and [int] (32 bits). *)
Definition to_size_t (z : Z) : Z := z mod 2 ^ 64.
Definition to_int (z : Z) : Z := (z + 2 ^ 31) mod 2 ^ 32 - 2 ^ 31.

(* ================================================================= *)
(** ** The channel dispatcher

    The loops of [hpf_process_channel] and [hpf_process_buffer] are, line
    for line, those of [lpf.c] and [parametric.c]; they are written once,
    over the two units of a filter instance. *)

Section Dispatch.
Context {F : Type} {ops : DoubleOps F}.
Local Open Scope double_scope.

(** [input = d[i]; filtered = biquad_process(filter, input);
     d[i] = filtered * filter->c0 + input * filter->d0;] *)
Definition filter_sample (filter : BiQuad F) (d : list F) (i : nat)
  : option (BiQuad F * list F) :=
  match load d i with
  | None => None
  | Some input =>
      let (filter, filtered) := biquad_process_unit filter input in
      Some (filter, store d i (filtered * c0 filter + input * d0 filter))
  end.

(** The loop of [*_process_channel]. *)
Definition channel_loop (filter : BiQuad F) (d : list F) (length : nat)
  : option (BiQuad F * list F) :=
  for_loop length 0 length 1
    (fun i '(filter, d) => filter_sample filter d i) (filter, d).

(** The body of the stereo loop of [*_process_buffer]. *)
Definition stereo_body (length : nat) (i : nat)
  (s : BiQuad F * BiQuad F * list F) : option (BiQuad F * BiQuad F * list F) :=
  let '(lft, rgt, d) := s in
  match filter_sample lft d i with
  | None => None
  | Some (lft, d) =>
      if (i + 1 <? length)%nat then
        match filter_sample rgt d (i + 1) with
        | None => None
        | Some (rgt, d) => Some (lft, rgt, d)
        end
      else Some (lft, rgt, d)
  end.

Definition stereo_loop (lft rgt : BiQuad F) (d : list F) (length : nat)
  : option (BiQuad F * BiQuad F * list F) :=
  for_loop length 0 length 2 (stereo_body length) (lft, rgt, d).

(** The body of the multi-channel loop of [*_process_buffer]:
    [int channel = i % buffer->channels;] divides in [size_t], and has no
    defined result when the divisor is zero. *)
Definition multi_body (channels : Z) (i : nat)
  (s : BiQuad F * BiQuad F * list F) : option (BiQuad F * BiQuad F * list F) :=
  let '(lft, rgt, d) := s in
  if (to_size_t channels =? 0)%Z then None
  else
    let channel := to_int (Z.of_nat i mod to_size_t channels) in
    if (Z.rem channel 2 =? 0)%Z then
      match filter_sample lft d i with
      | None => None
      | Some (lft, d) => Some (lft, rgt, d)
      end
    else
      match filter_sample rgt d i with
      | None => None
      | Some (rgt, d) => Some (lft, rgt, d)
      end.

Definition multi_loop (lft rgt : BiQuad F) (d : list F) (length : nat)
  (channels : Z) : option (BiQuad F * BiQuad F * list F) :=
  for_loop length 0 length 1 (multi_body channels) (lft, rgt, d).

End Dispatch.

(** A call [f(&s->unit)] on a unit held inside a struct: the address is
    never null, and the unit is what the callee leaves there. *)
Definition through {F : Type}
  (f : option (BiQuad F) -> option (BiQuad F)) (bq : BiQuad F) : BiQuad F :=
  match f (Some bq) with
  | Some bq' => bq'
  | None => bq
  end.

(** Results of the dispatcher: the filter instance and the samples as the
    call leaves them, or [None] when the call has no defined result. *)
Definition outcome (T F : Type) : Type := option (option T * option (list F)).

(* ================================================================= *)
(** ** Butterworth high-pass ([hpf.h], [hpf.c]) *)

Module HPF.

Record HPFFilter (F : Type) : Type := mkHPFFilter {
  left : BiQuad F;
  right : BiQuad F;
  frequency : F
}.

Section Hpf.
Context {F : Type} {ops : DoubleOps F} {libm : Libm F}.
Local Open Scope double_scope.

Definition set_left (hpf : HPFFilter F) (bq : BiQuad F) : HPFFilter F :=
  mkHPFFilter bq (right hpf) (frequency hpf).
Definition set_right (hpf : HPFFilter F) (bq : BiQuad F) : HPFFilter F :=
  mkHPFFilter (left hpf) bq (frequency hpf).
Definition set_frequency (hpf : HPFFilter F) (v : F) : HPFFilter F :=
  mkHPFFilter (left hpf) (right hpf) v.

(** [static void calculate_butterworth_coefficients(BiQuad *bq,
     double sample_rate, double freq)] *)
Definition calculate_butterworth_coefficients
  (bq : option (BiQuad F)) (sample_rate freq : F) : option (BiQuad F) :=
  match bq with
  | None => None
  | Some bq =>
      let C := tan_d (M_PI * freq / sample_rate) in
      let C_squared := C * C in
      let sqrt2 := sqrt_d (dlit 2) in
      let bq := set_a0 bq (dlit 1 / (dlit 1 + sqrt2 * C + C_squared)) in
      let bq := set_a1 bq (dlit (-2) * a0 bq) in
      let bq := set_a2 bq (a0 bq) in
      let bq := set_b1 bq (dlit 2 * a0 bq * (C_squared - dlit 1)) in
      let bq := set_b2 bq (a0 bq * (dlit 1 - sqrt2 * C + C_squared)) in
      let bq := set_c0 bq (dlit 1) in
      let bq := set_d0 bq (dlit 0) in
      biquad_flush_delays (Some bq)
  end.

(** [void hpf_init(HPFFilter *hpf, double sample_rate, double freq)] *)
Definition hpf_init (hpf : option (HPFFilter F)) (sample_rate freq : F)
  : option (HPFFilter F) :=
  match hpf with
  | None => None
  | Some hpf =>
      let hpf := set_left hpf (through biquad_init (left hpf)) in
      let hpf := set_right hpf (through biquad_init (right hpf)) in
      let hpf := set_frequency hpf freq in
      let hpf := set_left hpf
        (through
           (fun bq => calculate_butterworth_coefficients bq sample_rate freq)
           (left hpf)) in
      let hpf := set_right hpf
        (through
           (fun bq => calculate_butterworth_coefficients bq sample_rate freq)
           (right hpf)) in
      Some hpf
  end.

(** [void hpf_update_coefficients(HPFFilter *hpf, double sample_rate,
     double freq)] *)
Definition hpf_update_coefficients (hpf : option (HPFFilter F))
  (sample_rate freq : F) : option (HPFFilter F) :=
  match hpf with
  | None => None
  | Some hpf =>
      let hpf := set_frequency hpf freq in
      let hpf := set_left hpf
        (through
           (fun bq => calculate_butterworth_coefficients bq sample_rate freq)
           (left hpf)) in
      let hpf := set_right hpf
        (through
           (fun bq => calculate_butterworth_coefficients bq sample_rate freq)
           (right hpf)) in
      Some hpf
  end.

(** [void hpf_process_channel(HPFFilter *hpf, double *data, size_t length,
     int channel)] *)
Definition hpf_process_channel (hpf : option (HPFFilter F))
  (data : option (list F)) (length : nat) (channel : Z)
  : outcome (HPFFilter F) F :=
  match hpf, data with
  | Some h, Some d =>
      if (channel =? 0)%Z then
        match channel_loop (left h) d length with
        | None => None
        | Some (filter, d) => Some (Some (set_left h filter), Some d)
        end
      else
        match channel_loop (right h) d length with
        | None => None
        | Some (filter, d) => Some (Some (set_right h filter), Some d)
        end
  | _, _ => Some (hpf, data)
  end.

(** [void hpf_process_buffer(HPFFilter *hpf, AudioBuffer *buffer)]: the
    filter instance and the buffer afterwards. *)
Definition hpf_process_buffer (hpf : option (HPFFilter F))
  (buffer : option (AudioBuffer F))
  : option (option (HPFFilter F) * option (AudioBuffer F)) :=
  match hpf, buffer with
  | Some h, Some b =>
      match data b with
      | None => Some (hpf, buffer)
      | Some d =>
          if (channels b =? 1)%Z then
            match hpf_process_channel hpf (data b) (length b) 0 with
            | None => None
            | Some (hpf, d) => Some (hpf, Some (set_data b d))
            end
          else if (channels b =? 2)%Z then
            match stereo_loop (left h) (right h) d (length b) with
            | None => None
            | Some (lft, rgt, d) =>
                Some (Some (set_right (set_left h lft) rgt),
                      Some (set_data b (Some d)))
            end
          else
            match multi_loop (left h) (right h) d (length b) (channels b) with
            | None => None
            | Some (lft, rgt, d) =>
                Some (Some (set_right (set_left h lft) rgt),
                      Some (set_data b (Some d)))
            end
      end
  | _, _ => Some (hpf, buffer)
  end.

End Hpf.
End HPF.

(* ================================================================= *)
(** ** Butterworth low-pass ([lpf.h], [lpf.c]) *)

Module LPF.

Record LPFFilter (F : Type) : Type := mkLPFFilter {
  left : BiQuad F;
  right : BiQuad F;
  frequency : F
}.

Section Lpf.
Context {F : Type} {ops : DoubleOps F} {libm : Libm F}.
Local Open Scope double_scope.

Definition set_left (lpf : LPFFilter F) (bq : BiQuad F) : LPFFilter F :=
  mkLPFFilter bq (right lpf) (frequency lpf).
Definition set_right (lpf : LPFFilter F) (bq : BiQuad F) : LPFFilter F :=
  mkLPFFilter (left lpf) bq (frequency lpf).
Definition set_frequency (lpf : LPFFilter F) (v : F) : LPFFilter F :=
  mkLPFFilter (left lpf) (right lpf) v.

(** [static void calculate_butterworth_coefficients(BiQuad *bq,
     double sample_rate, double freq)] *)
Definition calculate_butterworth_coefficients
  (bq : option (BiQuad F)) (sample_rate freq : F) : option (BiQuad F) :=
  match bq with
  | None => None
  | Some bq =>
      let C := dlit 1 / tan_d (M_PI * freq / sample_rate) in
      let C_squared := C * C in
      let sqrt2 := sqrt_d (dlit 2) in
      let bq := set_a0 bq (dlit 1 / (dlit 1 + sqrt2 * C + C_squared)) in
      let bq := set_a1 bq (dlit 2 * a0 bq) in
      let bq := set_a2 bq (a0 bq) in
      let bq := set_b1 bq (dlit 2 * a0 bq * (dlit 1 - C_squared)) in
      let bq := set_b2 bq (a0 bq * (dlit 1 - sqrt2 * C + C_squared)) in
      let bq := set_c0 bq (dlit 1) in
      let bq := set_d0 bq (dlit 0) in
      biquad_flush_delays (Some bq)
  end.

(** [void lpf_init(LPFFilter *lpf, double sample_rate, double freq)] *)
Definition lpf_init (lpf : option (LPFFilter F)) (sample_rate freq : F)
  : option (LPFFilter F) :=
  match lpf with
  | None => None
  | Some lpf =>
      let lpf := set_left lpf (through biquad_init (left lpf)) in
      let lpf := set_right lpf (through biquad_init (right lpf)) in
      let lpf := set_frequency lpf freq in
      let lpf := set_left lpf
        (through
           (fun bq => calculate_butterworth_coefficients bq sample_rate freq)
           (left lpf)) in
      let lpf := set_right lpf
        (through
           (fun bq => calculate_butterworth_coefficients bq sample_rate freq)
           (right lpf)) in
      Some lpf
  end.

(** [void lpf_update_coefficients(LPFFilter *lpf, double sample_rate,
     double freq)] *)
Definition lpf_update_coefficients (lpf : option (LPFFilter F))
  (sample_rate freq : F) : option (LPFFilter F) :=
  match lpf with
  | None => None
  | Some lpf =>
      let lpf := set_frequency lpf freq in
      let lpf := set_left lpf
        (through
           (fun bq => calculate_butterworth_coefficients bq sample_rate freq)
           (left lpf)) in
      let lpf := set_right lpf
        (through
           (fun bq => calculate_butterworth_coefficients bq sample_rate freq)
           (right lpf)) in
      Some lpf
  end.

(** [void lpf_process_channel(LPFFilter *lpf, double *data, size_t length,
     int channel)] *)
Definition lpf_process_channel (lpf : option (LPFFilter F))
  (data : option (list F)) (length : nat) (channel : Z)
  : outcome (LPFFilter F) F :=
  match lpf, data with
  | Some h, Some d =>
      if (channel =? 0)%Z then
        match channel_loop (left h) d length with
        | None => None
        | Some (filter, d) => Some (Some (set_left h filter), Some d)
        end
      else
        match channel_loop (right h) d length with
        | None => None
        | Some (filter, d) => Some (Some (set_right h filter), Some d)
        end
  | _, _ => Some (lpf, data)
  end.

(** [void lpf_process_buffer(LPFFilter *lpf, AudioBuffer *buffer)]: the
    filter instance and the buffer afterwards. *)
Definition lpf_process_buffer (lpf : option (LPFFilter F))
  (buffer : option (AudioBuffer F))
  : option (option (LPFFilter F) * option (AudioBuffer F)) :=
  match lpf, buffer with
  | Some h, Some b =>
      match data b with
      | None => Some (lpf, buffer)
      | Some d =>
          if (channels b =? 1)%Z then
            match lpf_process_channel lpf (data b) (length b) 0 with
            | None => None
            | Some (lpf, d) => Some (lpf, Some (set_data b d))
            end
          else if (channels b =? 2)%Z then
            match stereo_loop (left h) (right h) d (length b) with
            | None => None
            | Some (lft, rgt, d) =>
                Some (Some (set_right (set_left h lft) rgt),
                      Some (set_data b (Some d)))
            end
          else
            match multi_loop (left h) (right h) d (length b) (channels b) with
            | None => None
            | Some (lft, rgt, d) =>
                Some (Some (set_right (set_left h lft) rgt),
                      Some (set_data b (Some d)))
            end
      end
  | _, _ => Some (lpf, buffer)
  end.

End Lpf.
End LPF.

(* ================================================================= *)
(** ** Constant-Q parametric equaliser ([parametric.h], [parametric.c]) *)

Module PEQ.

Record ParametricFilter (F : Type) : Type := mkParametricFilter {
  left : BiQuad F;
  right : BiQuad F;
  frequency : F;
  gain : F;
  q : F
}.

Section Peq.
Context {F : Type} {ops : DoubleOps F} {libm : Libm F}.
Local Open Scope double_scope.

Definition set_left (peq : ParametricFilter F) (bq : BiQuad F)
  : ParametricFilter F :=
  mkParametricFilter bq (right peq) (frequency peq) (gain peq) (q peq).
Definition set_right (peq : ParametricFilter F) (bq : BiQuad F)
  : ParametricFilter F :=
  mkParametricFilter (left peq) bq (frequency peq) (gain peq) (q peq).
Definition set_frequency (peq : ParametricFilter F) (v : F)
  : ParametricFilter F :=
  mkParametricFilter (left peq) (right peq) v (gain peq) (q peq).
Definition set_gain (peq : ParametricFilter F) (v : F) : ParametricFilter F :=
  mkParametricFilter (left peq) (right peq) (frequency peq) v (q peq).
Definition set_q (peq : ParametricFilter F) (v : F) : ParametricFilter F :=
  mkParametricFilter (left peq) (right peq) (frequency peq) (gain peq) v.

(** The body of [calculate_parametric_coefficients] past its null check,
    with the outcome of its test [gain >= 0.0] as the argument [boost]. *)
Definition parametric_coefficients (boost : bool) (bq : BiQuad F)
  (sample_rate freq gain q : F) : BiQuad F :=
  let K := tan_d ((M_PI * freq) / sample_rate) in
  let V0 := pow_d (dlit 10) (gain / dlit 20) in
  let K_squared := K * K in
  let D0 := dlit 1 + ((dlit 1 / q) * K) + K_squared in
  let E0 := dlit 1 + ((dlit 1 / (V0 * q)) * K) + K_squared in
  let A := dlit 1 + ((V0 / q) * K) + K_squared in
  let B := dlit 2 * (K_squared - dlit 1) in
  let G := dlit 1 - ((V0 / q) * K) + K_squared in
  let D := dlit 1 - ((dlit 1 / q) * K) + K_squared in
  let E := dlit 1 - ((dlit 1 / (V0 * q)) * K) + K_squared in
  let bq :=
    if boost then
      let bq := set_a0 bq (A / D0) in
      let bq := set_a1 bq (B / D0) in
      let bq := set_a2 bq (G / D0) in
      let bq := set_b1 bq (B / D0) in
      let bq := set_b2 bq (D / D0) in
      bq
    else
      let bq := set_a0 bq (D0 / E0) in
      let bq := set_a1 bq (B / E0) in
      let bq := set_a2 bq (D / E0) in
      let bq := set_b1 bq (B / E0) in
      let bq := set_b2 bq (E / E0) in
      bq in
  let bq := set_c0 bq (dlit 1) in
  let bq := set_d0 bq (dlit 0) in
  through biquad_flush_delays bq.

(** [static void calculate_parametric_coefficients(BiQuad *bq,
     double sample_rate, double freq, double gain, double q)] *)
Definition calculate_parametric_coefficients (bq : option (BiQuad F))
  (sample_rate freq gain q : F) : option (BiQuad F) :=
  match bq with
  | None => None
  | Some bq =>
      Some (parametric_coefficients (gain >=? dlit 0) bq
              sample_rate freq gain q)
  end.

(** [void parametric_init(ParametricFilter *peq, double sample_rate,
     double freq, double gain, double q)] *)
Definition parametric_init (peq : option (ParametricFilter F))
  (sample_rate freq gain q : F) : option (ParametricFilter F) :=
  match peq with
  | None => None
  | Some peq =>
      let peq := set_left peq (through biquad_init (left peq)) in
      let peq := set_right peq (through biquad_init (right peq)) in
      let peq := set_frequency peq freq in
      let peq := set_gain peq gain in
      let peq := set_q peq q in
      let peq := set_left peq
        (through (fun bq =>
           calculate_parametric_coefficients bq sample_rate freq gain q)
           (left peq)) in
      let peq := set_right peq
        (through (fun bq =>
           calculate_parametric_coefficients bq sample_rate freq gain q)
           (right peq)) in
      Some peq
  end.

(** [void parametric_update_coefficients(ParametricFilter *peq,
     double sample_rate, double freq, double gain, double q)] *)
Definition parametric_update_coefficients (peq : option (ParametricFilter F))
  (sample_rate freq gain q : F) : option (ParametricFilter F) :=
  match peq with
  | None => None
  | Some peq =>
      let peq := set_frequency peq freq in
      let peq := set_gain peq gain in
      let peq := set_q peq q in
      let peq := set_left peq
        (through (fun bq =>
           calculate_parametric_coefficients bq sample_rate freq gain q)
           (left peq)) in
      let peq := set_right peq
        (through (fun bq =>
           calculate_parametric_coefficients bq sample_rate freq gain q)
           (right peq)) in
      Some peq
  end.

(** [void parametric_process_channel(ParametricFilter *peq, double *data,
     size_t length, int channel)] *)
Definition parametric_process_channel (peq : option (ParametricFilter F))
  (data : option (list F)) (length : nat) (channel : Z)
  : outcome (ParametricFilter F) F :=
  match peq, data with
  | Some h, Some d =>
      if (channel =? 0)%Z then
        match channel_loop (left h) d length with
        | None => None
        | Some (filter, d) => Some (Some (set_left h filter), Some d)
        end
      else
        match channel_loop (right h) d length with
        | None => None
        | Some (filter, d) => Some (Some (set_right h filter), Some d)
        end
  | _, _ => Some (peq, data)
  end.

(** [void parametric_process_buffer(ParametricFilter *peq,
     AudioBuffer *buffer)]: the filter instance and the buffer afterwards. *)
Definition parametric_process_buffer (peq : option (ParametricFilter F))
  (buffer : option (AudioBuffer F))
  : option (option (ParametricFilter F) * option (AudioBuffer F)) :=
  match peq, buffer with
  | Some h, Some b =>
      match data b with
      | None => Some (peq, buffer)
      | Some d =>
          if (channels b =? 1)%Z then
            match parametric_process_channel peq (data b) (length b) 0 with
            | None => None
            | Some (peq, d) => Some (peq, Some (set_data b d))
            end
          else if (channels b =? 2)%Z then
            match stereo_loop (left h) (right h) d (length b) with
            | None => None
            | Some (lft, rgt, d) =>
                Some (Some (set_right (set_left h lft) rgt),
                      Some (set_data b (Some d)))
            end
          else
            match multi_loop (left h) (right h) d (length b) (channels b) with
            | None => None
            | Some (lft, rgt, d) =>
                Some (Some (set_right (set_left h lft) rgt),
                      Some (set_data b (Some d)))
            end
      end
  | _, _ => Some (peq, buffer)
  end.

End Peq.
End PEQ.

(* ================================================================= *)
(** ** The JIT backend ([mlir_biquad.h], [mlir_biquad.cpp]) *)

Module MLIR.

Section Mlir.
Context {F : Type} {ops : DoubleOps F}.
Local Open Scope double_scope.

(** The function [@biquad_process] that [createBiQuadModule] builds: five
    [arith.mulf], two [arith.addf], two [arith.subf]. *)
Definition BiQuadProcessFn : Type :=
  F -> F -> F -> F -> F -> F -> F -> F -> F -> F -> F.

Definition createBiQuadModule : BiQuadProcessFn :=
  fun a0 a1 a2 b1 b2 input xz1 xz2 yz1 yz2 =>
    let t1 := a0 * input in
    let t2 := a1 * xz1 in
    let t3 := a2 * xz2 in
    let t4 := b1 * yz1 in
    let t5 := b2 * yz2 in
    let s1 := t1 + t2 in
    let s2 := s1 + t3 in
    let s3 := s2 - t4 in
    let yn := s3 - t5 in
    yn.

(** The function [@biquad_process_buffer] that [addBufferProcessFunction]
    builds.  Its [scf.for] carries [(xz1, xz2, yz1, yz2)]; each iteration
    loads [input[i]], stores [output[i]] and yields
    [(input, xz1, yn, yz1)].  The four state cells are loaded before the
    loop and stored after it.  The arguments are the input array, the
    output array, the [i64] length, the coefficients and the state array;
    the result is the output array and the state array afterwards.  (When
    the caller passes one array as both input and output, iteration [i]
    reads cell [i] before it writes it and no later iteration reads it
    again, so the outputs are those for two separate arrays.) *)
Definition BiQuadProcessBufferFn : Type :=
  list F -> list F -> Z -> F -> F -> F -> F -> F -> F * F * F * F ->
  option (list F * (F * F * F * F)).

Definition buffer_body (input : list F) (a0 a1 a2 b1 b2 : F) (i : nat)
  (s : list F * (F * F * F * F)) : option (list F * (F * F * F * F)) :=
  let '(output, (loopXz1, loopXz2, loopYz1, loopYz2)) := s in
  match load input i with
  | None => None
  | Some x =>
      let t1 := a0 * x in
      let t2 := a1 * loopXz1 in
      let t3 := a2 * loopXz2 in
      let t4 := b1 * loopYz1 in
      let t5 := b2 * loopYz2 in
      let s1 := t1 + t2 in
      let s2 := s1 + t3 in
      let s3 := s2 - t4 in
      let yn := s3 - t5 in
      match load output i with
      | None => None
      | Some _ => Some (store output i yn, (x, loopXz1, yn, loopYz1))
      end
  end.

Definition addBufferProcessFunction : BiQuadProcessBufferFn :=
  fun input output length a0 a1 a2 b1 b2 state =>
    let n := Z.to_nat length in
    for_loop n 0 n 1 (buffer_body input a0 a1 a2 b1 b2) (output, state).

(** [struct MLIRBiQuadJIT]: the two function pointers, [None] when null. *)
Record MLIRBiQuadJIT : Type := mkMLIRBiQuadJIT {
  process_fn : option BiQuadProcessFn;
  process_buffer_fn : option BiQuadProcessBufferFn
}.

(** [mlir_biquad_jit_create] when compilation and both look-ups succeed
    (it returns null when [bq] is null or a step fails). *)
Definition mlir_biquad_jit_create (bq : option (BiQuad F))
  : option MLIRBiQuadJIT :=
  match bq with
  | None => None
  | Some _ =>
      Some (mkMLIRBiQuadJIT (Some createBiQuadModule)
                            (Some addBufferProcessFunction))
  end.

(** The context left when the look-up of [biquad_process_buffer] fails:
    [mlir_biquad_jit_create] warns and returns it all the same. *)
Definition jit_without_buffer_fn : MLIRBiQuadJIT :=
  mkMLIRBiQuadJIT (Some createBiQuadModule) None.

(** [double mlir_biquad_process(MLIRBiQuadJIT *jit, BiQuad *bq,
     double input)] *)
Definition mlir_biquad_process (jit : option MLIRBiQuadJIT)
  (bq : option (BiQuad F)) (input : F) : option (BiQuad F) * F :=
  match jit, bq with
  | Some j, Some b =>
      match process_fn j with
      | None => (bq, dlit 0)
      | Some fn =>
          let yn := fn (a0 b) (a1 b) (a2 b) (b1 b) (b2 b) input
                       (xz1 b) (xz2 b) (yz1 b) (yz2 b) in
          let b := set_xz2 b (xz1 b) in
          let b := set_xz1 b input in
          let b := set_yz2 b (yz1 b) in
          let b := set_yz1 b yn in
          let yn := underflow_check yn in
          (Some b, yn)
      end
  | _, _ => (bq, dlit 0)
  end.

(** Conversion of [size_t] to [int64_t]. *)
Definition to_int64 (z : Z) : Z := (z + 2 ^ 63) mod 2 ^ 64 - 2 ^ 63.

(** The fall-back loop of [mlir_biquad_process_buffer]. *)
Definition fallback_body (jit : option MLIRBiQuadJIT) (input : list F)
  (i : nat) (s : BiQuad F * list F) : option (BiQuad F * list F) :=
  let '(b, output) := s in
  match load input i, load output i with
  | Some x, Some _ =>
      match mlir_biquad_process jit (Some b) x with
      | (Some b, y) => Some (b, store output i y)
      | (None, _) => None
      end
  | _, _ => None
  end.

(** [void mlir_biquad_process_buffer(MLIRBiQuadJIT *jit, BiQuad *bq,
     const double *input, double *output, size_t length)]: the unit and
    the output array afterwards. *)
Definition mlir_biquad_process_buffer (jit : option MLIRBiQuadJIT)
  (bq : option (BiQuad F)) (input output : option (list F)) (length : nat)
  : option (option (BiQuad F) * option (list F)) :=
  match jit, bq, input, output with
  | Some j, Some b, Some inp, Some out =>
      match process_buffer_fn j with
      | Some fn =>
          let state := (xz1 b, xz2 b, yz1 b, yz2 b) in
          match fn inp out (to_int64 (Z.of_nat length))
                   (a0 b) (a1 b) (a2 b) (b1 b) (b2 b) state with
          | None => None
          | Some (out, (s0, s1, s2, s3)) =>
              let b := set_xz1 b s0 in
              let b := set_xz2 b s1 in
              let b := set_yz1 b s2 in
              let b := set_yz2 b s3 in
              let b := set_yz1 b (underflow_check (yz1 b)) in
              Some (Some b, Some out)
          end
      | None =>
          match for_loop length 0 length 1 (fallback_body jit inp) (b, out) with
          | None => None
          | Some (b, out) => Some (Some b, Some out)
          end
      end
  | _, _, _, _ => Some (bq, output)
  end.

End Mlir.
End MLIR.

(* ================================================================= *)
(** ** Vocabulary of the statements *)

Section Vocabulary.
Context {F : Type} {ops : DoubleOps F}.
Local Open Scope double_scope.

(** A sequence of calls [biquad_process(bq, x)], one per element of [xs]:
    the unit afterwards and the values returned, in order. *)
Fixpoint biquad_run (bq : option (BiQuad F)) (xs : list F)
  : option (BiQuad F) * list F :=
  match xs with
  | [] => (bq, [])
  | x :: xs' =>
      let (bq', y) := biquad_process bq x in
      let (bq'', ys) := biquad_run bq' xs' in
      (bq'', y :: ys)
  end.

(** The value of the difference equation on a unit and an input, before
    the underflow checks. *)
Definition recurrence (bq : BiQuad F) (x : F) : F :=
  a0 bq * x + a1 bq * xz1 bq + a2 bq * xz2 bq
  - b1 bq * yz1 bq - b2 bq * yz2 bq.

(** No sample of [xs] makes an underflow check of [biquad_process] fire. *)
Fixpoint never_underflows (bq : BiQuad F) (xs : list F) : Prop :=
  match xs with
  | [] => True
  | x :: xs' =>
      underflow_check (recurrence bq x) = recurrence bq x /\
      never_underflows (fst (biquad_process_unit bq x)) xs'
  end.

(** The same sequence of calls through [mlir_biquad_process]. *)
Fixpoint mlir_biquad_run (jit : option (MLIR.MLIRBiQuadJIT (F := F)))
  (bq : option (BiQuad F)) (xs : list F) : option (BiQuad F) * list F :=
  match xs with
  | [] => (bq, [])
  | x :: xs' =>
      let (bq', y) := MLIR.mlir_biquad_process jit bq x in
      let (bq'', ys) := mlir_biquad_run jit bq' xs' in
      (bq'', y :: ys)
  end.

(** What the dispatcher does with one sample [x] on the unit [bq]: one
    evaluation of the recurrence, and the wet/dry mix as the value written
    back. *)
Definition process_mix (bq : BiQuad F) (x : F) : BiQuad F * F :=
  let (bq', filtered) := biquad_process_unit bq x in
  (bq', filtered * c0 bq' + x * d0 bq').

(** A left-to-right pass over samples [xs], the first of which has index
    [i], threading a state. *)
Fixpoint sweep {S : Type} (g : nat -> S -> F -> S * F) (i : nat) (s : S)
  (xs : list F) : S * list F :=
  match xs with
  | [] => (s, [])
  | x :: xs' =>
      let (s', y) := g i s x in
      let (s'', ys) := sweep g (Datatypes.S i) s' xs' in
      (s'', y :: ys)
  end.

(** One unit applied to the samples [xs] in order: the unit afterwards and
    the values written back. *)
Fixpoint lane_run (bq : BiQuad F) (xs : list F) : BiQuad F * list F :=
  match xs with
  | [] => (bq, [])
  | x :: xs' =>
      let (bq', y) := process_mix bq x in
      let (bq'', ys) := lane_run bq' xs' in
      (bq'', y :: ys)
  end.

(** The sample at index [i] of an [N]-channel interleaved buffer belongs to
    channel [i mod N]; lane 0 takes the even channels, lane 1 the odd. *)
Definition channel_of (N i : nat) : nat := i mod N.
Definition lane0 (N i : nat) : bool := Nat.even (channel_of N i).

Definition route_sample (N i : nat) (s : BiQuad F * BiQuad F) (x : F)
  : BiQuad F * BiQuad F * F :=
  let (lft, rgt) := s in
  if lane0 N i then
    let (lft', y) := process_mix lft x in (lft', rgt, y)
  else
    let (rgt', y) := process_mix rgt x in (lft, rgt', y).

Definition route (N : nat) (lft rgt : BiQuad F) (xs : list F)
  : BiQuad F * BiQuad F * list F :=
  sweep (route_sample N) 0 (lft, rgt) xs.

(** The samples of [xs] (first index [i]) that lie on lane 0, and on
    lane 1. *)
Fixpoint lane_samples (N : nat) (want0 : bool) (i : nat) (xs : list F)
  : list F :=
  match xs with
  | [] => []
  | x :: xs' =>
      if Bool.eqb (lane0 N i) want0
      then x :: lane_samples N want0 (Datatypes.S i) xs'
      else lane_samples N want0 (Datatypes.S i) xs'
  end.

(** The delay state of a unit. *)
Definition delays (bq : BiQuad F) : F * F * F * F :=
  (xz1 bq, xz2 bq, yz1 bq, yz2 bq).

Definition coefficients (bq : BiQuad F) : F * F * F * F * F * F * F :=
  (a0 bq, a1 bq, a2 bq, b1 bq, b2 bq, c0 bq, d0 bq).

(** A process-buffer entry point is a no-op on a null instance, on a null
    buffer, on a buffer whose [data] is null and on a buffer whose [length]
    is zero: it has a result, and the result is the instance and the buffer
    it was given. *)
Definition noop_on_absent_input {T : Type}
  (process_buffer : option T -> option (AudioBuffer F) ->
                    option (option T * option (AudioBuffer F))) : Prop :=
  (forall buffer, process_buffer None buffer = Some (None, buffer)) /\
  (forall filter, process_buffer filter None = Some (filter, None)) /\
  (forall filter len sr ch bd,
     let b := mkAudioBuffer None len sr ch bd in
     process_buffer filter (Some b) = Some (filter, Some b)) /\
  (forall filter d sr ch bd,
     let b := mkAudioBuffer d 0 sr ch bd in
     process_buffer filter (Some b) = Some (filter, Some b)).

End Vocabulary.

(** The delays hold the two most recent inputs [xs] and returned values
    [ys], most recent first. *)
Definition holds_recent {F : Type} (bq : BiQuad F) (xs ys : list F) : Prop :=
  firstn 2 (rev xs) = [xz1 bq; xz2 bq] /\
  firstn 2 (rev ys) = [yz1 bq; yz2 bq].

(** The five recurrence coefficients of [u] are within [eps] of those of
    [v]. *)
Definition coefficients_within (eps : R) (u v : BiQuad R) : Prop :=
  (Rabs (a0 u - a0 v) < eps /\ Rabs (a1 u - a1 v) < eps /\
   Rabs (a2 u - a2 v) < eps /\ Rabs (b1 u - b1 v) < eps /\
   Rabs (b2 u - b2 v) < eps)%R.

(* ================================================================= *)
(** ** Concrete units and buffers *)

(** A unit after [biquad_init], in exact arithmetic. *)
Definition initial_unit : BiQuad R :=
  mkBiQuad 0%R 0%R 0%R 0%R 0%R 1%R 0%R 0%R 0%R 0%R 0%R.

(** [biquad_init] followed by assignments to the five coefficients, as the
    tests set a unit up. *)
Definition unit_with (a0 a1 a2 b1 b2 : float) : BiQuad float :=
  mkBiQuad a0 a1 a2 b1 b2 1%float 0%float 0%float 0%float 0%float 0%float.

(** [test_biquad_underflow]: [a0 = 1.0], all else zero. *)
Definition passthrough_unit : BiQuad float := unit_with 1 0 0 0 0.

(** [test_biquad_lowpass]: [y(n) = 0.5*x(n) + 0.5*x(n-1)]. *)
Definition averaging_unit : BiQuad float := unit_with 0.5 0.5 0 0 0.

(** A unit that doubles its input. *)
Definition doubling_unit : BiQuad float := unit_with 2 0 0 0 0.

(** A unit with feedback [b1 = -1e30]: [y(n) = x(n) + 1e30*y(n-1)]. *)
Definition amplifying_unit : BiQuad float := unit_with 1 0 0 (-1e30) 0.

(** A sample below [FLT_MIN_PLUS], then silence. *)
Definition tiny_then_zero : list float := [1e-39; 0]%float.

(** [assert_double_eq] and [EPSILON] of [tests/test_mlir_biquad.c]: the
    comparison [fabs(expected - actual) < epsilon]. *)
Definition EPSILON : float := 1e-10%float.
Definition assert_double_eq (expected actual epsilon : float) : bool :=
  PrimFloat.ltb (PrimFloat.abs (expected - actual)) epsilon.

(** A double that is neither an infinity nor a NaN. *)
Definition finite (x : float) : bool :=
  match Prim2SF x with
  | S754_zero _ | S754_finite _ _ _ => true
  | S754_infinity _ | S754_nan => false
  end.

Definition coefficients_finite (u : BiQuad float) : bool :=
  finite (a0 u) && finite (a1 u) && finite (a2 u) &&
  finite (b1 u) && finite (b2 u).

(** The five recurrence coefficients of [u] compare within [eps] of those
    of [v], by the comparison [fabs(expected - actual) < eps] of the
    tests. *)
Definition coefficients_close (eps : float) (u v : BiQuad float) : bool :=
  assert_double_eq (a0 v) (a0 u) eps && assert_double_eq (a1 v) (a1 u) eps &&
  assert_double_eq (a2 v) (a2 u) eps && assert_double_eq (b1 v) (b1 u) eps &&
  assert_double_eq (b2 v) (b2 u) eps.

(** The least positive double, [2^-1074]: the doubles of at most this
    magnitude are it, its opposite and the two zeros. *)
Definition smallest_double : float := 0x1p-1074%float.

(** [tan] and [pow] for the examples, where libm itself is not at hand:
    truncated series for [tan(x)] and for [10^y] (the designs call [pow]
    with base ten only).  They return what C requires where C fixes the
    value: [pow(x, +-0) = 1] and [tan(NaN) = NaN]. *)
Definition series_tan (x : float) : float :=
  (x + x * x * x / 3 + 2 * (x * x * x * x * x) / 15)%float.

Definition series_pow (x y : float) : float :=
  (let t := y * 0x1.26bb1bbb55516p+1 in
   1 + t + t * t / 2 + t * t * t / 6)%float.

(** A three-sample, two-channel buffer: one full frame and a dangling
    left sample. *)
Definition odd_stereo_buffer : AudioBuffer float :=
  mkAudioBuffer (Some [1; 2; 3]%float) 3 44100 2 16.

(** Two frames of three channels. *)
Definition three_channel_buffer : AudioBuffer float :=
  mkAudioBuffer (Some [1; 2; 3; 4; 5; 6]%float) 6 44100 3 16.

Definition doubling_hpf : HPF.HPFFilter float :=
  HPF.mkHPFFilter doubling_unit doubling_unit 100%float.
Definition doubling_lpf : LPF.LPFFilter float :=
  LPF.mkLPFFilter doubling_unit doubling_unit 100%float.
Definition doubling_peq : PEQ.ParametricFilter float :=
  PEQ.mkParametricFilter doubling_unit doubling_unit 100%float 0%float 1%float.

(** [y] lies strictly between zero and [FLT_MIN_PLUS], or strictly between
    [FLT_MIN_MINUS] and zero. *)
Definition in_underflow_window {F : Type} {ops : DoubleOps F} (y : F) : bool :=
  ((dlit 0 <? y) && (y <? FLT_MIN_PLUS)
   || (FLT_MIN_MINUS <? y) && (y <? dlit 0))%D.

(** The unit [bq] with its four delays replaced. *)
Definition with_delays {F : Type} (bq : BiQuad F) (x1 x2 y1 y2 : F)
  : BiQuad F :=
  mkBiQuad (a0 bq) (a1 bq) (a2 bq) (b1 bq) (b2 bq) (c0 bq) (d0 bq)
           x1 x2 y1 y2.

(** The dispatcher ran each lane on its own samples: [ys] has one value
    for each sample of [xs]; its values on lane 0 are what the unit [lft]
    returns on the samples of [xs] on lane 0, in order, and [lft'] is that
    unit afterwards; likewise [rgt], [rgt'] and lane 1. *)
Definition run_on_lanes {F : Type} {ops : DoubleOps F} (N : nat)
  (lft rgt : BiQuad F) (xs : list F) (lft' rgt' : BiQuad F) (ys : list F)
  : Prop :=
  List.length ys = List.length xs /\
  lane_run lft (lane_samples N true 0 xs) = (lft', lane_samples N true 0 ys) /\
  lane_run rgt (lane_samples N false 0 xs) =
    (rgt', lane_samples N false 0 ys).

(** A buffer that holds exactly the samples [xs]. *)
Definition buffer_of {F : Type} (sample_rate channels bit_depth : Z)
  (xs : list F) : AudioBuffer F :=
  mkAudioBuffer (Some xs) (List.length xs) sample_rate channels bit_depth.

(** Two stereo frames. *)
Definition two_frame_stereo_buffer : AudioBuffer float :=
  mkAudioBuffer (Some [1; 2; 3; 4]%float) 4 44100 2 16.

(** One sample, and a channel count of zero. *)
Definition zero_channel_buffer : AudioBuffer float :=
  mkAudioBuffer (Some [1]%float) 1 44100 0 16.

(** Three samples, and a channel count of [-1]. *)
Definition negative_channel_buffer : AudioBuffer float :=
  mkAudioBuffer (Some [1; 2; 3]%float) 3 44100 (-1) 16.

(* ================================================================= *)
(** ** The build with [USE_MLIR]

    With [USE_MLIR] defined the three filter structs have two more
    members, [left_jit] and [right_jit], and [*_process_buffer] starts
    with a block that hands mono and stereo buffers to
    [mlir_biquad_process_buffer]; the block is, line for line, the same in
    [hpf.c], [lpf.c] and [parametric.c]. *)

Module WithMLIR.

(** A filter struct of this build: the members of the reference build,
    then the two contexts. *)
Record Jitted (F T : Type) : Type := mkJitted {
  instance : T;
  left_jit : option (MLIR.MLIRBiQuadJIT (F := F));
  right_jit : option (MLIR.MLIRBiQuadJIT (F := F))
}.

Section Block.
Context {F : Type} {ops : DoubleOps F}.

(** [left_channel[i] = buffer->data[i * 2];
     right_channel[i] = buffer->data[i * 2 + 1];] *)
Definition deinterleave_body (d : list F) (i : nat) (s : list F * list F)
  : option (list F * list F) :=
  let '(left_channel, right_channel) := s in
  match load d (i * 2), load left_channel i with
  | Some l, Some _ =>
      let left_channel := store left_channel i l in
      match load d (i * 2 + 1), load right_channel i with
      | Some r, Some _ => Some (left_channel, store right_channel i r)
      | _, _ => None
      end
  | _, _ => None
  end.

(** [buffer->data[i * 2] = left_channel[i];
     buffer->data[i * 2 + 1] = right_channel[i];] *)
Definition reinterleave_body (left_channel right_channel : list F) (i : nat)
  (d : list F) : option (list F) :=
  match load left_channel i, load d (i * 2) with
  | Some l, Some _ =>
      let d := store d (i * 2) l in
      match load right_channel i, load d (i * 2 + 1) with
      | Some r, Some _ => Some (store d (i * 2 + 1) r)
      | _, _ => None
      end
  | _, _ => None
  end.

(** The block under [#ifdef USE_MLIR], entered with an instance and a
    buffer whose samples are [d].  [left_channel] and [right_channel] are
    what the two calls of [malloc] return: [None] for a null pointer, and
    otherwise an array of [samples_per_channel] cells of any content.  The
    result is [None] when the block has no defined result, [Some None]
    when control reaches the standard implementation below the block, and
    otherwise the two units and the samples at the [return]. *)
Definition mlir_block (lft rgt : BiQuad F)
  (left_jit right_jit : option (MLIR.MLIRBiQuadJIT (F := F)))
  (channels : Z) (length : nat) (d : list F)
  (left_channel right_channel : option (list F))
  : option (option (BiQuad F * BiQuad F * list F)) :=
  match left_jit, right_jit with
  | Some _, Some _ =>
      if (channels =? 1)%Z then
        match MLIR.mlir_biquad_process_buffer left_jit (Some lft)
                (Some d) (Some d) length with
        | Some (Some lft, Some d) => Some (Some (lft, rgt, d))
        | _ => None
        end
      else if (channels =? 2)%Z then
        let samples_per_channel := (length / 2)%nat in
        match left_channel, right_channel with
        | Some left_channel, Some right_channel =>
            match for_loop samples_per_channel 0 samples_per_channel 1
                    (deinterleave_body d) (left_channel, right_channel) with
            | None => None
            | Some (left_channel, right_channel) =>
                match MLIR.mlir_biquad_process_buffer left_jit (Some lft)
                        (Some left_channel) (Some left_channel)
                        samples_per_channel with
                | Some (Some lft, Some left_channel) =>
                    match MLIR.mlir_biquad_process_buffer right_jit (Some rgt)
                            (Some right_channel) (Some right_channel)
                            samples_per_channel with
                    | Some (Some rgt, Some right_channel) =>
                        match for_loop samples_per_channel 0
                                samples_per_channel 1
                                (reinterleave_body left_channel right_channel)
                                d with
                        | None => None
                        | Some d => Some (Some (lft, rgt, d))
                        end
                    | _ => None
                    end
                | _ => None
                end
            end
        | _, _ => Some None
        end
      else Some None
  | _, _ => Some None
  end.

(** [void hpf_process_buffer(HPFFilter *hpf, AudioBuffer *buffer)] of this
    build: the guard, the block, and below it the standard
    implementation. *)
Definition hpf_process_buffer (hpf : option (Jitted F (HPF.HPFFilter F)))
  (buffer : option (AudioBuffer F))
  (left_channel right_channel : option (list F))
  : option (option (Jitted F (HPF.HPFFilter F)) * option (AudioBuffer F)) :=
  match hpf, buffer with
  | Some h, Some b =>
      match data b with
      | None => Some (hpf, buffer)
      | Some d =>
          let keep f := mkJitted f (left_jit h) (right_jit h) in
          match mlir_block (HPF.left (instance h)) (HPF.right (instance h))
                  (left_jit h) (right_jit h) (channels b) (length b) d
                  left_channel right_channel with
          | None => None
          | Some (Some (lft, rgt, d)) =>
              Some (Some (keep (HPF.set_right
                                  (HPF.set_left (instance h) lft) rgt)),
                    Some (set_data b (Some d)))
          | Some None =>
              match HPF.hpf_process_buffer (Some (instance h)) buffer with
              | Some (Some f, buffer) => Some (Some (keep f), buffer)
              | _ => None
              end
          end
      end
  | _, _ => Some (hpf, buffer)
  end.

(** [void lpf_process_buffer(LPFFilter *lpf, AudioBuffer *buffer)] *)
Definition lpf_process_buffer (lpf : option (Jitted F (LPF.LPFFilter F)))
  (buffer : option (AudioBuffer F))
  (left_channel right_channel : option (list F))
  : option (option (Jitted F (LPF.LPFFilter F)) * option (AudioBuffer F)) :=
  match lpf, buffer with
  | Some h, Some b =>
      match data b with
      | None => Some (lpf, buffer)
      | Some d =>
          let keep f := mkJitted f (left_jit h) (right_jit h) in
          match mlir_block (LPF.left (instance h)) (LPF.right (instance h))
                  (left_jit h) (right_jit h) (channels b) (length b) d
                  left_channel right_channel with
          | None => None
          | Some (Some (lft, rgt, d)) =>
              Some (Some (keep (LPF.set_right
                                  (LPF.set_left (instance h) lft) rgt)),
                    Some (set_data b (Some d)))
          | Some None =>
              match LPF.lpf_process_buffer (Some (instance h)) buffer with
              | Some (Some f, buffer) => Some (Some (keep f), buffer)
              | _ => None
              end
          end
      end
  | _, _ => Some (lpf, buffer)
  end.

(** [void parametric_process_buffer(ParametricFilter *peq,
     AudioBuffer *buffer)] *)
Definition parametric_process_buffer
  (peq : option (Jitted F (PEQ.ParametricFilter F)))
  (buffer : option (AudioBuffer F))
  (left_channel right_channel : option (list F))
  : option (option (Jitted F (PEQ.ParametricFilter F)) *
            option (AudioBuffer F)) :=
  match peq, buffer with
  | Some h, Some b =>
      match data b with
      | None => Some (peq, buffer)
      | Some d =>
          let keep f := mkJitted f (left_jit h) (right_jit h) in
          match mlir_block (PEQ.left (instance h)) (PEQ.right (instance h))
                  (left_jit h) (right_jit h) (channels b) (length b) d
                  left_channel right_channel with
          | None => None
          | Some (Some (lft, rgt, d)) =>
              Some (Some (keep (PEQ.set_right
                                  (PEQ.set_left (instance h) lft) rgt)),
                    Some (set_data b (Some d)))
          | Some None =>
              match PEQ.parametric_process_buffer (Some (instance h))
                      buffer with
              | Some (Some f, buffer) => Some (Some (keep f), buffer)
              | _ => None
              end
          end
      end
  | _, _ => Some (peq, buffer)
  end.

End Block.
End WithMLIR.

(** The loop of the compiled [@biquad_process_buffer] as a pass over the
    samples: each step evaluates the recurrence and shifts the delays, and
    no step has an underflow check. *)
Fixpoint kernel_run {F : Type} {ops : DoubleOps F} (bq : BiQuad F)
  (xs : list F) : BiQuad F * list F :=
  match xs with
  | [] => (bq, [])
  | x :: xs' =>
      let yn := recurrence bq x in
      let bq' := with_delays bq x (xz1 bq) yn (yz1 bq) in
      let (bq'', ys) := kernel_run bq' xs' in
      (bq'', yn :: ys)
  end.

(** The unit as [mlir_biquad_process_buffer] leaves it after the compiled
    loop: the underflow checks are applied to [yz1], once. *)
Definition checked_yz1 {F : Type} {ops : DoubleOps F} (bq : BiQuad F)
  : BiQuad F :=
  set_yz1 bq (underflow_check (yz1 bq)).

(** Two channels put back in frames. *)
Fixpoint interleave {F : Type} (ls rs : list F) : list F :=
  match ls, rs with
  | l :: ls', r :: rs' => l :: r :: interleave ls' rs'
  | _, _ => []
  end.

(** A filter of the [USE_MLIR] build whose two contexts were compiled. *)
Definition jitted {F T : Type} {ops : DoubleOps F} (f : T) (lft rgt : BiQuad F)
  : WithMLIR.Jitted F T :=
  WithMLIR.mkJitted f (MLIR.mlir_biquad_jit_create (Some lft))
                      (MLIR.mlir_biquad_jit_create (Some rgt)).

(** The samples of a two-channel buffer that holds the frames [ps], each
    a left and a right sample. *)
Fixpoint frames {F : Type} (ps : list (F * F)) : list F :=
  match ps with
  | [] => []
  | (l, r) :: ps' => l :: r :: frames ps'
  end.

(** On every sample of [xs] the wet/dry mix of the dispatcher,
    [filtered * c0 + input * d0], is the filtered value itself, along the
    pass of the recurrence over [xs].  The designs set [c0 = 1.0] and
    [d0 = 0.0]; in binary64 the mix can still differ from the filtered
    value, as [input * 0.0] is a NaN for an infinite sample. *)
Fixpoint mix_returns_filtered {F : Type} {ops : DoubleOps F} (bq : BiQuad F)
  (xs : list F) : Prop :=
  match xs with
  | [] => True
  | x :: xs' =>
      let yn := recurrence bq x in
      (yn * c0 bq + x * d0 bq)%D = yn /\
      mix_returns_filtered (with_delays bq x (xz1 bq) yn (yz1 bq)) xs'
  end.

(** No sample of [xs] makes an underflow check fire on its lane, the mix
    returns the filtered value on both lanes, and the checks leave the
    [yz1] of both units alone. *)
Definition lanes_quiet {F : Type} {ops : DoubleOps F} (N : nat)
  (lft rgt : BiQuad F) (xs : list F) : Prop :=
  never_underflows lft (lane_samples N true 0 xs) /\
  mix_returns_filtered lft (lane_samples N true 0 xs) /\
  never_underflows rgt (lane_samples N false 0 xs) /\
  mix_returns_filtered rgt (lane_samples N false 0 xs) /\
  underflow_check (yz1 lft) = yz1 lft /\
  underflow_check (yz1 rgt) = yz1 rgt.

(** A mono buffer, or a two-channel buffer of whole frames together with
    the two arrays that [malloc] returned for its channels. *)
Definition mono_or_whole_frames {F : Type} (b : AudioBuffer F)
  (left_channel right_channel : list F) : Prop :=
  channels b = 1%Z \/
  (channels b = 2%Z /\ Nat.even (length b) = true /\
   List.length left_channel = (length b / 2)%nat /\
   List.length right_channel = (length b / 2)%nat).

(** One stereo frame and a dangling left sample, at doubling units, and the
    arrays of one cell that [malloc] returns. *)
Definition one_cell : list float := [0]%float.

(** Filters both of whose units are the averaging unit. *)
Definition averaging_hpf : HPF.HPFFilter float :=
  HPF.mkHPFFilter averaging_unit averaging_unit 100%float.
Definition averaging_lpf : LPF.LPFFilter float :=
  LPF.mkLPFFilter averaging_unit averaging_unit 100%float.
Definition averaging_peq : PEQ.ParametricFilter float :=
  PEQ.mkParametricFilter averaging_unit averaging_unit 100%float 0%float
                         1%float.

(* ================================================================= *)
(** ** The command-line tool ([audio_util.c]) *)

Module Util.
Import Stdlib.Strings.String.

Inductive FilterType : Type :=
  FILTER_NONE | FILTER_HPF | FILTER_LPF | FILTER_PEQ.

Definition FilterType_eqb (a b : FilterType) : bool :=
  match a, b with
  | FILTER_NONE, FILTER_NONE | FILTER_HPF, FILTER_HPF
  | FILTER_LPF, FILTER_LPF | FILTER_PEQ, FILTER_PEQ => true
  | _, _ => false
  end.

(** [Config]: the two paths are [None] when null. *)
Record Config (F : Type) : Type := mkConfig {
  input_path : option string;
  output_path : option string;
  filter : FilterType;
  frequency : F;
  gain : F;
  q : F
}.

Section Util.
Context {F : Type} {ops : DoubleOps F} {libm : Libm F}.
Local Open Scope double_scope.

(** The file system: whether [fopen(path, "rb")] returns a stream. *)
Variable fopen : string -> bool.

(** [int validate_config(const Config *config)] *)
Definition validate_config (config : Config F) : Z :=
  match input_path config with
  | None => 0
  | Some path =>
      match output_path config with
      | None => 0
      | Some _ =>
          if FilterType_eqb (filter config) FILTER_NONE then 0
          else if dle (frequency config) (dlit 0) then 0
          else if FilterType_eqb (filter config) FILTER_PEQ
                  && dle (q config) (dlit 0) then 0
          else if fopen path then 1
          else 0
      end
  end%Z.

(** [int apply_hpf(AudioBuffer *buffer, double frequency)], on a buffer
    that is not null: the value returned and the buffer afterwards.  [hpf]
    is what the memory of the local [HPFFilter hpf] holds at its
    declaration; [buffer->sample_rate], an [int], is converted to
    [double] where it is divided by [2.0] and where it is passed on. *)
Definition apply_hpf (hpf : HPF.HPFFilter F) (buffer : AudioBuffer F)
  (frequency : F) : option (Z * AudioBuffer F) :=
  let nyquist := dlit (sample_rate buffer) / dlit 2 in
  if frequency >=? nyquist then Some (0%Z, buffer)
  else
    let hpf := HPF.hpf_init (Some hpf) (dlit (sample_rate buffer)) frequency in
    match HPF.hpf_process_buffer hpf (Some buffer) with
    | Some (_, Some buffer) => Some (1%Z, buffer)
    | _ => None
    end.

(** [int apply_lpf(AudioBuffer *buffer, double frequency)] *)
Definition apply_lpf (lpf : LPF.LPFFilter F) (buffer : AudioBuffer F)
  (frequency : F) : option (Z * AudioBuffer F) :=
  let nyquist := dlit (sample_rate buffer) / dlit 2 in
  if frequency >=? nyquist then Some (0%Z, buffer)
  else
    let lpf := LPF.lpf_init (Some lpf) (dlit (sample_rate buffer)) frequency in
    match LPF.lpf_process_buffer lpf (Some buffer) with
    | Some (_, Some buffer) => Some (1%Z, buffer)
    | _ => None
    end.

(** [int apply_peq(AudioBuffer *buffer, double frequency, double gain,
     double q)] *)
Definition apply_peq (peq : PEQ.ParametricFilter F) (buffer : AudioBuffer F)
  (frequency gain q : F) : option (Z * AudioBuffer F) :=
  let nyquist := dlit (sample_rate buffer) / dlit 2 in
  if frequency >=? nyquist then Some (0%Z, buffer)
  else
    let peq := PEQ.parametric_init (Some peq) (dlit (sample_rate buffer))
                 frequency gain q in
    match PEQ.parametric_process_buffer peq (Some buffer) with
    | Some (_, Some buffer) => Some (1%Z, buffer)
    | _ => None
    end.

End Util.

(** A request for a high-pass filter whose frequency is a NaN, as
    [atof("nan")] returns it, and a file system in which every file
    opens. *)
Definition in_wav : string := "in.wav"%string.
Definition out_wav : string := "out.wav"%string.

Definition nan_request : Config float :=
  mkConfig (Some in_wav) (Some out_wav) FILTER_HPF nan 0%float 1%float.

Definition every_file_opens : string -> bool := fun _ => true.

End Util.

(* ================================================================= *)
(** ** PCM bytes and samples ([audio_io.h], [audio_io.c])

    The two conversions are about the bits of a [double]: they are
    written over binary64.  A byte is an integer from 0 to 255.  The
    source reads and writes 16-bit and 32-bit samples through a cast of
    the byte pointer, as a little-endian machine does (the order of the
    bytes in a WAV file). *)

Module AudioIO.
Local Open Scope Z_scope.

(** [PCMBuffer]: [data] is [None] for a null pointer and otherwise the
    bytes it points to. *)
Record PCMBuffer : Type := mkPCMBuffer {
  data : option (list Z);
  length : nat;
  bit_depth : Z
}.

Definition set_data (b : PCMBuffer) (d : option (list Z)) : PCMBuffer :=
  mkPCMBuffer d (length b) (bit_depth b).

(** A value of [w] bits read as a two's complement number. *)
Definition signed (w z : Z) : Z := (z + 2 ^ (w - 1)) mod 2 ^ w - 2 ^ (w - 1).

(** A [double] with its fraction discarded: [None] for an infinity or a
    NaN.  The magnitude of a finite value is [m * 2^e]; shifting [m] by
    [e] places, to the right when [e] is negative, drops its fraction. *)
Definition trunc (x : float) : option Z :=
  match Prim2SF x with
  | S754_zero _ => Some 0%Z
  | S754_finite s m e =>
      let a := Z.shiftl (Z.pos m) e in
      Some (if s then (- a)%Z else a)
  | _ => None
  end.

(** The conversion [(T)x] of a [double] to an integer type [T] with the
    values [lo .. hi]: the fraction is discarded, and there is no defined
    result when what is left is not a value of [T]. *)
Definition cast (lo hi : Z) (x : float) : option Z :=
  match trunc x with
  | Some z => if ((lo <=? z) && (z <=? hi))%Z then Some z else None
  | None => None
  end.

(** [fmin] and [fmax] of C: when one argument is a NaN the other is
    returned.  (Of two zeros of opposite sign either may be returned; the
    conversions below send both to the same integer.) *)
Definition fmin (x y : float) : float :=
  if PrimFloat.is_nan x then y
  else if PrimFloat.is_nan y then x
  else if PrimFloat.ltb y x then y else x.

Definition fmax (x y : float) : float :=
  if PrimFloat.is_nan x then y
  else if PrimFloat.is_nan y then x
  else if PrimFloat.ltb x y then y else x.

(** [samples[i]] and [samples[i] = v], where [samples] is [pcm->data] cast
    to a pointer to [int16_t]. *)
Definition load_int16 (bytes : list Z) (i : nat) : option Z :=
  match load bytes (2 * i), load bytes (2 * i + 1) with
  | Some b0, Some b1 => Some (signed 16 (b0 + 256 * b1))
  | _, _ => None
  end.

Definition store_int16 (bytes : list Z) (i : nat) (v : Z) : option (list Z) :=
  match load bytes (2 * i), load bytes (2 * i + 1) with
  | Some _, Some _ =>
      Some (store (store bytes (2 * i) (v mod 256))
                  (2 * i + 1) ((v / 256) mod 256))
  | _, _ => None
  end.

(** The same where [samples] is [pcm->data] cast to a pointer to
    [int32_t]. *)
Definition load_int32 (bytes : list Z) (i : nat) : option Z :=
  match load bytes (4 * i), load bytes (4 * i + 1),
        load bytes (4 * i + 2), load bytes (4 * i + 3) with
  | Some b0, Some b1, Some b2, Some b3 =>
      Some (signed 32 (b0 + 256 * b1 + 65536 * b2 + 16777216 * b3))
  | _, _, _, _ => None
  end.

Definition store_int32 (bytes : list Z) (i : nat) (v : Z) : option (list Z) :=
  match load bytes (4 * i), load bytes (4 * i + 1),
        load bytes (4 * i + 2), load bytes (4 * i + 3) with
  | Some _, Some _, Some _, Some _ =>
      let bytes := store bytes (4 * i) (v mod 256) in
      let bytes := store bytes (4 * i + 1) ((v / 256) mod 256) in
      let bytes := store bytes (4 * i + 2) ((v / 65536) mod 256) in
      Some (store bytes (4 * i + 3) ((v / 16777216) mod 256))
  | _, _, _, _ => None
  end.

Local Open Scope float_scope.

(** The loop bodies of [pcm_to_float64], one for each [case]. *)

(** [output[i] = (samples[i] - 128) / 128.0;] *)
Definition decode8 (samples : list Z) (i : nat) (output : list float)
  : option (list float) :=
  match load samples i, load output i with
  | Some s, Some _ => Some (store output i (float_of_Z (s - 128) / 128))
  | _, _ => None
  end.

(** [output[i] = samples[i] / 32768.0;] *)
Definition decode16 (bytes : list Z) (i : nat) (output : list float)
  : option (list float) :=
  match load_int16 bytes i, load output i with
  | Some s, Some _ => Some (store output i (float_of_Z s / 32768))
  | _, _ => None
  end.

(** [sample = bytes[i * 3] | (bytes[i * 3 + 1] << 8) | (bytes[i * 3 + 2] << 16);
     if (sample & 0x800000) sample |= 0xFF000000;
     output[i] = sample / 8388608.0;] *)
Definition decode24 (bytes : list Z) (i : nat) (output : list float)
  : option (list float) :=
  match load bytes (i * 3), load bytes (i * 3 + 1), load bytes (i * 3 + 2),
        load output i with
  | Some b0, Some b1, Some b2, Some _ =>
      let sample := Z.lor (Z.lor b0 (Z.shiftl b1 8)) (Z.shiftl b2 16) in
      let sample :=
        if (Z.land sample 8388608 =? 0)%Z then sample
        else to_int (Z.lor sample 4278190080) in
      Some (store output i (float_of_Z sample / 8388608))
  | _, _, _, _ => None
  end.

(** [output[i] = samples[i] / 2147483648.0;] *)
Definition decode32 (bytes : list Z) (i : nat) (output : list float)
  : option (list float) :=
  match load_int32 bytes i, load output i with
  | Some s, Some _ => Some (store output i (float_of_Z s / 2147483648))
  | _, _ => None
  end.

(** [void pcm_to_float64(PCMBuffer *pcm, double *output,
     size_t sample_count)]: the array [output] afterwards. *)
Definition pcm_to_float64 (pcm : option PCMBuffer)
  (output : option (list float)) (sample_count : nat)
  : option (option (list float)) :=
  match pcm, output with
  | Some p, Some out =>
      if (sample_count =? 0)%nat then Some output
      else
        let run (body : list Z -> nat -> list float -> option (list float)) :=
          match data p with
          | None => None
          | Some bytes =>
              match for_loop sample_count 0 sample_count 1 (body bytes) out
              with
              | None => None
              | Some out => Some (Some out)
              end
          end in
        if (bit_depth p =? 8)%Z then run decode8
        else if (bit_depth p =? 16)%Z then run decode16
        else if (bit_depth p =? 24)%Z then run decode24
        else if (bit_depth p =? 32)%Z then run decode32
        else Some output
  | _, _ => Some output
  end.

(** [double clamped = fmax(-1.0, fmin(1.0, input[i]));] *)
Definition clamp (x : float) : float := fmax (-1) (fmin 1 x).

(** The loop bodies of [float64_to_pcm]. *)

(** [samples[i] = (uint8_t)((clamped * 128.0) + 128);] *)
Definition encode8 (input : list float) (i : nat) (samples : list Z)
  : option (list Z) :=
  match load input i, load samples i with
  | Some x, Some _ =>
      let clamped := clamp x in
      match cast 0 255 (clamped * 128 + 128) with
      | Some v => Some (store samples i v)
      | None => None
      end
  | _, _ => None
  end.

(** [samples[i] = (int16_t)(clamped * 32767.0);] *)
Definition encode16 (input : list float) (i : nat) (bytes : list Z)
  : option (list Z) :=
  match load input i with
  | Some x =>
      let clamped := clamp x in
      match cast (-32768) 32767 (clamped * 32767) with
      | Some v => store_int16 bytes i v
      | None => None
      end
  | None => None
  end.

(** [int32_t sample = (int32_t)(clamped * 8388607.0);
     bytes[i * 3] = sample & 0xFF;
     bytes[i * 3 + 1] = (sample >> 8) & 0xFF;
     bytes[i * 3 + 2] = (sample >> 16) & 0xFF;] *)
Definition encode24 (input : list float) (i : nat) (bytes : list Z)
  : option (list Z) :=
  match load input i with
  | Some x =>
      let clamped := clamp x in
      match cast (-2147483648) 2147483647 (clamped * 8388607) with
      | Some sample =>
          match load bytes (i * 3), load bytes (i * 3 + 1),
                load bytes (i * 3 + 2) with
          | Some _, Some _, Some _ =>
              let bytes := store bytes (i * 3) (Z.land sample 255) in
              let bytes :=
                store bytes (i * 3 + 1) (Z.land (Z.shiftr sample 8) 255) in
              Some (store bytes (i * 3 + 2)
                          (Z.land (Z.shiftr sample 16) 255))
          | _, _, _ => None
          end
      | None => None
      end
  | None => None
  end.

(** [samples[i] = (int32_t)(clamped * 2147483647.0);] *)
Definition encode32 (input : list float) (i : nat) (bytes : list Z)
  : option (list Z) :=
  match load input i with
  | Some x =>
      let clamped := clamp x in
      match cast (-2147483648) 2147483647 (clamped * 2147483647) with
      | Some v => store_int32 bytes i v
      | None => None
      end
  | None => None
  end.

(** [void float64_to_pcm(double *input, PCMBuffer *pcm,
     size_t sample_count)]: the buffer [pcm] afterwards. *)
Definition float64_to_pcm (input : option (list float))
  (pcm : option PCMBuffer) (sample_count : nat)
  : option (option PCMBuffer) :=
  match input, pcm with
  | Some inp, Some p =>
      if (sample_count =? 0)%nat then Some pcm
      else
        let run (body : list float -> nat -> list Z -> option (list Z)) :=
          match data p with
          | None => None
          | Some bytes =>
              match for_loop sample_count 0 sample_count 1 (body inp) bytes
              with
              | None => None
              | Some bytes => Some (Some (set_data p (Some bytes)))
              end
          end in
        if (bit_depth p =? 8)%Z then run encode8
        else if (bit_depth p =? 16)%Z then run encode16
        else if (bit_depth p =? 24)%Z then run encode24
        else if (bit_depth p =? 32)%Z then run encode32
        else Some pcm
  | _, _ => Some pcm
  end.

(** A 16-bit sample read from PCM and written back: one step toward
    zero. *)
Definition toward_zero (s : Z) : Z := (s - Z.sgn s)%Z.

(** What one 8-bit, and one 16-bit, sample comes to when it is read and
    written back. *)
Definition round_trip8 (s : Z) : option Z :=
  cast 0 255 (clamp (float_of_Z (s - 128) / 128) * 128 + 128).

Definition round_trip16 (s : Z) : option Z :=
  cast (-32768) 32767 (clamp (float_of_Z s / 32768) * 32767).

Definition round_trip8_ok (s : Z) : bool :=
  match round_trip8 s with
  | Some v => (v =? s)%Z
  | None => false
  end.

Definition round_trip16_ok (s : Z) : bool :=
  match round_trip16 s with
  | Some v => (v =? toward_zero s)%Z
  | None => false
  end.

(** The [n] integers from [lo] on. *)
Fixpoint range (lo : Z) (n : nat) : list Z :=
  match n with
  | O => []
  | S n' => lo :: range (lo + 1) n'
  end.

(** The values of [uint8_t], and of [int16_t]. *)
Definition all_uint8 : list Z := range 0 256.
Definition all_int16 : list Z := range (-32768) (256 * 256).

(** Four bytes, two 16-bit samples: [1] and [-2]. *)
Definition two_samples16 : PCMBuffer :=
  mkPCMBuffer (Some [1; 0; 254; 255]%Z) 4 16.

(** Three 8-bit samples. *)
Definition three_samples8 : PCMBuffer :=
  mkPCMBuffer (Some [0; 128; 255]%Z) 3 8.

(** The integer that [float64_to_pcm] packs in three bytes for the sample
    [x]. *)
Definition sample24 (x : float) : option Z :=
  cast (-2147483648) 2147483647 (clamp x * 8388607).

(** Room for one 24-bit sample. *)
Definition one_sample24 : PCMBuffer := mkPCMBuffer (Some [0; 0; 0]%Z) 3 24.

End AudioIO.

(** The signal [a*xs + b*ys], sample by sample. *)
Definition combine_signals {F : Type} {ops : DoubleOps F} (a b : F)
  (xs ys : list F) : list F :=
  map (fun p => (a * fst p + b * snd p)%D) (combine xs ys).

(** The delays of [w] are [a] times those of [u] plus [b] times those of
    [v]. *)
Definition combined_delays (a b : R) (u v w : BiQuad R) : Prop :=
  (xz1 w = a * xz1 u + b * xz1 v /\ xz2 w = a * xz2 u + b * xz2 v /\
   yz1 w = a * yz1 u + b * yz1 v /\ yz2 w = a * yz2 u + b * yz2 v)%R.

(** The unit [y(n) = x(n) + x(n-1)], in exact arithmetic. *)
Definition summing_unit : BiQuad R :=
  mkBiQuad 1%R 1%R 0%R 0%R 0%R 1%R 0%R 0%R 0%R 0%R 0%R.

(** The unit [y(n) = 0.3*x(n) + 0.5*x(n-1)], in binary64. *)
Definition weighting_unit : BiQuad float := unit_with 0.3 0.5 0 0 0.

(* ================================================================= *)
(** * Properties *)

Unset Implicit Arguments.

(** ** The per-sample recurrence *)

Section BiquadFacts.
Context {F : Type} {ops : DoubleOps F}.
Local Open Scope double_scope.

Lemma underflow_check_or (yn : F) :
  underflow_check yn =
  if ((dlit 0 <? yn) && (yn <? FLT_MIN_PLUS))
     || ((FLT_MIN_MINUS <? yn) && (yn <? dlit 0))
  then dlit 0 else yn.
Proof.
  unfold underflow_check.
  destruct ((dlit 0 <? yn) && (yn <? FLT_MIN_PLUS)) eqn:Hpos; simpl.
  - (* first check fired: the second sees 0.0 and can only write 0.0 again *)
    destruct ((dlit 0 <? dlit 0) && (FLT_MIN_MINUS <? dlit 0)); reflexivity.
  - rewrite (andb_comm (yn <? dlit 0)). reflexivity.
Qed.

(** C1.  On a unit [bq] and an input [x], [biquad_process] evaluates
    [yn = a0*x + a1*xz1 + a2*xz2 - b1*yz1 - b2*yz2], replaces it by [0.0]
    when [0 < yn < FLT_MIN_PLUS] or [FLT_MIN_MINUS < yn < 0], shifts the
    delays ([yz2 <- yz1], [yz1 <- yn], [xz2 <- xz1], [xz1 <- x]), keeps the
    seven coefficients and returns [yn]. *)
Theorem biquad_process_recurrence (bq : BiQuad F) (x : F) :
  let yn0 := a0 bq * x + a1 bq * xz1 bq + a2 bq * xz2 bq
             - b1 bq * yz1 bq - b2 bq * yz2 bq in
  let yn := if ((dlit 0 <? yn0) && (yn0 <? FLT_MIN_PLUS))
               || ((FLT_MIN_MINUS <? yn0) && (yn0 <? dlit 0))
            then dlit 0 else yn0 in
  biquad_process (Some bq) x =
  (Some (mkBiQuad (a0 bq) (a1 bq) (a2 bq) (b1 bq) (b2 bq) (c0 bq) (d0 bq)
                  x (xz1 bq) yn (yz1 bq)),
   yn).
Proof.
  intros yn0 yn. unfold biquad_process, biquad_process_unit.
  fold yn0. rewrite underflow_check_or. fold yn.
  reflexivity.
Qed.

(** C10.  With a null unit [biquad_process] returns its input and there
    is no unit to change. *)
Theorem biquad_process_null (x : F) :
  biquad_process None x = (None, x).
Proof. reflexivity. Qed.

Lemma biquad_process_unit_fields (bq : BiQuad F) (x : F) :
  let (bq', y) := biquad_process_unit bq x in
  coefficients bq' = coefficients bq /\
  delays bq' = (x, xz1 bq, y, yz1 bq).
Proof. unfold biquad_process_unit, coefficients, delays. simpl. auto. Qed.

Lemma biquad_run_some (bq : BiQuad F) (xs : list F) :
  exists u ys, biquad_run (Some bq) xs = (Some u, ys) /\
               List.length ys = List.length xs.
Proof.
  revert bq. induction xs as [|x xs IH]; intros bq;
    cbn [biquad_run biquad_process].
  - exists bq, []. auto.
  - destruct (biquad_process_unit bq x) as [bq1 y].
    destruct (IH bq1) as (u & ys & E & L). rewrite E.
    exists u, (y :: ys). simpl. auto.
Qed.

Lemma biquad_run_snoc (bq u : BiQuad F) (xs ys : list F) (x : F) :
  biquad_run (Some bq) xs = (Some u, ys) ->
  biquad_run (Some bq) (xs ++ [x]) =
  (Some (fst (biquad_process_unit u x)),
   ys ++ [snd (biquad_process_unit u x)]).
Proof.
  revert bq ys. induction xs as [|x0 xs IH]; intros bq ys E;
    cbn [biquad_run biquad_process app] in *.
  - inversion E; subst. destruct (biquad_process_unit u x). reflexivity.
  - destruct (biquad_process_unit bq x0) as [bq1 y0].
    destruct (biquad_run (Some bq1) xs) as [o ys1] eqn:E1.
    inversion E; subst.
    rewrite (IH _ _ E1). reflexivity.
Qed.

Lemma holds_recent_step (u : BiQuad F) (xs ys : list F) (x : F) :
  holds_recent u xs ys ->
  holds_recent (fst (biquad_process_unit u x)) (xs ++ [x])
               (ys ++ [snd (biquad_process_unit u x)]).
Proof.
  intros [Hx Hy]. unfold holds_recent.
  rewrite !rev_app_distr. simpl.
  destruct (rev xs) as [|p [|p' r]]; try discriminate.
  destruct (rev ys) as [|w [|w' t]]; try discriminate.
  simpl in *. inversion Hx; inversion Hy; subst. auto.
Qed.

Lemma holds_recent_after_two (bq : BiQuad F) (x1 x2 : F) :
  forall u ys, biquad_run (Some bq) [x1; x2] = (Some u, ys) ->
  holds_recent u [x1; x2] ys.
Proof.
  intros u ys E. cbn in E. inversion E; subst.
  unfold holds_recent. cbn. auto.
Qed.

Lemma holds_recent_run (bq : BiQuad F) (xs : list F) :
  (2 <= List.length xs)%nat ->
  exists u ys, biquad_run (Some bq) xs = (Some u, ys) /\
               List.length ys = List.length xs /\
               holds_recent u xs ys.
Proof.
  induction xs as [|x xs IH] using rev_ind; simpl; [lia|].
  rewrite length_app; simpl. intros L.
  destruct (biquad_run_some bq xs) as (u & ys & E & Ly).
  exists (fst (biquad_process_unit u x)),
         (ys ++ [snd (biquad_process_unit u x)]).
  split; [apply biquad_run_snoc; exact E|].
  split; [rewrite !length_app; simpl; lia|].
  destruct (Nat.eq_dec (List.length xs) 1) as [L1|L1].
  - destruct xs as [|x1 [|? ?]]; simpl in L1; try discriminate.
    apply (holds_recent_after_two bq x1 x).
    exact (biquad_run_snoc bq u [x1] ys x E).
  - destruct IH as (u' & ys' & E' & _ & Hr); [lia|].
    rewrite E in E'. inversion E'; subst.
    apply holds_recent_step. exact Hr.
Qed.

(** C7.  From flushed delays, after [N >= 2] calls of [biquad_process] on
    inputs [xs], [xz1] and [xz2] are the last and the last but one input,
    [yz1] and [yz2] the last and the last but one returned value; and one
    more call, on any input [x], leaves the delays in that relation to the
    extended sequences. *)
Theorem delays_hold_recent_history (bq : BiQuad F) (xs : list F) :
  delays bq = (dlit 0, dlit 0, dlit 0, dlit 0) ->
  (2 <= List.length xs)%nat ->
  exists u ys,
    biquad_run (Some bq) xs = (Some u, ys) /\
    List.length ys = List.length xs /\
    holds_recent u xs ys /\
    forall x, exists u' y,
      biquad_process (Some u) x = (Some u', y) /\
      biquad_run (Some bq) (xs ++ [x]) = (Some u', ys ++ [y]) /\
      holds_recent u' (xs ++ [x]) (ys ++ [y]).
Proof.
  intros _ L.
  destruct (holds_recent_run bq xs L) as (u & ys & E & Ly & Hr).
  exists u, ys. repeat split; try assumption; try apply Hr.
  intros x.
  exists (fst (biquad_process_unit u x)), (snd (biquad_process_unit u x)).
  split; [|split].
  - cbn [biquad_process]. destruct (biquad_process_unit u x). reflexivity.
  - apply biquad_run_snoc. exact E.
  - apply holds_recent_step. exact Hr.
Qed.

End BiquadFacts.

(** [test_biquad_underflow], [test_biquad_passthrough] and
    [test_biquad_delays] of [tests/test_biquad.c], in binary64. *)
Example underflow_tiny_positive :
  snd (biquad_process (Some passthrough_unit) 1e-39%float) = 0%float.
Proof. reflexivity. Qed.

Example underflow_tiny_negative :
  snd (biquad_process (Some passthrough_unit) (-1e-39)%float) = 0%float.
Proof. reflexivity. Qed.

Example underflow_small_normal :
  snd (biquad_process (Some passthrough_unit) 1e-10%float) = 1e-10%float.
Proof. reflexivity. Qed.

Example passthrough_outputs :
  snd (biquad_run (Some passthrough_unit) [1; 0.5; -0.5; 0; 0.25]%float) =
  [1; 0.5; -0.5; 0; 0.25]%float.
Proof. reflexivity. Qed.

Example unit_delay_outputs :
  snd (biquad_run (Some (unit_with 0 1 0 0 0)) [1; 2; 3; 4; 5]%float) =
  [0; 1; 2; 3; 4]%float.
Proof. reflexivity. Qed.

(** In binary64 a gain below zero fails the test [gain >= 0.0]: the
    parametric design takes its cut branch exactly for negative gains and
    for a NaN. *)
Lemma binary64_negative_gain (g : float) :
  PrimFloat.ltb g 0 = true -> PrimFloat.leb 0 g = false.
Proof.
  rewrite FloatAxioms.ltb_spec, FloatAxioms.leb_spec.
  change (Prim2SF 0) with (S754_zero false).
  destruct (Prim2SF g) as [s|s| |s m e]; try destruct s;
    cbv; congruence.
Qed.

(** C7 at the averaging unit of [test_biquad_lowpass] and three inputs. *)
Lemma delays_hold_recent_history_witness :
  exists u ys,
    biquad_run (Some averaging_unit) [1; -1; 1]%float = (Some u, ys) /\
    List.length ys = 3%nat /\
    holds_recent u [1; -1; 1]%float ys /\
    forall x, exists u' y,
      biquad_process (Some u) x = (Some u', y) /\
      biquad_run (Some averaging_unit) ([1; -1; 1]%float ++ [x]) =
        (Some u', ys ++ [y]) /\
      holds_recent u' ([1; -1; 1]%float ++ [x]) (ys ++ [y]).
Proof.
  apply (delays_hold_recent_history averaging_unit [1; -1; 1]%float).
  - reflexivity.
  - simpl. lia.
Defined.

(* ================================================================= *)
(** ** The coefficient designs *)

Section DesignFacts.
Context {F : Type} {ops : DoubleOps F} {libm : Libm F}.
Local Open Scope double_scope.

(** C3.  The Butterworth designs.  High-pass, with
    [C = tan(pi*f/sample_rate)]: [a0 = 1/(1 + sqrt2*C + C^2)],
    [a1 = -2*a0], [a2 = a0], [b1 = 2*a0*(C^2 - 1)],
    [b2 = a0*(1 - sqrt2*C + C^2)].  Low-pass, with
    [C = 1/tan(pi*f/sample_rate)]: the same [a0], [a2], [b2],
    [a1 = 2*a0], [b1 = 2*a0*(1 - C^2)].  Both set [c0 = 1], [d0 = 0] and
    leave the four delays at zero.  This holds in every arithmetic, for
    every sample rate and frequency, those below Nyquist among them. *)
Theorem butterworth_designs (bq : BiQuad F) (sample_rate f : F) :
  (let C := tan_d (M_PI * f / sample_rate) in
   let sqrt2 := sqrt_d (dlit 2) in
   let A0 := dlit 1 / (dlit 1 + sqrt2 * C + C * C) in
   HPF.calculate_butterworth_coefficients (Some bq) sample_rate f =
   Some (mkBiQuad A0 (dlit (-2) * A0) A0
                  (dlit 2 * A0 * (C * C - dlit 1))
                  (A0 * (dlit 1 - sqrt2 * C + C * C))
                  (dlit 1) (dlit 0)
                  (dlit 0) (dlit 0) (dlit 0) (dlit 0)))
  /\
  (let C := dlit 1 / tan_d (M_PI * f / sample_rate) in
   let sqrt2 := sqrt_d (dlit 2) in
   let A0 := dlit 1 / (dlit 1 + sqrt2 * C + C * C) in
   LPF.calculate_butterworth_coefficients (Some bq) sample_rate f =
   Some (mkBiQuad A0 (dlit 2 * A0) A0
                  (dlit 2 * A0 * (dlit 1 - C * C))
                  (A0 * (dlit 1 - sqrt2 * C + C * C))
                  (dlit 1) (dlit 0)
                  (dlit 0) (dlit 0) (dlit 0) (dlit 0))).
Proof. split; reflexivity. Qed.

(** The parametric design as the machine evaluates it: the expression
    trees of the source, in every arithmetic. *)
Lemma parametric_design_computed (bq : BiQuad F) (sample_rate f g q : F) :
  let K := tan_d ((M_PI * f) / sample_rate) in
  let V0 := pow_d (dlit 10) (g / dlit 20) in
  let D0 := dlit 1 + ((dlit 1 / q) * K) + K * K in
  let E0 := dlit 1 + ((dlit 1 / (V0 * q)) * K) + K * K in
  let A := dlit 1 + ((V0 / q) * K) + K * K in
  let B := dlit 2 * (K * K - dlit 1) in
  let G := dlit 1 - ((V0 / q) * K) + K * K in
  let D := dlit 1 - ((dlit 1 / q) * K) + K * K in
  let E := dlit 1 - ((dlit 1 / (V0 * q)) * K) + K * K in
  PEQ.calculate_parametric_coefficients (Some bq) sample_rate f g q =
  Some (if g >=? dlit 0
        then mkBiQuad (A / D0) (B / D0) (G / D0) (B / D0) (D / D0)
                      (dlit 1) (dlit 0) (dlit 0) (dlit 0) (dlit 0) (dlit 0)
        else mkBiQuad (D0 / E0) (B / E0) (D / E0) (B / E0) (E / E0)
                      (dlit 1) (dlit 0) (dlit 0) (dlit 0) (dlit 0) (dlit 0)).
Proof.
  cbv zeta. unfold PEQ.calculate_parametric_coefficients,
    PEQ.parametric_coefficients.
  destruct (g >=? dlit 0); reflexivity.
Qed.

(** The gain enters the coefficients through [V0] alone.  In any
    arithmetic in which [1 * q] is [q], two gains whose [V0] is [1] give
    the same unit, whichever branch each takes. *)
Lemma parametric_branches_agree_at_unit_gain (bq : BiQuad F)
  (sample_rate f g g' q : F) (boost boost' : bool) :
  pow_d (dlit 10) (g / dlit 20) = dlit 1 ->
  pow_d (dlit 10) (g' / dlit 20) = dlit 1 ->
  dlit 1 * q = q ->
  PEQ.parametric_coefficients boost bq sample_rate f g q =
  PEQ.parametric_coefficients boost' bq sample_rate f g' q.
Proof.
  intros Hpow Hpow' Hone. unfold PEQ.parametric_coefficients.
  rewrite Hpow, Hpow', Hone. destruct boost, boost'; reflexivity.
Qed.

(** In particular the two branches coincide at gain zero when
    [pow(10, 0/20)] is [1]. *)
Lemma parametric_branches_agree_at_zero (bq : BiQuad F) (sample_rate f q : F) :
  pow_d (dlit 10) (dlit 0 / dlit 20) = dlit 1 ->
  dlit 1 * q = q ->
  PEQ.parametric_coefficients true bq sample_rate f (dlit 0) q =
  PEQ.parametric_coefficients false bq sample_rate f (dlit 0) q.
Proof.
  intros Hpow Hone.
  apply parametric_branches_agree_at_unit_gain; assumption.
Qed.

End DesignFacts.

(** *** In binary64 *)

(** Multiplication by [1.0] is exact: the product of the significands is
    the significand of [q] shifted left by 52 bits, and rounding it to 53
    bits shifts it back without loss. *)
Lemma shr_fexp_scaled (m : positive) (e : Z) :
  fexp prec emax (Z.pos (digits2_pos m) + e) = e ->
  shr_fexp prec emax (Z.pos (4503599627370496 * m)) (-52 + e) loc_Exact =
  ({| shr_m := Z.pos m; shr_r := false; shr_s := false |}, e).
Proof.
  intros Hc. unfold shr_fexp.
  assert (Hd : Zdigits2 (Z.pos (4503599627370496 * m)) =
               (Z.pos (digits2_pos m) + 52)%Z).
  { cbn [Pos.mul Zdigits2 digits2_pos]. rewrite !Pos2Z.inj_succ. lia. }
  rewrite Hd.
  replace (Z.pos (digits2_pos m) + 52 + (-52 + e))%Z
    with (Z.pos (digits2_pos m) + e)%Z by lia.
  rewrite Hc.
  replace (e - (-52 + e))%Z with 52%Z by lia.
  unfold shr. cbv iota beta. apply f_equal2; [|lia].
  cbn [Pos.mul shr_record_of_loc iter_pos shr_1 orb]. reflexivity.
Qed.

Lemma shr_fexp_canonical (m : positive) (e : Z) :
  fexp prec emax (Z.pos (digits2_pos m) + e) = e ->
  shr_fexp prec emax (Z.pos m) e loc_Exact =
  ({| shr_m := Z.pos m; shr_r := false; shr_s := false |}, e).
Proof.
  intros Hc. unfold shr_fexp. cbn [Zdigits2].
  rewrite Hc, Z.sub_diag. reflexivity.
Qed.

Lemma SFmul_one (s : spec_float) :
  valid_binary s = true -> SF64mul (Prim2SF 1%float) s = s.
Proof.
  intros Hv.
  change (Prim2SF 1%float) with (S754_finite false 4503599627370496 (-52)).
  destruct s as [sg|sg| |sg m e]; try reflexivity.
  unfold SF64mul, SFmul. cbn [xorb].
  unfold valid_binary, bounded in Hv.
  apply andb_true_iff in Hv. destruct Hv as [Hc He].
  unfold canonical_mantissa in Hc. apply Z.eqb_eq in Hc.
  unfold binary_round_aux.
  rewrite (shr_fexp_scaled m e Hc).
  cbn [shr_m loc_of_shr_record shr_r shr_s round_nearest_even].
  rewrite (shr_fexp_canonical m e Hc).
  cbn [shr_m]. rewrite He. reflexivity.
Qed.

Lemma binary64_mul_one (q : float) : (1 * q)%float = q.
Proof.
  apply Prim2SF_inj. rewrite FloatAxioms.mul_spec.
  apply SFmul_one, Prim2SF_valid.
Qed.

(** With a [pow] that returns [1.0] for a zero exponent, as C requires of
    it, the boost and the cut formulas give the same unit at gain [0.0] in
    binary64 too, bit for bit. *)
Lemma binary64_branches_agree_at_zero (tan : float -> float)
  (pow : float -> float -> float) (bq : BiQuad float)
  (sample_rate f q : float) :
  pow 10%float 0%float = 1%float ->
  PEQ.parametric_coefficients (libm := binary64_libm tan pow)
    true bq sample_rate f 0%float q =
  PEQ.parametric_coefficients (libm := binary64_libm tan pow)
    false bq sample_rate f 0%float q.
Proof.
  intros Hpow.
  change 0%float with (dlit (F := float) 0).
  apply parametric_branches_agree_at_zero.
  - exact Hpow.
  - exact (binary64_mul_one q).
Qed.

(** More generally, every gain small enough for [pow(10, g/20)] to round
    to [1.0], on either side of zero, gives that same unit: towards zero
    the two branches do not merely come within a tolerance of each other,
    they return the same bits. *)
Lemma binary64_branches_agree_near_zero (tan : float -> float)
  (pow : float -> float -> float) (bq : BiQuad float)
  (sample_rate f g g' q : float) (boost boost' : bool) :
  pow 10%float (g / 20)%float = 1%float ->
  pow 10%float (g' / 20)%float = 1%float ->
  PEQ.parametric_coefficients (libm := binary64_libm tan pow)
    boost bq sample_rate f g q =
  PEQ.parametric_coefficients (libm := binary64_libm tan pow)
    boost' bq sample_rate f g' q.
Proof.
  intros Hpow Hpow'.
  apply parametric_branches_agree_at_unit_gain.
  - exact Hpow.
  - exact Hpow'.
  - exact (binary64_mul_one q).
Qed.

(** A negative gain takes the cut branch ([libm] is any). *)
Lemma binary64_negative_gain_cuts (tan : float -> float)
  (pow : float -> float -> float) (bq : BiQuad float)
  (sample_rate f g q : float) :
  PrimFloat.ltb g 0 = true ->
  PEQ.calculate_parametric_coefficients (libm := binary64_libm tan pow)
    (Some bq) sample_rate f g q =
  Some (PEQ.parametric_coefficients (libm := binary64_libm tan pow)
          false bq sample_rate f g q).
Proof.
  intros Hg. unfold PEQ.calculate_parametric_coefficients.
  change (dle (dlit 0) g) with (PrimFloat.leb 0 g).
  rewrite (binary64_negative_gain g Hg). reflexivity.
Qed.

(** A finite double compares within [1e-9] of itself: the difference is
    a zero.  (An infinity or a NaN does not: the difference is a NaN.) *)
Lemma finite_within_itself (x : float) :
  finite x = true -> assert_double_eq x x 1e-9 = true.
Proof.
  unfold finite, assert_double_eq. intros Hx.
  rewrite FloatAxioms.ltb_spec, FloatAxioms.abs_spec, FloatAxioms.sub_spec.
  destruct (Prim2SF x) as [s|s| |s m e]; try discriminate.
  - destruct s; reflexivity.
  - unfold SF64sub, SFsub. rewrite Z.sub_diag. reflexivity.
Qed.

Lemma coefficients_close_to_itself (u : BiQuad float) :
  coefficients_finite u = true -> coefficients_close 1e-9 u u = true.
Proof.
  unfold coefficients_finite, coefficients_close. intros Hu.
  repeat (apply andb_true_iff in Hu; destruct Hu as [Hu ?]).
  rewrite !finite_within_itself by assumption. reflexivity.
Qed.

(** The doubles of magnitude at most [2^-1074]. *)
Lemma smallest_magnitudes (g : float) :
  PrimFloat.leb (PrimFloat.abs g) smallest_double = true ->
  g = 0%float \/ g = (-0)%float \/
  g = smallest_double \/ g = (- smallest_double)%float.
Proof.
  rewrite FloatAxioms.leb_spec, FloatAxioms.abs_spec.
  change (Prim2SF smallest_double) with (S754_finite false 1 (-1074)).
  pose proof (Prim2SF_valid g) as Hv. intros Hle.
  assert (Hcases :
    Prim2SF g = S754_zero false \/ Prim2SF g = S754_zero true \/
    Prim2SF g = S754_finite false 1 (-1074) \/
    Prim2SF g = S754_finite true 1 (-1074)).
  { destruct (Prim2SF g) as [s|s| |s m e]; try discriminate.
    - destruct s; auto.
    - unfold valid_binary, bounded, canonical_mantissa in Hv.
      apply andb_true_iff in Hv. destruct Hv as [Hc _].
      apply Z.eqb_eq in Hc. unfold fexp, SpecFloat.emin in Hc.
      change emax with 1024%Z in Hc. change prec with 53%Z in Hc.
      assert (He : (-1074 <= e)%Z) by lia.
      unfold SFleb, SFabs, SFcompare in Hle.
      destruct (Z.compare_spec e (-1074)) as [->|Hlt|Hgt];
        try lia; try discriminate.
      change (PosDef.Pos.compare_cont Eq m 1) with (Pos.compare m 1) in Hle.
      destruct (Pos.compare_spec m 1) as [->|Hlt|Hgt];
        try lia; try discriminate.
      destruct s; auto. }
  destruct Hcases as [H|[H|[H|H]]];
    [left | right; left | right; right; left | right; right; right];
    apply Prim2SF_inj; rewrite H; reflexivity.
Qed.

(** For such a gain [g/20] is a zero, so [pow(10, g/20)] is [1.0] for a
    [pow] that returns [1.0] for the exponents [+0] and [-0]. *)
Lemma binary64_unit_gain_near_zero (pow : float -> float -> float)
  (g : float) :
  pow 10%float 0%float = 1%float ->
  pow 10%float (-0)%float = 1%float ->
  PrimFloat.leb (PrimFloat.abs g) smallest_double = true ->
  pow 10%float (g / 20)%float = 1%float.
Proof.
  intros Hp Hn Hg.
  destruct (smallest_magnitudes g Hg) as [-> | [-> | [-> | ->]]].
  - exact Hp.
  - exact Hn.
  - exact Hp.
  - exact Hn.
Qed.

(** *** In exact arithmetic *)

Lemma Rdiv_one_mul (x y : R) : (1 / y * x = x / y)%R.
Proof. unfold Rdiv. ring. Qed.

Lemma Rleb_true (x y : R) : (x <= y)%R -> Rleb x y = true.
Proof. intros L. unfold Rleb. destruct (Rle_dec x y); [reflexivity|tauto]. Qed.

Lemma Rleb_false (x y : R) : (y < x)%R -> Rleb x y = false.
Proof. intros L. unfold Rleb. destruct (Rle_dec x y); [lra|reflexivity]. Qed.

Lemma Rpower_10_0 : Rpower 10 (0 / 20) = 1%R.
Proof.
  unfold Rpower. replace (0 / 20 * ln 10)%R with 0%R by (unfold Rdiv; ring).
  apply exp_0.
Qed.

(** Below Nyquist the tangent of the designs is positive, and so are the
    denominators [1 + sqrt2*C + C^2] of the Butterworth designs and [D0] of
    the parametric design: the exact coefficients are quotients by
    non-zero numbers. *)
Lemma tan_below_nyquist (sample_rate f : R) :
  (0 < f)%R -> (f < sample_rate / 2)%R -> (0 < tan (PI * f / sample_rate))%R.
Proof.
  intros Hf Hny.
  assert (Hsr : (0 < sample_rate)%R) by lra.
  assert (Hpi := PI_RGT_0).
  apply tan_gt_0.
  - apply Rdiv_lt_0_compat; [apply Rmult_lt_0_compat|]; assumption.
  - apply (Rmult_lt_reg_r sample_rate); [assumption|].
    unfold Rdiv. rewrite Rmult_assoc, Rinv_l by lra.
    rewrite Rmult_1_r.
    replace (PI * / 2 * sample_rate)%R with (PI * (sample_rate / 2))%R
      by (unfold Rdiv; ring).
    apply Rmult_lt_compat_l; assumption.
Qed.

Lemma butterworth_denominator_positive (C : R) :
  (0 < C)%R -> (0 < 1 + sqrt 2 * C + C * C)%R.
Proof.
  intros HC. assert (H2 := sqrt_pos 2).
  assert (0 <= sqrt 2 * C)%R by (apply Rmult_le_pos; lra).
  nra.
Qed.

(** So, below Nyquist, [a0] of either Butterworth design is a positive
    real number. *)
Lemma butterworth_a0_positive (bq : BiQuad R) (sample_rate f : R) :
  (0 < f)%R -> (f < sample_rate / 2)%R ->
  (exists u, HPF.calculate_butterworth_coefficients (Some bq) sample_rate f
             = Some u /\ (0 < a0 u)%R) /\
  (exists u, LPF.calculate_butterworth_coefficients (Some bq) sample_rate f
             = Some u /\ (0 < a0 u)%R).
Proof.
  intros Hf Hny.
  pose proof (tan_below_nyquist sample_rate f Hf Hny) as HK.
  split; eexists; (split; [reflexivity|]); cbn.
  - apply Rdiv_lt_0_compat; [lra|].
    apply butterworth_denominator_positive. exact HK.
  - apply Rdiv_lt_0_compat; [lra|].
    apply butterworth_denominator_positive.
    apply Rdiv_lt_0_compat; [lra | exact HK].
Qed.

(** C4.  The parametric design.  First, what every arithmetic computes:
    [K = tan(pi*f/sample_rate)], [V0 = 10^(g/20)], the boost coefficients
    [A/D0, B/D0, G/D0, B/D0, D/D0] when the test [g >= 0] succeeds and the
    cut coefficients [D0/E0, B/E0, D/E0, B/E0, E/E0] otherwise, then
    [c0 = 1], [d0 = 0] and zero delays.  Second, in exact arithmetic the
    intermediates are those of the design formulas, [D0 = 1 + K/Q + K^2],
    [E0 = 1 + K/(V0*Q) + K^2], [A = 1 + (V0/Q)*K + K^2], [B = 2*(K^2 - 1)],
    [G = 1 - (V0/Q)*K + K^2], [D = 1 - K/Q + K^2],
    [E = 1 - K/(V0*Q) + K^2], with boost for [g >= 0] and cut for
    [g < 0]. *)
Theorem parametric_design :
  (forall (F : Type) (ops : DoubleOps F) (libm : Libm F)
          (bq : BiQuad F) (sample_rate f g q : F),
     let K := tan_d ((M_PI * f) / sample_rate)%D in
     let V0 := pow_d (dlit 10) (g / dlit 20)%D in
     let D0 := (dlit 1 + ((dlit 1 / q) * K) + K * K)%D in
     let E0 := (dlit 1 + ((dlit 1 / (V0 * q)) * K) + K * K)%D in
     let A := (dlit 1 + ((V0 / q) * K) + K * K)%D in
     let B := (dlit 2 * (K * K - dlit 1))%D in
     let G := (dlit 1 - ((V0 / q) * K) + K * K)%D in
     let D := (dlit 1 - ((dlit 1 / q) * K) + K * K)%D in
     let E := (dlit 1 - ((dlit 1 / (V0 * q)) * K) + K * K)%D in
     PEQ.calculate_parametric_coefficients (Some bq) sample_rate f g q =
     Some (if (g >=? dlit 0)%D
           then mkBiQuad (A / D0)%D (B / D0)%D (G / D0)%D (B / D0)%D (D / D0)%D
                  (dlit 1) (dlit 0) (dlit 0) (dlit 0) (dlit 0) (dlit 0)
           else mkBiQuad (D0 / E0)%D (B / E0)%D (D / E0)%D (B / E0)%D (E / E0)%D
                  (dlit 1) (dlit 0) (dlit 0) (dlit 0) (dlit 0) (dlit 0)))
  /\
  (forall (bq : BiQuad R) (sample_rate f g q : R),
     let K := tan (PI * f / sample_rate) in
     let V0 := Rpower 10 (g / 20) in
     let D0 := (1 + K / q + K * K)%R in
     let E0 := (1 + K / (V0 * q) + K * K)%R in
     let A := (1 + (V0 / q) * K + K * K)%R in
     let B := (2 * (K * K - 1))%R in
     let G := (1 - (V0 / q) * K + K * K)%R in
     let D := (1 - K / q + K * K)%R in
     let E := (1 - K / (V0 * q) + K * K)%R in
     ((0 <= g)%R ->
      PEQ.calculate_parametric_coefficients (Some bq) sample_rate f g q =
      Some (mkBiQuad (A / D0)%R (B / D0)%R (G / D0)%R (B / D0)%R (D / D0)%R
                     1%R 0%R 0%R 0%R 0%R 0%R))
     /\
     ((g < 0)%R ->
      PEQ.calculate_parametric_coefficients (Some bq) sample_rate f g q =
      Some (mkBiQuad (D0 / E0)%R (B / E0)%R (D / E0)%R (B / E0)%R (E / E0)%R
                     1%R 0%R 0%R 0%R 0%R 0%R))).
Proof.
  split.
  - intros. apply parametric_design_computed.
  - intros bq sample_rate f g q K V0 D0 E0 A B G D E.
    split; intros Hg; rewrite parametric_design_computed; cbn;
      [rewrite (Rleb_true _ _ Hg) | rewrite (Rleb_false _ _ Hg)];
      rewrite !Rdiv_one_mul; reflexivity.
Qed.

(** A function continuous at zero stays within [eps] of its value there
    on a neighbourhood of zero. *)
Lemma continuity_at_zero (h : R -> R) :
  continuity_pt h 0 ->
  forall eps : R, (0 < eps)%R ->
  exists delta : R, (0 < delta)%R /\
    forall g : R, (Rabs g < delta)%R -> (Rabs (h g - h 0) < eps)%R.
Proof.
  intros Hc eps Heps.
  destruct (Hc eps Heps) as (delta & Hd & Hlim).
  exists delta. split; [exact Hd|].
  intros g Hg.
  destruct (Req_dec g 0) as [->|Hne].
  - rewrite Rminus_diag, Rabs_R0. exact Heps.
  - apply (Hlim g). split.
    + split; [exact I | auto].
    + simpl. unfold R_dist. rewrite Rminus_0_r. exact Hg.
Qed.

(** The denominators that depend on the gain do not vanish at gain zero. *)
Ltac gain_denominator Hq HK :=
  replace (0 * / 20 * ln 10)%R with 0%R by ring; rewrite exp_0;
  try (apply Rgt_not_eq, Rlt_gt);
  try match goal with
      | |- (0 < 1 + 1 / (1 * ?q) * ?K + ?K * ?K)%R =>
          assert (0 < 1 / (1 * q) * K)%R
            by (apply Rmult_lt_0_compat;
                [apply Rdiv_lt_0_compat; lra | exact HK]);
          assert (0 <= K * K)%R by (apply Rle_0_sqr)
      end;
  lra.

(** Each coefficient of each branch is a continuous function of the gain
    at zero, for a positive [Q] and a positive tangent. *)
Lemma parametric_branch_continuous (boost : bool) (bq : BiQuad R)
  (sample_rate f q : R) :
  (0 < q)%R -> (0 < tan (PI * f / sample_rate))%R ->
  let unit_at g := PEQ.parametric_coefficients boost bq sample_rate f g q in
  continuity_pt (fun g => a0 (unit_at g)) 0 /\
  continuity_pt (fun g => a1 (unit_at g)) 0 /\
  continuity_pt (fun g => a2 (unit_at g)) 0 /\
  continuity_pt (fun g => b1 (unit_at g)) 0 /\
  continuity_pt (fun g => b2 (unit_at g)) 0.
Proof.
  intros Hq HK unit_at. subst unit_at.
  destruct boost; unfold PEQ.parametric_coefficients; cbn; unfold Rpower;
    repeat split; reg; gain_denominator Hq HK.
Qed.

(** In exact arithmetic and below Nyquist the two one-sided limits are
    the common value at gain zero: the coefficients the design computes at
    gain [g], by the cut formulas for [g < 0] and the boost formulas for
    [g >= 0], come within any [eps] of it as [g] approaches zero. *)
Lemma parametric_gain_limit_exact (bq : BiQuad R) (sample_rate f q : R) :
  (0 < q)%R -> (0 < f)%R -> (f < sample_rate / 2)%R ->
  forall eps : R, (0 < eps)%R ->
  exists delta : R, (0 < delta)%R /\
    forall g : R, (Rabs g < delta)%R ->
    exists u,
      PEQ.calculate_parametric_coefficients (Some bq) sample_rate f g q =
        Some u /\
      coefficients_within eps u
        (PEQ.parametric_coefficients true bq sample_rate f 0%R q).
Proof.
  intros Hq Hf Hny eps Heps.
  assert (Hagree :
    PEQ.parametric_coefficients true bq sample_rate f 0%R q =
    PEQ.parametric_coefficients false bq sample_rate f 0%R q).
  { change 0%R with (dlit (F := R) 0).
    apply parametric_branches_agree_at_zero.
    - exact Rpower_10_0.
    - exact (Rmult_1_l q). }
  pose proof (tan_below_nyquist sample_rate f Hf Hny) as HK.
  destruct (parametric_branch_continuous true bq sample_rate f q Hq HK)
    as (Ba0 & Ba1 & Ba2 & Bb1 & Bb2).
  destruct (parametric_branch_continuous false bq sample_rate f q Hq HK)
    as (Ca0 & Ca1 & Ca2 & Cb1 & Cb2).
  destruct (continuity_at_zero _ Ba0 eps Heps) as (d1 & Hd1 & L1).
  destruct (continuity_at_zero _ Ba1 eps Heps) as (d2 & Hd2 & L2).
  destruct (continuity_at_zero _ Ba2 eps Heps) as (d3 & Hd3 & L3).
  destruct (continuity_at_zero _ Bb1 eps Heps) as (d4 & Hd4 & L4).
  destruct (continuity_at_zero _ Bb2 eps Heps) as (d5 & Hd5 & L5).
  destruct (continuity_at_zero _ Ca0 eps Heps) as (e1 & He1 & M1).
  destruct (continuity_at_zero _ Ca1 eps Heps) as (e2 & He2 & M2).
  destruct (continuity_at_zero _ Ca2 eps Heps) as (e3 & He3 & M3).
  destruct (continuity_at_zero _ Cb1 eps Heps) as (e4 & He4 & M4).
  destruct (continuity_at_zero _ Cb2 eps Heps) as (e5 & He5 & M5).
  set (db := Rmin d1 (Rmin d2 (Rmin d3 (Rmin d4 d5)))).
  set (dc := Rmin e1 (Rmin e2 (Rmin e3 (Rmin e4 e5)))).
  assert (Hdb : (db <= d1 /\ db <= d2 /\ db <= d3 /\ db <= d4 /\ db <= d5)%R).
  { subst db. repeat split;
      repeat (apply Rle_refl || apply Rmin_l ||
              (eapply Rle_trans; [apply Rmin_r|])). }
  assert (Hdc : (dc <= e1 /\ dc <= e2 /\ dc <= e3 /\ dc <= e4 /\ dc <= e5)%R).
  { subst dc. repeat split;
      repeat (apply Rle_refl || apply Rmin_l ||
              (eapply Rle_trans; [apply Rmin_r|])). }
  assert (Hdbpos : (0 < db)%R)
    by (subst db; repeat apply Rmin_glb_lt; assumption).
  assert (Hdcpos : (0 < dc)%R)
    by (subst dc; repeat apply Rmin_glb_lt; assumption).
  exists (Rmin db dc). split; [apply Rmin_glb_lt; assumption|].
  intros g Hg.
  assert (Hgb : (Rabs g < db)%R)
    by (eapply Rlt_le_trans; [exact Hg | apply Rmin_l]).
  assert (Hgc : (Rabs g < dc)%R)
    by (eapply Rlt_le_trans; [exact Hg | apply Rmin_r]).
  eexists. split; [reflexivity|].
  change (dle (dlit 0) g) with (Rleb 0 g).
  destruct (Rle_dec 0 g) as [Hpos|Hneg].
  - rewrite (Rleb_true _ _ Hpos). unfold coefficients_within.
    repeat split;
      [apply L1 | apply L2 | apply L3 | apply L4 | apply L5]; lra.
  - rewrite (Rleb_false 0 g) by lra. unfold coefficients_within.
    rewrite Hagree.
    repeat split;
      [apply M1 | apply M2 | apply M3 | apply M4 | apply M5]; lra.
Qed.



(* ================================================================= *)
(** ** The channel dispatcher *)

Lemma even_of_nat (n : nat) : Z.even (Z.of_nat n) = Nat.even n.
Proof.
  destruct (Nat.even n) eqn:En.
  - apply Nat.even_spec in En. destruct En as [k ->].
    apply Z.even_spec. exists (Z.of_nat k). lia.
  - destruct (Z.even (Z.of_nat n)) eqn:Ez; [|reflexivity].
    apply Z.even_spec in Ez. destruct Ez as [m Hm].
    assert (Ho : Nat.odd n = true)
      by (rewrite <- Nat.negb_even, En; reflexivity).
    apply Nat.odd_spec in Ho. destruct Ho as [k ->]. lia.
Qed.

(** For a channel count that is positive (and an [int]), the conversions
    around [i % buffer->channels] lose nothing: the lane test of the
    source is the parity of [i mod N]. *)
Lemma lane_test (channels : Z) (i : nat) :
  (0 < channels < 2 ^ 31)%Z ->
  (to_size_t channels =? 0)%Z = false /\
  (Z.rem (to_int (Z.of_nat i mod to_size_t channels)) 2 =? 0)%Z =
  lane0 (Z.to_nat channels) i.
Proof.
  intros Hc.
  assert (Hs : to_size_t channels = channels)
    by (unfold to_size_t; apply Z.mod_small; lia).
  rewrite Hs. split; [apply Z.eqb_neq; lia|].
  assert (Hr : (0 <= Z.of_nat i mod channels < channels)%Z)
    by (apply Z.mod_pos_bound; lia).
  assert (Hi : to_int (Z.of_nat i mod channels) = (Z.of_nat i mod channels)%Z).
  { unfold to_int. rewrite Z.mod_small; lia. }
  rewrite Hi, Z.rem_mod_nonneg by lia.
  rewrite <- Zeven_mod.
  unfold lane0, channel_of.
  rewrite <- even_of_nat, Nat2Z.inj_mod, Z2Nat.id by lia.
  reflexivity.
Qed.

Section DispatchFacts.
Context {F : Type} {ops : DoubleOps F}.
Local Open Scope double_scope.

Lemma load_middle (pre : list F) (x : F) (post : list F) :
  load (pre ++ x :: post) (List.length pre) = Some x.
Proof. induction pre; simpl; auto. Qed.

Lemma store_middle (pre : list F) (x : F) (post : list F) (v : F) :
  store (pre ++ x :: post) (List.length pre) v = pre ++ v :: post.
Proof. induction pre; simpl; [|rewrite IHpre]; reflexivity. Qed.

Lemma filter_sample_middle (bq : BiQuad F) (pre : list F) (x : F)
  (post : list F) :
  filter_sample bq (pre ++ x :: post) (List.length pre) =
  Some (let (bq', y) := process_mix bq x in (bq', pre ++ y :: post)).
Proof.
  unfold filter_sample, process_mix. rewrite load_middle.
  destruct (biquad_process_unit bq x). rewrite store_middle. reflexivity.
Qed.

(** A loop of step one whose body rewrites cell [i] from cell [i] and a
    state is a left-to-right pass, and [fuel] as large as the number of
    samples is enough for it. *)
Lemma for_loop_sweep {S : Type} (g : nat -> S -> F -> S * F)
  (body : nat -> S * list F -> option (S * list F)) :
  (forall s pre x post,
     body (List.length pre) (s, pre ++ x :: post) =
     Some (let (s', y) := g (List.length pre) s x in (s', pre ++ y :: post))) ->
  forall xs pre post s fuel,
    (List.length xs <= fuel)%nat ->
    for_loop fuel (List.length pre) (List.length pre + List.length xs) 1 body
             (s, pre ++ xs ++ post) =
    Some (let (s', ys) := sweep g (List.length pre) s xs in
          (s', pre ++ ys ++ post)).
Proof.
  intros Hbody. induction xs as [|x xs IH]; intros pre post s fuel Hfuel.
  - simpl. rewrite Nat.add_0_r.
    destruct fuel; simpl; rewrite Nat.ltb_irrefl; reflexivity.
  - destruct fuel as [|fuel]; [simpl in Hfuel; lia|].
    simpl in Hfuel. cbn [for_loop].
    replace (List.length pre <? List.length pre + List.length (x :: xs))%nat
      with true by (symmetry; apply Nat.ltb_lt; simpl; lia).
    cbn [app]. rewrite Hbody. cbn [sweep].
    destruct (g (List.length pre) s x) as [s' y].
    replace (pre ++ y :: xs ++ post) with ((pre ++ [y]) ++ xs ++ post)
      by (rewrite <- app_assoc; reflexivity).
    replace (List.length pre + 1)%nat with (List.length (pre ++ [y]))
      by (rewrite length_app; reflexivity).
    replace (List.length pre + List.length (x :: xs))%nat
      with (List.length (pre ++ [y]) + List.length xs)%nat
      by (rewrite length_app; simpl; lia).
    rewrite IH by lia.
    replace (List.length (pre ++ [y])) with (Datatypes.S (List.length pre))
      by (rewrite length_app; simpl; lia).
    destruct (sweep g (Datatypes.S (List.length pre)) s' xs) as [s'' ys].
    rewrite <- app_assoc. reflexivity.
Qed.

Lemma multi_body_route (channels : Z) (s : BiQuad F * BiQuad F)
  (pre : list F) (x : F) (post : list F) :
  (0 < channels < 2 ^ 31)%Z ->
  multi_body channels (List.length pre) (s, pre ++ x :: post) =
  Some (let (s', y) := route_sample (Z.to_nat channels) (List.length pre) s x in
        (s', pre ++ y :: post)).
Proof.
  intros Hc. destruct s as [lft rgt]. unfold multi_body, route_sample.
  destruct (lane_test channels (List.length pre) Hc) as [-> ->].
  destruct (lane0 (Z.to_nat channels) (List.length pre));
    rewrite filter_sample_middle;
    [destruct (process_mix lft x) | destruct (process_mix rgt x)];
    reflexivity.
Qed.

(** The multi-channel loop on a buffer that holds its [length] samples. *)
Lemma multi_loop_route (channels : Z) (lft rgt : BiQuad F) (d : list F)
  (length : nat) :
  (0 < channels < 2 ^ 31)%Z ->
  (length <= List.length d)%nat ->
  multi_loop lft rgt d length channels =
  Some (let '(lft', rgt', ys) :=
          route (Z.to_nat channels) lft rgt (firstn length d) in
        (lft', rgt', ys ++ skipn length d)).
Proof.
  intros Hc Hlen. unfold multi_loop, route.
  pose proof (for_loop_sweep (route_sample (Z.to_nat channels))
                (multi_body channels)
                (fun s pre x post => multi_body_route channels s pre x post Hc)
                (firstn length d) [] (skipn length d) (lft, rgt) length) as HL.
  rewrite length_firstn, Nat.min_l in HL by assumption.
  simpl in HL. rewrite firstn_skipn in HL.
  rewrite HL by lia.
  destruct (sweep (route_sample (Z.to_nat channels)) 0 (lft, rgt)
                  (firstn length d)) as [[lft' rgt'] ys].
  reflexivity.
Qed.

Lemma for_loop_done {S : Type} (fuel i n step : nat)
  (body : nat -> S -> option S) (s : S) :
  (n <= i)%nat -> for_loop fuel i n step body s = Some s.
Proof.
  intros Hi. destruct fuel; simpl;
    replace (i <? n)%nat with false by (symmetry; apply Nat.ltb_ge; lia);
    reflexivity.
Qed.

Lemma for_loop_step {S : Type} (fuel i n step : nat)
  (body : nat -> S -> option S) (s : S) :
  (i < n)%nat ->
  for_loop (Datatypes.S fuel) i n step body s =
  match body i s with
  | None => None
  | Some s' => for_loop fuel (i + step) n step body s'
  end.
Proof.
  intros Hi. cbn [for_loop].
  replace (i <? n)%nat with true by (symmetry; apply Nat.ltb_lt; lia).
  reflexivity.
Qed.

Lemma list_pair_ind (P : list F -> Prop) :
  P [] -> (forall x, P [x]) -> (forall x y l, P l -> P (x :: y :: l)) ->
  forall l, P l.
Proof.
  intros H0 H1 H2 l.
  assert (P l /\ forall x, P (x :: l)) as [Hl _]; [|exact Hl].
  induction l as [|y l [IHl IHc]]; split; auto.
Qed.

Lemma lane0_stereo (i : nat) : lane0 2 i = Nat.even i.
Proof.
  unfold lane0, channel_of.
  rewrite (Nat.div_mod_eq i 2) at 2.
  rewrite Nat.add_comm, Nat.even_add_mul_2. reflexivity.
Qed.

(** The stereo loop, started at an even index, is the pass that sends even
    indices to lane 0 and odd indices to lane 1; a last sample without a
    partner is one more sample of lane 0. *)
Lemma stereo_loop_sweep (xs : list F) :
  forall pre post lft rgt fuel n,
    Nat.even (List.length pre) = true ->
    (List.length xs <= fuel)%nat ->
    n = (List.length pre + List.length xs)%nat ->
    for_loop fuel (List.length pre) n 2 (stereo_body n)
             (lft, rgt, pre ++ xs ++ post) =
    Some (let '(lft', rgt', ys) :=
            sweep (route_sample 2) (List.length pre) (lft, rgt) xs in
          (lft', rgt', pre ++ ys ++ post)).
Proof.
  induction xs as [|x|x y xs IH] using list_pair_ind;
    intros pre post lft rgt fuel n Hev Hfuel ->.
  - rewrite for_loop_done by (simpl; lia). reflexivity.
  - destruct fuel as [|fuel]; [simpl in Hfuel; lia|].
    rewrite for_loop_step by (simpl; lia).
    unfold stereo_body. cbn [app].
    rewrite filter_sample_middle.
    cbn [sweep]. unfold route_sample. rewrite lane0_stereo, Hev.
    destruct (process_mix lft x) as [lft' x'].
    replace (List.length pre + 1 <? List.length pre + List.length [x])%nat
      with false by (symmetry; apply Nat.ltb_ge; simpl; lia).
    rewrite for_loop_done by (simpl; lia). reflexivity.
  - destruct fuel as [|fuel]; [simpl in Hfuel; lia|].
    rewrite for_loop_step by (simpl; lia).
    unfold stereo_body at 1. cbn [app].
    rewrite filter_sample_middle.
    cbn [sweep]. unfold route_sample at 1. rewrite lane0_stereo, Hev.
    destruct (process_mix lft x) as [lft' x'].
    replace (List.length pre + 1 <?
             List.length pre + List.length (x :: y :: xs))%nat
      with true by (symmetry; apply Nat.ltb_lt; simpl; lia).
    replace (pre ++ x' :: y :: xs ++ post)
      with ((pre ++ [x']) ++ y :: xs ++ post)
      by (rewrite <- app_assoc; reflexivity).
    replace (List.length pre + 1)%nat with (List.length (pre ++ [x']))
      by (rewrite length_app; reflexivity).
    rewrite filter_sample_middle.
    unfold route_sample at 1. rewrite lane0_stereo, Nat.even_succ.
    rewrite <- Nat.negb_even, Hev. cbn [negb].
    destruct (process_mix rgt y) as [rgt' y'].
    replace ((pre ++ [x']) ++ y' :: xs ++ post)
      with ((pre ++ [x'; y']) ++ xs ++ post)
      by (rewrite <- !app_assoc; reflexivity).
    replace (List.length pre + 2)%nat with (List.length (pre ++ [x'; y']))
      by (rewrite length_app; reflexivity).
    rewrite (IH (pre ++ [x'; y']) post lft' rgt' fuel).
    + replace (List.length (pre ++ [x'; y']))
        with (Datatypes.S (Datatypes.S (List.length pre)))
        by (rewrite length_app; simpl; lia).
      destruct (sweep (route_sample 2)
                  (Datatypes.S (Datatypes.S (List.length pre)))
                  (lft', rgt') xs) as [[lft'' rgt''] ys].
      rewrite <- app_assoc. reflexivity.
    + rewrite length_app, Nat.even_add, Hev. reflexivity.
    + simpl in Hfuel. lia.
    + rewrite length_app. simpl. lia.
Qed.

(** The stereo loop on a buffer that holds its [length] samples. *)
Lemma stereo_loop_route (lft rgt : BiQuad F) (d : list F) (length : nat) :
  (length <= List.length d)%nat ->
  stereo_loop lft rgt d length =
  Some (let '(lft', rgt', ys) := route 2 lft rgt (firstn length d) in
        (lft', rgt', ys ++ skipn length d)).
Proof.
  intros Hlen. unfold stereo_loop, route.
  pose proof (stereo_loop_sweep (firstn length d) [] (skipn length d)
                lft rgt length length) as HL.
  rewrite length_firstn, Nat.min_l in HL by assumption.
  simpl in HL. rewrite firstn_skipn in HL.
  rewrite HL by (reflexivity || lia).
  destruct (sweep (route_sample 2) 0 (lft, rgt) (firstn length d))
    as [[lft' rgt'] ys].
  reflexivity.
Qed.

Lemma sweep_snoc {S : Type} (g : nat -> S -> F -> S * F) (xs : list F) :
  forall i s x,
    sweep g i s (xs ++ [x]) =
    let (s', ys) := sweep g i s xs in
    let (s'', y) := g (i + List.length xs)%nat s' x in
    (s'', ys ++ [y]).
Proof.
  induction xs as [|x0 xs IH]; intros i s x; cbn [sweep app List.length].
  - rewrite Nat.add_0_r. destruct (g i s x). reflexivity.
  - destruct (g i s x0) as [s0 y0]. rewrite IH.
    destruct (sweep g (Datatypes.S i) s0 xs) as [s1 ys].
    replace (Datatypes.S i + List.length xs)%nat
      with (i + Datatypes.S (List.length xs))%nat by lia.
    destruct (g (i + Datatypes.S (List.length xs))%nat s1 x). reflexivity.
Qed.

(** Lane 0 ends in the state it reaches on the samples of the even
    channels alone, in buffer order, and lane 1 likewise on those of the
    odd channels: the channels of one parity share one running state. *)
Lemma route_lanes (N : nat) (xs : list F) :
  forall i lft rgt,
    let '(lft', rgt', _) := sweep (route_sample N) i (lft, rgt) xs in
    lft' = fst (lane_run lft (lane_samples N true i xs)) /\
    rgt' = fst (lane_run rgt (lane_samples N false i xs)).
Proof.
  induction xs as [|x xs IH]; intros i lft rgt; cbn [sweep lane_samples].
  - simpl. auto.
  - unfold route_sample at 1.
    destruct (lane0 N i); cbn [Bool.eqb].
    + destruct (process_mix lft x) as [lft1 y] eqn:Ex.
      specialize (IH (Datatypes.S i) lft1 rgt).
      destruct (sweep (route_sample N) (Datatypes.S i) (lft1, rgt) xs)
        as [[lft' rgt'] ys].
      cbn [lane_run]. rewrite Ex.
      destruct (lane_run lft1 (lane_samples N true (Datatypes.S i) xs)).
      exact IH.
    + destruct (process_mix rgt x) as [rgt1 y] eqn:Ex.
      specialize (IH (Datatypes.S i) lft rgt1).
      destruct (sweep (route_sample N) (Datatypes.S i) (lft, rgt1) xs)
        as [[lft' rgt'] ys].
      cbn [lane_run]. rewrite Ex.
      destruct (lane_run rgt1 (lane_samples N false (Datatypes.S i) xs)).
      exact IH.
Qed.

End DispatchFacts.

Lemma firstn_exact {A : Type} (l r : list A) :
  firstn (List.length l) (l ++ r) = l.
Proof. induction l; simpl; [|rewrite IHl]; reflexivity. Qed.

Lemma skipn_exact {A : Type} (l r : list A) :
  skipn (List.length l) (l ++ r) = r.
Proof. induction l; simpl; auto. Qed.

(** Entering [*_process_buffer] with an instance, a buffer and its samples:
    the three sources take the same steps. *)
Ltac enter_process_buffer Hdata :=
  unfold HPF.hpf_process_buffer, LPF.lpf_process_buffer,
    PEQ.parametric_process_buffer;
  rewrite Hdata.

Section BufferFacts.
Context {F : Type} {ops : DoubleOps F}.

(** What a two-channel buffer of odd length comes to: the pass over all but
    the last sample, then the last sample on lane 0. *)
Lemma stereo_loop_odd (lft rgt : BiQuad F) (xs : list F) (x : F)
  (post : list F) :
  Nat.even (List.length xs) = true ->
  stereo_loop lft rgt (xs ++ x :: post) (Datatypes.S (List.length xs)) =
  Some (let '(lft1, rgt1, ys) := route 2 lft rgt xs in
        let (lft2, y) := process_mix lft1 x in
        (lft2, rgt1, ys ++ y :: post)).
Proof.
  intros Hev.
  replace (xs ++ x :: post) with ((xs ++ [x]) ++ post)
    by (rewrite <- app_assoc; reflexivity).
  replace (Datatypes.S (List.length xs)) with (List.length (xs ++ [x]))
    by (rewrite length_app; simpl; lia).
  rewrite stereo_loop_route by (rewrite !length_app; lia).
  rewrite firstn_exact, skipn_exact.
  unfold route. rewrite sweep_snoc.
  destruct (sweep (route_sample 2) 0 (lft, rgt) xs) as [[lft1 rgt1] ys].
  unfold route_sample. rewrite lane0_stereo. simpl (0 + _)%nat. rewrite Hev.
  destruct (process_mix lft1 x) as [lft2 y].
  rewrite <- app_assoc. reflexivity.
Qed.

(** C2, as the code has it.  On a two-channel buffer of odd length [L]
    every sample is processed, the last one included: the samples before
    it go through lane 0 at even indices and lane 1 at odd indices, and the
    last one, at the even index [L-1], is one more sample of lane 0,
    replaced like the others by [process(input)*c0 + input*d0].  Only its
    absent partner at index [L] is skipped; lane 1 is as the earlier
    samples left it. *)
Theorem stereo_odd_length_last_sample
  (hpf : HPF.HPFFilter F) (lpf : LPF.LPFFilter F)
  (peq : PEQ.ParametricFilter F)
  (b : AudioBuffer F) (xs : list F) (x : F) (post : list F) :
  data b = Some (xs ++ x :: post) ->
  channels b = 2%Z ->
  length b = Datatypes.S (List.length xs) ->
  Nat.even (List.length xs) = true ->
  (let '(lft, rgt, ys) := route 2 (HPF.left hpf) (HPF.right hpf) xs in
   let (lft', y) := process_mix lft x in
   HPF.hpf_process_buffer (Some hpf) (Some b) =
   Some (Some (HPF.mkHPFFilter lft' rgt (HPF.frequency hpf)),
         Some (set_data b (Some (ys ++ y :: post)))))
  /\
  (let '(lft, rgt, ys) := route 2 (LPF.left lpf) (LPF.right lpf) xs in
   let (lft', y) := process_mix lft x in
   LPF.lpf_process_buffer (Some lpf) (Some b) =
   Some (Some (LPF.mkLPFFilter lft' rgt (LPF.frequency lpf)),
         Some (set_data b (Some (ys ++ y :: post)))))
  /\
  (let '(lft, rgt, ys) := route 2 (PEQ.left peq) (PEQ.right peq) xs in
   let (lft', y) := process_mix lft x in
   PEQ.parametric_process_buffer (Some peq) (Some b) =
   Some (Some (PEQ.mkParametricFilter lft' rgt (PEQ.frequency peq)
                 (PEQ.gain peq) (PEQ.q peq)),
         Some (set_data b (Some (ys ++ y :: post))))).
Proof.
  intros Hdata Hch Hlen Hev.
  repeat split; enter_process_buffer Hdata; rewrite Hch, Hlen;
    cbn [Z.eqb Pos.eqb];
    rewrite (stereo_loop_odd _ _ xs x post Hev);
    match goal with
    | |- context [route 2 ?l ?r xs] =>
        destruct (route 2 l r xs) as [[lft rgt] ys]
    end;
    destruct (process_mix lft x) as [lft' y]; reflexivity.
Qed.

(** C6.  On a buffer of [N > 2] channels that holds its [length] samples,
    the sample at index [i] belongs to channel [i mod N], goes through
    lane 0 when that channel is even and lane 1 when it is odd, and is
    replaced by [process(input)*c0 + input*d0]; so lane 0 ends in the state
    it reaches on the samples of channels 0, 2, 4, ... taken together in
    buffer order, and lane 1 on those of channels 1, 3, 5, ... *)
Theorem multi_channel_routing
  (hpf : HPF.HPFFilter F) (lpf : LPF.LPFFilter F)
  (peq : PEQ.ParametricFilter F)
  (b : AudioBuffer F) (d : list F) :
  data b = Some d ->
  (2 < channels b < 2 ^ 31)%Z ->
  (length b <= List.length d)%nat ->
  let N := Z.to_nat (channels b) in
  let xs := firstn (length b) d in
  (let '(lft, rgt, ys) := route N (HPF.left hpf) (HPF.right hpf) xs in
   HPF.hpf_process_buffer (Some hpf) (Some b) =
   Some (Some (HPF.mkHPFFilter lft rgt (HPF.frequency hpf)),
         Some (set_data b (Some (ys ++ skipn (length b) d)))) /\
   lft = fst (lane_run (HPF.left hpf) (lane_samples N true 0 xs)) /\
   rgt = fst (lane_run (HPF.right hpf) (lane_samples N false 0 xs)))
  /\
  (let '(lft, rgt, ys) := route N (LPF.left lpf) (LPF.right lpf) xs in
   LPF.lpf_process_buffer (Some lpf) (Some b) =
   Some (Some (LPF.mkLPFFilter lft rgt (LPF.frequency lpf)),
         Some (set_data b (Some (ys ++ skipn (length b) d)))) /\
   lft = fst (lane_run (LPF.left lpf) (lane_samples N true 0 xs)) /\
   rgt = fst (lane_run (LPF.right lpf) (lane_samples N false 0 xs)))
  /\
  (let '(lft, rgt, ys) := route N (PEQ.left peq) (PEQ.right peq) xs in
   PEQ.parametric_process_buffer (Some peq) (Some b) =
   Some (Some (PEQ.mkParametricFilter lft rgt (PEQ.frequency peq)
                 (PEQ.gain peq) (PEQ.q peq)),
         Some (set_data b (Some (ys ++ skipn (length b) d)))) /\
   lft = fst (lane_run (PEQ.left peq) (lane_samples N true 0 xs)) /\
   rgt = fst (lane_run (PEQ.right peq) (lane_samples N false 0 xs))).
Proof.
  intros Hdata Hch Hlen N xs.
  assert (H1 : (channels b =? 1)%Z = false) by (apply Z.eqb_neq; lia).
  assert (H2 : (channels b =? 2)%Z = false) by (apply Z.eqb_neq; lia).
  assert (Hc : (0 < channels b < 2 ^ 31)%Z) by lia.
  repeat apply conj;
    match goal with
    | |- context [route N ?l ?r xs] =>
        pose proof (route_lanes N xs 0%nat l r) as HL;
        pose proof (multi_loop_route (channels b) l r d (length b) Hc Hlen)
          as HM;
        fold N in HM; fold xs in HM; unfold route in *;
        destruct (sweep (route_sample N) 0 (l, r) xs) as [[lft rgt] ys]
    end;
    (split; [|exact HL]);
    enter_process_buffer Hdata; rewrite H1, H2, HM; reflexivity.
Qed.

(** C9.  The three [*_process_buffer] return at once, leaving the instance
    and the buffer as they are, on a null instance, a null buffer and a
    buffer whose [data] is null; and on a buffer of length zero no loop
    body runs, so samples, coefficients and delays of both lanes are as
    before. *)
Theorem process_buffer_noop :
  noop_on_absent_input (F := F) HPF.hpf_process_buffer /\
  noop_on_absent_input (F := F) LPF.lpf_process_buffer /\
  noop_on_absent_input (F := F) PEQ.parametric_process_buffer.
Proof.
  unfold noop_on_absent_input.
  repeat apply conj.
  (* null instance; null buffer *)
  all: try (intros [x|]; reflexivity).
  (* data == NULL *)
  all: try (intros [h|] len sr ch bd; reflexivity).
  (* length == 0: none of the three loops enters its body *)
  all: intros [h|] [d|] sr ch bd; try reflexivity;
    unfold HPF.hpf_process_buffer, LPF.lpf_process_buffer,
      PEQ.parametric_process_buffer,
      HPF.hpf_process_channel, LPF.lpf_process_channel,
      PEQ.parametric_process_channel,
      channel_loop, stereo_loop, multi_loop;
    cbn;
    destruct (ch =? 1)%Z; [destruct h; reflexivity|];
    destruct (ch =? 2)%Z; destruct h; reflexivity.
Qed.

End BufferFacts.

(** C2 at the three samples [1, 2, 3] and doubling units: the dangling
    third sample is doubled with the rest, by lane 0. *)
Lemma stereo_odd_length_last_sample_witness :
  HPF.hpf_process_buffer (Some doubling_hpf) (Some odd_stereo_buffer) =
  Some (Some (HPF.mkHPFFilter (mkBiQuad 2 0 0 0 0 1 0 3 1 6 2)
                              (mkBiQuad 2 0 0 0 0 1 0 2 0 4 0) 100),
        Some (mkAudioBuffer (Some [2; 4; 6]) 3 44100 2 16))%float
  /\
  LPF.lpf_process_buffer (Some doubling_lpf) (Some odd_stereo_buffer) =
  Some (Some (LPF.mkLPFFilter (mkBiQuad 2 0 0 0 0 1 0 3 1 6 2)
                              (mkBiQuad 2 0 0 0 0 1 0 2 0 4 0) 100),
        Some (mkAudioBuffer (Some [2; 4; 6]) 3 44100 2 16))%float
  /\
  PEQ.parametric_process_buffer (Some doubling_peq) (Some odd_stereo_buffer) =
  Some (Some (PEQ.mkParametricFilter (mkBiQuad 2 0 0 0 0 1 0 3 1 6 2)
                                     (mkBiQuad 2 0 0 0 0 1 0 2 0 4 0)
                                     100 0 1),
        Some (mkAudioBuffer (Some [2; 4; 6]) 3 44100 2 16))%float.
Proof.
  refine (stereo_odd_length_last_sample doubling_hpf doubling_lpf doubling_peq
            odd_stereo_buffer [1; 2]%float 3%float [] _ _ _ _); reflexivity.
Defined.

(** C2 as first stated fails on that buffer: the sample at index 2 does
    not keep its value [3.0], and lane 0 has it as its most recent
    input. *)
Lemma stereo_dangling_sample_is_processed :
  exists hpf' d',
    HPF.hpf_process_buffer (Some doubling_hpf) (Some odd_stereo_buffer) =
    Some (Some hpf', Some (set_data odd_stereo_buffer (Some d'))) /\
    channels odd_stereo_buffer = 2%Z /\
    Nat.odd (length odd_stereo_buffer) = true /\
    data odd_stereo_buffer = Some [1; 2; 3]%float /\
    nth_error d' 2 = Some 6%float /\
    PrimFloat.eqb 6 3 = false /\
    delays (HPF.left hpf') = (3, 1, 6, 2)%float /\
    delays (HPF.left doubling_hpf) = (0, 0, 0, 0)%float.
Proof.
  eexists. eexists. split; [vm_compute; reflexivity|].
  repeat split; reflexivity.
Qed.

(** C6 at two frames of three channels and doubling units: channels 0
    and 2 on lane 0, channel 1 on lane 1. *)
Lemma multi_channel_routing_witness :
  (HPF.hpf_process_buffer (Some doubling_hpf) (Some three_channel_buffer) =
   Some (Some (HPF.mkHPFFilter (mkBiQuad 2 0 0 0 0 1 0 6 4 12 8)
                               (mkBiQuad 2 0 0 0 0 1 0 5 2 10 4) 100),
         Some (mkAudioBuffer (Some [2; 4; 6; 8; 10; 12]) 6 44100 3 16)) /\
   mkBiQuad 2 0 0 0 0 1 0 6 4 12 8 =
     fst (lane_run doubling_unit [1; 3; 4; 6]) /\
   mkBiQuad 2 0 0 0 0 1 0 5 2 10 4 =
     fst (lane_run doubling_unit [2; 5]))%float.
Proof.
  destruct (multi_channel_routing doubling_hpf doubling_lpf doubling_peq
              three_channel_buffer [1; 2; 3; 4; 5; 6]%float)
    as [Hhpf _].
  - reflexivity.
  - simpl. lia.
  - simpl. lia.
  - exact Hhpf.
Defined.

(* ================================================================= *)
(** ** The JIT backend against the scalar reference *)

Section JitFacts.
Context {F : Type} {ops : DoubleOps F}.
Local Open Scope double_scope.

(** One call of [mlir_biquad_process] on a compiled context: the kernel
    evaluates the expression of [biquad_process], the value returned has
    gone through the underflow checks, and [yz1] has not. *)
Lemma mlir_biquad_process_step (bq : BiQuad F) (x : F) :
  let yn0 := a0 bq * x + a1 bq * xz1 bq + a2 bq * xz2 bq
             - b1 bq * yz1 bq - b2 bq * yz2 bq in
  MLIR.mlir_biquad_process (MLIR.mlir_biquad_jit_create (Some bq))
                           (Some bq) x =
  (Some (mkBiQuad (a0 bq) (a1 bq) (a2 bq) (b1 bq) (b2 bq) (c0 bq) (d0 bq)
                  x (xz1 bq) yn0 (yz1 bq)),
   underflow_check yn0).
Proof. reflexivity. Qed.

Lemma biquad_process_step (bq : BiQuad F) (x : F) :
  let yn0 := a0 bq * x + a1 bq * xz1 bq + a2 bq * xz2 bq
             - b1 bq * yz1 bq - b2 bq * yz2 bq in
  biquad_process (Some bq) x =
  (Some (mkBiQuad (a0 bq) (a1 bq) (a2 bq) (b1 bq) (b2 bq) (c0 bq) (d0 bq)
                  x (xz1 bq) (underflow_check yn0) (yz1 bq)),
   underflow_check yn0).
Proof. reflexivity. Qed.

(** As long as no underflow check fires, the per-sample JIT path and the
    scalar reference return the same values and leave the same unit. *)
Lemma jit_matches_scalar_without_underflow (xs : list F) :
  forall bq0 bq : BiQuad F,
    never_underflows bq xs ->
    mlir_biquad_run (MLIR.mlir_biquad_jit_create (Some bq0)) (Some bq) xs =
    biquad_run (Some bq) xs.
Proof.
  induction xs as [|x xs IH]; intros bq0 bq Hn; [reflexivity|].
  destruct Hn as [Hx Hn]. cbn [never_underflows] in Hn.
  cbn [mlir_biquad_run biquad_run biquad_process].
  assert (Hstep :
    MLIR.mlir_biquad_process (MLIR.mlir_biquad_jit_create (Some bq0))
      (Some bq) x =
    (Some (fst (biquad_process_unit bq x)), snd (biquad_process_unit bq x))).
  { change (MLIR.mlir_biquad_jit_create (Some bq0))
      with (MLIR.mlir_biquad_jit_create (Some bq)).
    pose proof (mlir_biquad_process_step bq x) as HJ. cbv zeta in HJ.
    rewrite HJ. unfold biquad_process_unit. cbn [fst snd].
    fold (recurrence bq x). rewrite Hx. reflexivity. }
  rewrite Hstep.
  destruct (biquad_process_unit bq x) as [bq1 y]. cbn [fst snd] in *.
  rewrite (IH bq0 bq1 Hn). reflexivity.
Qed.

End JitFacts.

(** C8 fails on the unit [y(n) = x(n) + 1e30*y(n-1)] and the inputs
    [1e-39, 0.0].  The scalar reference returns [0.0, 0.0] and ends with
    [yz1 = 0.0]; the JIT per-sample path returns [0.0, 1e-9] and the JIT
    buffer path writes [1e-39, 1e-9], both ending with [yz1 = 1e-9]: the
    first [yn = 1e-39] is kept in [yz1] without the underflow check and
    the feedback multiplies it by [1e30].  Second outputs and final [yz1]
    differ by more than [1e-10]. *)
Theorem jit_diverges_from_scalar :
  let jit := MLIR.mlir_biquad_jit_create (Some amplifying_unit) in
  let scalar_end := (mkBiQuad 1 0 0 (-1e30) 0 1 0 0 1e-39 0 0)%float in
  let jit_end :=
    (mkBiQuad 1 0 0 (-1e30) 0 1 0 0 1e-39 9.9999999999999986e-10 1e-39)%float
  in
  (biquad_run (Some amplifying_unit) tiny_then_zero =
     (Some scalar_end, [0; 0]) /\
   mlir_biquad_run jit (Some amplifying_unit) tiny_then_zero =
     (Some jit_end, [0; 9.9999999999999986e-10]) /\
   MLIR.mlir_biquad_process_buffer jit (Some amplifying_unit)
     (Some tiny_then_zero) (Some [0; 0]) 2%nat =
     Some (Some jit_end, Some [1e-39; 9.9999999999999986e-10]) /\
   assert_double_eq 0 9.9999999999999986e-10 EPSILON = false /\
   assert_double_eq (yz1 scalar_end) (yz1 jit_end) EPSILON = false)%float.
Proof. vm_compute. repeat split; reflexivity. Qed.

(* ================================================================= *)
(** * Further properties of the filter core *)

(** ** The unit *)

Section UnderflowWindow.
Context {F : Type} {ops : DoubleOps F}.
Local Open Scope double_scope.

Lemma underflow_check_leaves_window (yn : F) :
  dlt (dlit 0) (dlit 0) = false ->
  in_underflow_window (underflow_check yn) = false.
Proof.
  intros H00. rewrite underflow_check_or. unfold in_underflow_window.
  destruct ((dlit 0 <? yn) && (yn <? FLT_MIN_PLUS)
            || (FLT_MIN_MINUS <? yn) && (yn <? dlit 0)) eqn:Hw.
  - rewrite H00, andb_false_r. reflexivity.
  - exact Hw.
Qed.

Lemma biquad_process_leaves_window (bq : BiQuad F) (x : F) :
  dlt (dlit 0) (dlit 0) = false ->
  exists u y,
    biquad_process (Some bq) x = (Some u, y) /\
    in_underflow_window y = false /\ yz1 u = y.
Proof.
  intros H00. eexists. eexists. split; [reflexivity|].
  split; [apply underflow_check_leaves_window; exact H00 | reflexivity].
Qed.

End UnderflowWindow.

Lemma Rltb_irrefl (x : R) : Rltb x x = false.
Proof. unfold Rltb. destruct (Rlt_dec x x); [lra|reflexivity]. Qed.

(** X1.  [biquad_process] never returns, and never keeps in [yz1], a
    value strictly between zero and [FLT_MIN_PLUS] or strictly between
    [FLT_MIN_MINUS] and zero: in binary64 and in exact arithmetic, for
    every unit and every input. *)
Theorem biquad_process_avoids_underflow_window :
  (forall (bq : BiQuad float) (x : float),
     exists u y,
       biquad_process (Some bq) x = (Some u, y) /\
       in_underflow_window y = false /\ yz1 u = y)
  /\
  (forall (bq : BiQuad R) (x : R),
     exists u y,
       biquad_process (Some bq) x = (Some u, y) /\
       in_underflow_window y = false /\ yz1 u = y).
Proof.
  split; intros bq x; apply biquad_process_leaves_window.
  - reflexivity.
  - apply Rltb_irrefl.
Qed.

Section ProcessValue.
Context {F : Type} {ops : DoubleOps F}.
Local Open Scope double_scope.

(** A value outside the underflow window passes both checks unchanged. *)
Lemma underflow_check_outside_window (y : F) :
  in_underflow_window y = false -> underflow_check y = y.
Proof.
  intros Hw. rewrite underflow_check_or.
  unfold in_underflow_window in Hw. rewrite Hw. reflexivity.
Qed.

End ProcessValue.

Lemma exact_flt_min_positive : (0 < 1175494351 / 10 ^ 47)%R.
Proof. apply Rdiv_lt_0_compat; [lra | apply pow_lt; lra]. Qed.

Lemma exact_flt_min_below_one : (1175494351 / 10 ^ 47 <= 1)%R.
Proof.
  assert (H10 : (10 ^ 10 = 10000000000)%R) by (simpl; lra).
  apply Rle_trans with (1175494351 / 10 ^ 10)%R; [|rewrite H10; lra].
  unfold Rdiv. apply Rmult_le_compat_l; [lra|].
  apply Rinv_le_contravar; [apply pow_lt; lra|].
  apply Rle_pow; [lra|lia].
Qed.

(** In exact arithmetic a value at least [FLT_MIN_PLUS] in magnitude is
    outside the underflow window. *)
Lemma exact_outside_window (x : R) :
  (1175494351 / 10 ^ 47 <= Rabs x)%R -> in_underflow_window x = false.
Proof.
  intros Hx. pose proof exact_flt_min_positive as Hm.
  change (in_underflow_window x)
    with (Rltb 0 x && Rltb x (1175494351 / 10 ^ 47)
          || Rltb (- (1175494351 / 10 ^ 47)) x && Rltb x 0).
  unfold Rltb.
  set (m := (1175494351 / 10 ^ 47)%R) in *.
  unfold Rabs in Hx. destruct (Rcase_abs x);
    destruct (Rlt_dec 0 x), (Rlt_dec x m), (Rlt_dec (- m) x), (Rlt_dec x 0);
    try reflexivity; exfalso; lra.
Qed.

(** ** The dispatcher, further *)

Section DispatchMore.
Context {F : Type} {ops : DoubleOps F}.
Local Open Scope double_scope.

Lemma sweep_lane_run (xs : list F) :
  forall (i : nat) (bq : BiQuad F),
    sweep (fun _ => process_mix) i bq xs = lane_run bq xs.
Proof.
  induction xs as [|x xs IH]; intros i bq; cbn [sweep lane_run];
    [reflexivity|].
  destruct (process_mix bq x) as [bq' y]. rewrite IH. reflexivity.
Qed.

(** The loop of [*_process_channel] on an array that holds [length]
    samples. *)
Lemma channel_loop_run (filter : BiQuad F) (d : list F) (length : nat) :
  (length <= List.length d)%nat ->
  channel_loop filter d length =
  Some (let (filter', ys) := lane_run filter (firstn length d) in
        (filter', ys ++ skipn length d)).
Proof.
  intros Hlen. unfold channel_loop.
  pose proof (for_loop_sweep (fun _ => process_mix)
                (fun i '(filter, d) => filter_sample filter d i)
                (fun s pre x post => filter_sample_middle s pre x post)
                (firstn length d) [] (skipn length d) filter length) as HL.
  rewrite length_firstn, Nat.min_l in HL by assumption.
  simpl in HL. rewrite firstn_skipn in HL.
  rewrite HL by lia. rewrite sweep_lane_run. reflexivity.
Qed.

Lemma sweep_length {S : Type} (g : nat -> S -> F -> S * F) (xs : list F) :
  forall (i : nat) (s : S),
    List.length (snd (sweep g i s xs)) = List.length xs.
Proof.
  induction xs as [|x xs IH]; intros i s; cbn [sweep]; [reflexivity|].
  destruct (g i s x) as [s' y]. specialize (IH (Datatypes.S i) s').
  destruct (sweep g (Datatypes.S i) s' xs) as [s'' ys].
  cbn [snd List.length] in *. rewrite IH. reflexivity.
Qed.

Lemma lane_run_length (xs : list F) (bq : BiQuad F) :
  List.length (snd (lane_run bq xs)) = List.length xs.
Proof. rewrite <- (sweep_lane_run xs 0 bq). apply sweep_length. Qed.

(** A pass all of whose steps return the value [c], and keep an
    invariant of the state, returns [c] for every sample. *)
Lemma sweep_constant {S : Type} (g : nat -> S -> F -> S * F)
  (P : S -> Prop) (c : F) :
  (forall i s x, P s -> snd (g i s x) = c /\ P (fst (g i s x))) ->
  forall (xs : list F) (i : nat) (s : S),
    P s ->
    snd (sweep g i s xs) = repeat c (List.length xs).
Proof.
  intros Hg. induction xs as [|x xs IH]; intros i s Hs;
    cbn [sweep List.length repeat]; [reflexivity|].
  destruct (Hg i s x Hs) as [Hy Hs'].
  destruct (g i s x) as [s' y]. cbn [fst snd] in *. subst y.
  specialize (IH (Datatypes.S i) s' Hs').
  destruct (sweep g (Datatypes.S i) s' xs) as [s'' ys].
  cbn [snd] in *. rewrite IH. reflexivity.
Qed.

End DispatchMore.

(* ================================================================= *)
(** ** Initialisation and update *)

(** What [parametric_init] builds, whatever the instance held: the same
    designed unit on both lanes, and the three parameters. *)
Lemma parametric_init_builds {F : Type} {ops : DoubleOps F} {libm : Libm F}
  (peq0 : PEQ.ParametricFilter F) (sample_rate f g q : F) :
  PEQ.parametric_init (Some peq0) sample_rate f g q =
  Some (let u := PEQ.parametric_coefficients (dle (dlit 0) g)
                   (PEQ.left peq0) sample_rate f g q in
        PEQ.mkParametricFilter u u f g q).
Proof.
  unfold PEQ.parametric_init, PEQ.calculate_parametric_coefficients,
    PEQ.parametric_coefficients, through.
  cbn. destruct (dle (dlit 0) g); reflexivity.
Qed.

(** X8.  [*_update_coefficients] starts the filter afresh: for the three
    filters, updating an instance with any history leaves exactly what
    [*_init] builds from any instance (the designed unit with zero delays
    on both lanes, and the parameters), because the design functions
    assign every coefficient and flush the delays. *)
Theorem update_coefficients_reinitialises
  {F : Type} {ops : DoubleOps F} {libm : Libm F}
  (hpf hpf0 : HPF.HPFFilter F) (lpf lpf0 : LPF.LPFFilter F)
  (peq peq0 : PEQ.ParametricFilter F) (sample_rate f g q : F) :
  (HPF.hpf_update_coefficients (Some hpf) sample_rate f =
     HPF.hpf_init (Some hpf0) sample_rate f /\
   exists u, HPF.hpf_init (Some hpf0) sample_rate f =
               Some (HPF.mkHPFFilter u u f) /\
             delays u = (dlit 0, dlit 0, dlit 0, dlit 0))
  /\
  (LPF.lpf_update_coefficients (Some lpf) sample_rate f =
     LPF.lpf_init (Some lpf0) sample_rate f /\
   exists u, LPF.lpf_init (Some lpf0) sample_rate f =
               Some (LPF.mkLPFFilter u u f) /\
             delays u = (dlit 0, dlit 0, dlit 0, dlit 0))
  /\
  (PEQ.parametric_update_coefficients (Some peq) sample_rate f g q =
     PEQ.parametric_init (Some peq0) sample_rate f g q /\
   exists u, PEQ.parametric_init (Some peq0) sample_rate f g q =
               Some (PEQ.mkParametricFilter u u f g q) /\
             delays u = (dlit 0, dlit 0, dlit 0, dlit 0)).
Proof.
  repeat apply conj.
  - reflexivity.
  - eexists. split; reflexivity.
  - reflexivity.
  - eexists. split; reflexivity.
  - unfold PEQ.parametric_update_coefficients, PEQ.parametric_init,
      PEQ.calculate_parametric_coefficients, PEQ.parametric_coefficients,
      through.
    cbn. destruct (dle (dlit 0) g); reflexivity.
  - rewrite parametric_init_builds. eexists. split; [reflexivity|].
    unfold PEQ.parametric_coefficients, through. cbn.
    destruct (dle (dlit 0) g); reflexivity.
Qed.

(* ================================================================= *)
(** ** Lanes of the dispatcher *)

Section Lanes.
Context {F : Type} {ops : DoubleOps F}.

Lemma lane0_mono (i : nat) : lane0 1 i = true.
Proof. unfold lane0, channel_of. rewrite Nat.mod_1_r. reflexivity. Qed.

(** With one channel every sample is on lane 0. *)
Lemma route_mono (xs : list F) :
  forall (i : nat) (lft rgt : BiQuad F),
    sweep (route_sample 1) i (lft, rgt) xs =
    let (lft', ys) := lane_run lft xs in (lft', rgt, ys).
Proof.
  induction xs as [|x xs IH]; intros i lft rgt; cbn [sweep lane_run];
    [reflexivity|].
  unfold route_sample at 1. rewrite lane0_mono.
  destruct (process_mix lft x) as [lft1 y]. rewrite IH.
  destruct (lane_run lft1 xs). reflexivity.
Qed.

(** The values written on a lane are those its unit returns on the samples
    of that lane alone. *)
Lemma route_lane_outputs (N : nat) (xs : list F) :
  forall (i : nat) (lft rgt : BiQuad F),
    let '(_, _, ys) := sweep (route_sample N) i (lft, rgt) xs in
    lane_samples N true i ys =
      snd (lane_run lft (lane_samples N true i xs)) /\
    lane_samples N false i ys =
      snd (lane_run rgt (lane_samples N false i xs)).
Proof.
  induction xs as [|x xs IH]; intros i lft rgt; cbn [sweep lane_samples].
  - simpl. auto.
  - unfold route_sample at 1.
    destruct (lane0 N i) eqn:El; cbn [Bool.eqb].
    + destruct (process_mix lft x) as [lft1 y] eqn:Ex.
      specialize (IH (Datatypes.S i) lft1 rgt).
      destruct (sweep (route_sample N) (Datatypes.S i) (lft1, rgt) xs)
        as [[lft' rgt'] ys].
      cbn [lane_samples lane_run]. rewrite El, Ex. cbn [Bool.eqb].
      destruct (lane_run lft1 (lane_samples N true (Datatypes.S i) xs)).
      cbn [snd] in *. destruct IH as [-> ->]. auto.
    + destruct (process_mix rgt x) as [rgt1 y] eqn:Ex.
      specialize (IH (Datatypes.S i) lft rgt1).
      destruct (sweep (route_sample N) (Datatypes.S i) (lft, rgt1) xs)
        as [[lft' rgt'] ys].
      cbn [lane_samples lane_run]. rewrite El, Ex. cbn [Bool.eqb].
      destruct (lane_run rgt1 (lane_samples N false (Datatypes.S i) xs)).
      cbn [snd] in *. destruct IH as [-> ->]. auto.
Qed.

Lemma route_run_on_lanes (N : nat) (lft rgt : BiQuad F) (xs : list F) :
  let '(lft', rgt', ys) := route N lft rgt xs in
  run_on_lanes N lft rgt xs lft' rgt' ys.
Proof.
  unfold route, run_on_lanes.
  pose proof (route_lanes N xs 0%nat lft rgt) as HS.
  pose proof (route_lane_outputs N xs 0%nat lft rgt) as HO.
  pose proof (sweep_length (route_sample N) xs 0%nat (lft, rgt)) as HL.
  destruct (sweep (route_sample N) 0 (lft, rgt) xs) as [[lft' rgt'] ys].
  cbn [snd] in HL. destruct HS as [-> ->]. destruct HO as [-> ->].
  split; [exact HL|].
  split; apply surjective_pairing.
Qed.

(** The three loops of [*_process_buffer], on a positive channel count and
    an array that holds [length] samples, are one pass of [route]. *)
Lemma hpf_process_buffer_route (hpf : HPF.HPFFilter F) (b : AudioBuffer F)
  (d : list F) :
  data b = Some d ->
  (0 < channels b < 2 ^ 31)%Z ->
  (length b <= List.length d)%nat ->
  HPF.hpf_process_buffer (Some hpf) (Some b) =
  Some (let '(lft, rgt, ys) :=
          route (Z.to_nat (channels b)) (HPF.left hpf) (HPF.right hpf)
                (firstn (length b) d) in
        (Some (HPF.mkHPFFilter lft rgt (HPF.frequency hpf)),
         Some (set_data b (Some (ys ++ skipn (length b) d))))).
Proof.
  intros Hdata Hch Hlen. unfold HPF.hpf_process_buffer. rewrite Hdata.
  destruct (channels b =? 1)%Z eqn:H1;
    [|destruct (channels b =? 2)%Z eqn:H2].
  - apply Z.eqb_eq in H1. rewrite H1.
    unfold HPF.hpf_process_channel. cbn [Z.eqb].
    rewrite (channel_loop_run _ d (length b) Hlen).
    unfold route. change (Z.to_nat 1) with 1%nat. rewrite route_mono.
    destruct (lane_run (HPF.left hpf) (firstn (length b) d)).
    destruct hpf; reflexivity.
  - apply Z.eqb_eq in H2. rewrite H2.
    rewrite (stereo_loop_route _ _ d (length b) Hlen).
    change (Z.to_nat 2) with 2%nat.
    destruct (route 2 (HPF.left hpf) (HPF.right hpf) (firstn (length b) d))
      as [[lft rgt] ys].
    reflexivity.
  - rewrite (multi_loop_route (channels b) _ _ d (length b) Hch Hlen).
    destruct (route (Z.to_nat (channels b)) (HPF.left hpf) (HPF.right hpf)
                (firstn (length b) d)) as [[lft rgt] ys].
    reflexivity.
Qed.

Lemma lpf_process_buffer_route (lpf : LPF.LPFFilter F) (b : AudioBuffer F)
  (d : list F) :
  data b = Some d ->
  (0 < channels b < 2 ^ 31)%Z ->
  (length b <= List.length d)%nat ->
  LPF.lpf_process_buffer (Some lpf) (Some b) =
  Some (let '(lft, rgt, ys) :=
          route (Z.to_nat (channels b)) (LPF.left lpf) (LPF.right lpf)
                (firstn (length b) d) in
        (Some (LPF.mkLPFFilter lft rgt (LPF.frequency lpf)),
         Some (set_data b (Some (ys ++ skipn (length b) d))))).
Proof.
  intros Hdata Hch Hlen. unfold LPF.lpf_process_buffer. rewrite Hdata.
  destruct (channels b =? 1)%Z eqn:H1;
    [|destruct (channels b =? 2)%Z eqn:H2].
  - apply Z.eqb_eq in H1. rewrite H1.
    unfold LPF.lpf_process_channel. cbn [Z.eqb].
    rewrite (channel_loop_run _ d (length b) Hlen).
    unfold route. change (Z.to_nat 1) with 1%nat. rewrite route_mono.
    destruct (lane_run (LPF.left lpf) (firstn (length b) d)).
    destruct lpf; reflexivity.
  - apply Z.eqb_eq in H2. rewrite H2.
    rewrite (stereo_loop_route _ _ d (length b) Hlen).
    change (Z.to_nat 2) with 2%nat.
    destruct (route 2 (LPF.left lpf) (LPF.right lpf) (firstn (length b) d))
      as [[lft rgt] ys].
    reflexivity.
  - rewrite (multi_loop_route (channels b) _ _ d (length b) Hch Hlen).
    destruct (route (Z.to_nat (channels b)) (LPF.left lpf) (LPF.right lpf)
                (firstn (length b) d)) as [[lft rgt] ys].
    reflexivity.
Qed.

Lemma parametric_process_buffer_route (peq : PEQ.ParametricFilter F)
  (b : AudioBuffer F) (d : list F) :
  data b = Some d ->
  (0 < channels b < 2 ^ 31)%Z ->
  (length b <= List.length d)%nat ->
  PEQ.parametric_process_buffer (Some peq) (Some b) =
  Some (let '(lft, rgt, ys) :=
          route (Z.to_nat (channels b)) (PEQ.left peq) (PEQ.right peq)
                (firstn (length b) d) in
        (Some (PEQ.mkParametricFilter lft rgt (PEQ.frequency peq)
                 (PEQ.gain peq) (PEQ.q peq)),
         Some (set_data b (Some (ys ++ skipn (length b) d))))).
Proof.
  intros Hdata Hch Hlen. unfold PEQ.parametric_process_buffer. rewrite Hdata.
  destruct (channels b =? 1)%Z eqn:H1;
    [|destruct (channels b =? 2)%Z eqn:H2].
  - apply Z.eqb_eq in H1. rewrite H1.
    unfold PEQ.parametric_process_channel. cbn [Z.eqb].
    rewrite (channel_loop_run _ d (length b) Hlen).
    unfold route. change (Z.to_nat 1) with 1%nat. rewrite route_mono.
    destruct (lane_run (PEQ.left peq) (firstn (length b) d)).
    destruct peq; reflexivity.
  - apply Z.eqb_eq in H2. rewrite H2.
    rewrite (stereo_loop_route _ _ d (length b) Hlen).
    change (Z.to_nat 2) with 2%nat.
    destruct (route 2 (PEQ.left peq) (PEQ.right peq) (firstn (length b) d))
      as [[lft rgt] ys].
    reflexivity.
  - rewrite (multi_loop_route (channels b) _ _ d (length b) Hch Hlen).
    destruct (route (Z.to_nat (channels b)) (PEQ.left peq) (PEQ.right peq)
                (firstn (length b) d)) as [[lft rgt] ys].
    reflexivity.
Qed.

(** X9.  The lanes do not interact.  On a buffer of [N] channels, for any
    [N] from 1 up to [INT_MAX], that holds its [length] samples, the three
    [*_process_buffer] write one value for each sample, and the values on
    lane 0 (even channels) are those the left unit returns on the lane-0
    samples alone, in buffer order, whatever the other samples are;
    likewise lane 1 (odd channels) and the right unit.  With two channels
    the lanes are the left and the right channel; with one channel all
    samples are on lane 0 and the right unit is as it was. *)
Theorem lanes_filtered_independently
  (hpf : HPF.HPFFilter F) (lpf : LPF.LPFFilter F)
  (peq : PEQ.ParametricFilter F)
  (b : AudioBuffer F) (d : list F) :
  data b = Some d ->
  (0 < channels b < 2 ^ 31)%Z ->
  (length b <= List.length d)%nat ->
  let N := Z.to_nat (channels b) in
  let xs := firstn (length b) d in
  (exists lft rgt ys,
     HPF.hpf_process_buffer (Some hpf) (Some b) =
       Some (Some (HPF.mkHPFFilter lft rgt (HPF.frequency hpf)),
             Some (set_data b (Some (ys ++ skipn (length b) d)))) /\
     run_on_lanes N (HPF.left hpf) (HPF.right hpf) xs lft rgt ys)
  /\
  (exists lft rgt ys,
     LPF.lpf_process_buffer (Some lpf) (Some b) =
       Some (Some (LPF.mkLPFFilter lft rgt (LPF.frequency lpf)),
             Some (set_data b (Some (ys ++ skipn (length b) d)))) /\
     run_on_lanes N (LPF.left lpf) (LPF.right lpf) xs lft rgt ys)
  /\
  (exists lft rgt ys,
     PEQ.parametric_process_buffer (Some peq) (Some b) =
       Some (Some (PEQ.mkParametricFilter lft rgt (PEQ.frequency peq)
                     (PEQ.gain peq) (PEQ.q peq)),
             Some (set_data b (Some (ys ++ skipn (length b) d)))) /\
     run_on_lanes N (PEQ.left peq) (PEQ.right peq) xs lft rgt ys).
Proof.
  intros Hdata Hch Hlen N xs.
  repeat apply conj.
  - rewrite (hpf_process_buffer_route hpf b d Hdata Hch Hlen).
    fold N xs.
    pose proof (route_run_on_lanes N (HPF.left hpf) (HPF.right hpf) xs) as HR.
    destruct (route N (HPF.left hpf) (HPF.right hpf) xs) as [[lft rgt] ys].
    exists lft, rgt, ys. split; [reflexivity | exact HR].
  - rewrite (lpf_process_buffer_route lpf b d Hdata Hch Hlen).
    fold N xs.
    pose proof (route_run_on_lanes N (LPF.left lpf) (LPF.right lpf) xs) as HR.
    destruct (route N (LPF.left lpf) (LPF.right lpf) xs) as [[lft rgt] ys].
    exists lft, rgt, ys. split; [reflexivity | exact HR].
  - rewrite (parametric_process_buffer_route peq b d Hdata Hch Hlen).
    fold N xs.
    pose proof (route_run_on_lanes N (PEQ.left peq) (PEQ.right peq) xs) as HR.
    destruct (route N (PEQ.left peq) (PEQ.right peq) xs) as [[lft rgt] ys].
    exists lft, rgt, ys. split; [reflexivity | exact HR].
Qed.

End Lanes.

(** X9 on two stereo frames and doubling units. *)
Lemma lanes_filtered_independently_witness :
  exists lft rgt ys,
    HPF.hpf_process_buffer (Some doubling_hpf) (Some two_frame_stereo_buffer) =
      Some (Some (HPF.mkHPFFilter lft rgt 100%float),
            Some (set_data two_frame_stereo_buffer (Some (ys ++ [])))) /\
    run_on_lanes 2 doubling_unit doubling_unit [1; 2; 3; 4]%float
                 lft rgt ys.
Proof.
  destruct (lanes_filtered_independently doubling_hpf doubling_lpf
              doubling_peq two_frame_stereo_buffer [1; 2; 3; 4]%float)
    as [Hhpf _].
  - reflexivity.
  - cbn. lia.
  - cbn. lia.
  - exact Hhpf.
Defined.

(* ================================================================= *)
(** ** Processing in blocks *)

Section Blocks.
Context {F : Type} {ops : DoubleOps F}.

Lemma sweep_app {S : Type} (g : nat -> S -> F -> S * F) (xs1 xs2 : list F) :
  forall (i : nat) (s : S),
    sweep g i s (xs1 ++ xs2) =
    let (s1, ys1) := sweep g i s xs1 in
    let (s2, ys2) := sweep g (i + List.length xs1) s1 xs2 in
    (s2, ys1 ++ ys2).
Proof.
  induction xs1 as [|x xs1 IH]; intros i s; cbn [sweep app List.length].
  - rewrite Nat.add_0_r. destruct (sweep g i s xs2). reflexivity.
  - destruct (g i s x) as [s' y]. rewrite IH.
    destruct (sweep g (Datatypes.S i) s' xs1) as [s1 ys1].
    replace (Datatypes.S i + List.length xs1)%nat
      with (i + Datatypes.S (List.length xs1))%nat by lia.
    destruct (sweep g (i + Datatypes.S (List.length xs1)) s1 xs2).
    reflexivity.
Qed.

(** Whole frames before a sample do not change its lane. *)
Lemma lane0_shift (N k j : nat) :
  (k mod N = 0)%nat -> lane0 N (k + j) = lane0 N j.
Proof.
  intros Hk. unfold lane0, channel_of.
  rewrite Nat.Div0.add_mod, Hk, Nat.add_0_l, Nat.Div0.mod_mod.
  reflexivity.
Qed.

Lemma sweep_route_shift (N : nat) (xs : list F) :
  forall (k j : nat) (s : BiQuad F * BiQuad F),
    (k mod N = 0)%nat ->
    sweep (route_sample N) (k + j) s xs = sweep (route_sample N) j s xs.
Proof.
  induction xs as [|x xs IH]; intros k j s Hk; cbn [sweep]; [reflexivity|].
  assert (Hx : route_sample N (k + j) s x = route_sample N j s x)
    by (unfold route_sample; rewrite (lane0_shift N k j Hk); reflexivity).
  rewrite Hx. destruct (route_sample N j s x) as [s' y].
  replace (Datatypes.S (k + j)) with (k + Datatypes.S j)%nat by lia.
  rewrite (IH k (Datatypes.S j) s' Hk). reflexivity.
Qed.

(** A pass over whole frames and then over the rest is a pass over the
    former, followed by a pass over the latter that starts with the units
    as the first one left them. *)
Lemma route_app (N : nat) (lft rgt : BiQuad F) (xs1 xs2 : list F) :
  (List.length xs1 mod N = 0)%nat ->
  route N lft rgt (xs1 ++ xs2) =
  let '(lft1, rgt1, ys1) := route N lft rgt xs1 in
  let '(lft2, rgt2, ys2) := route N lft1 rgt1 xs2 in
  (lft2, rgt2, ys1 ++ ys2).
Proof.
  intros Hk. unfold route. rewrite sweep_app.
  destruct (sweep (route_sample N) 0 (lft, rgt) xs1) as [[lft1 rgt1] ys1].
  replace (0 + List.length xs1)%nat with (List.length xs1 + 0)%nat by lia.
  rewrite (sweep_route_shift N xs2 _ 0%nat _ Hk).
  destruct (sweep (route_sample N) 0 (lft1, rgt1) xs2) as [[lft2 rgt2] ys2].
  reflexivity.
Qed.

Lemma route_length (N : nat) (lft rgt : BiQuad F) (xs : list F) :
  List.length (snd (route N lft rgt xs)) = List.length xs.
Proof. apply sweep_length. Qed.

Lemma buffer_of_route (sr ch bd : Z) (xs ys : list F) :
  List.length ys = List.length xs ->
  set_data (buffer_of sr ch bd xs)
           (Some (ys ++ skipn (List.length xs) xs)) =
  buffer_of sr ch bd ys.
Proof.
  intros Hl. unfold set_data, buffer_of. cbn.
  rewrite skipn_all, app_nil_r, Hl. reflexivity.
Qed.

Lemma hpf_process_buffer_of (hpf : HPF.HPFFilter F)
  (sr ch bd : Z) (xs : list F) :
  (0 < ch < 2 ^ 31)%Z ->
  HPF.hpf_process_buffer
    (Some hpf) (Some (buffer_of sr ch bd xs)) =
  Some (let '(lft, rgt, ys) :=
          route (Z.to_nat ch) (HPF.left hpf) (HPF.right hpf) xs in
        (Some (HPF.mkHPFFilter lft rgt (HPF.frequency hpf)),
         Some (buffer_of sr ch bd ys))).
Proof.
  intros Hch.
  rewrite (hpf_process_buffer_route hpf (buffer_of sr ch bd xs) xs
             eq_refl Hch (le_n _)).
  cbn [buffer_of length channels]. rewrite firstn_all.
  pose proof (route_length (Z.to_nat ch) (HPF.left hpf) (HPF.right hpf)
                xs) as HL.
  destruct (route (Z.to_nat ch) (HPF.left hpf) (HPF.right hpf) xs)
    as [[lft rgt] ys].
  fold (buffer_of sr ch bd xs).
  rewrite (buffer_of_route _ _ _ xs ys HL). reflexivity.
Qed.

Lemma lpf_process_buffer_of (lpf : LPF.LPFFilter F)
  (sr ch bd : Z) (xs : list F) :
  (0 < ch < 2 ^ 31)%Z ->
  LPF.lpf_process_buffer
    (Some lpf) (Some (buffer_of sr ch bd xs)) =
  Some (let '(lft, rgt, ys) :=
          route (Z.to_nat ch) (LPF.left lpf) (LPF.right lpf) xs in
        (Some (LPF.mkLPFFilter lft rgt (LPF.frequency lpf)),
         Some (buffer_of sr ch bd ys))).
Proof.
  intros Hch.
  rewrite (lpf_process_buffer_route lpf (buffer_of sr ch bd xs) xs
             eq_refl Hch (le_n _)).
  cbn [buffer_of length channels]. rewrite firstn_all.
  pose proof (route_length (Z.to_nat ch) (LPF.left lpf) (LPF.right lpf)
                xs) as HL.
  destruct (route (Z.to_nat ch) (LPF.left lpf) (LPF.right lpf) xs)
    as [[lft rgt] ys].
  fold (buffer_of sr ch bd xs).
  rewrite (buffer_of_route _ _ _ xs ys HL). reflexivity.
Qed.

Lemma parametric_process_buffer_of (peq : PEQ.ParametricFilter F)
  (sr ch bd : Z) (xs : list F) :
  (0 < ch < 2 ^ 31)%Z ->
  PEQ.parametric_process_buffer
    (Some peq) (Some (buffer_of sr ch bd xs)) =
  Some (let '(lft, rgt, ys) :=
          route (Z.to_nat ch) (PEQ.left peq) (PEQ.right peq) xs in
        (Some (PEQ.mkParametricFilter lft rgt (PEQ.frequency peq)
                 (PEQ.gain peq) (PEQ.q peq)),
         Some (buffer_of sr ch bd ys))).
Proof.
  intros Hch.
  rewrite (parametric_process_buffer_route peq (buffer_of sr ch bd xs) xs
             eq_refl Hch (le_n _)).
  cbn [buffer_of length channels]. rewrite firstn_all.
  pose proof (route_length (Z.to_nat ch) (PEQ.left peq) (PEQ.right peq)
                xs) as HL.
  destruct (route (Z.to_nat ch) (PEQ.left peq) (PEQ.right peq) xs)
    as [[lft rgt] ys].
  fold (buffer_of sr ch bd xs).
  rewrite (buffer_of_route _ _ _ xs ys HL). reflexivity.
Qed.

(** X10.  Audio can be processed block by block.  For a channel count [N]
    from 1 up to [INT_MAX] and a first block of whole frames (its number
    of samples a multiple of [N]), calling [*_process_buffer] on the first
    block and then, with the instance as that call left it, on the second
    block writes the same samples and leaves the same instance as one call
    on the two blocks joined: the delays carry the history across the
    calls and nothing else does. *)
Theorem block_processing_composes
  (hpf : HPF.HPFFilter F) (lpf : LPF.LPFFilter F)
  (peq : PEQ.ParametricFilter F)
  (sr ch bd : Z) (xs1 xs2 : list F) :
  (0 < ch < 2 ^ 31)%Z ->
  (List.length xs1 mod Z.to_nat ch = 0)%nat ->
  let buf := buffer_of sr ch bd in
  (exists h1 ys1 h2 ys2,
     HPF.hpf_process_buffer (Some hpf) (Some (buf xs1)) =
       Some (Some h1, Some (buf ys1)) /\
     HPF.hpf_process_buffer (Some h1) (Some (buf xs2)) =
       Some (Some h2, Some (buf ys2)) /\
     HPF.hpf_process_buffer (Some hpf) (Some (buf (xs1 ++ xs2))) =
       Some (Some h2, Some (buf (ys1 ++ ys2))))
  /\
  (exists h1 ys1 h2 ys2,
     LPF.lpf_process_buffer (Some lpf) (Some (buf xs1)) =
       Some (Some h1, Some (buf ys1)) /\
     LPF.lpf_process_buffer (Some h1) (Some (buf xs2)) =
       Some (Some h2, Some (buf ys2)) /\
     LPF.lpf_process_buffer (Some lpf) (Some (buf (xs1 ++ xs2))) =
       Some (Some h2, Some (buf (ys1 ++ ys2))))
  /\
  (exists h1 ys1 h2 ys2,
     PEQ.parametric_process_buffer (Some peq) (Some (buf xs1)) =
       Some (Some h1, Some (buf ys1)) /\
     PEQ.parametric_process_buffer (Some h1) (Some (buf xs2)) =
       Some (Some h2, Some (buf ys2)) /\
     PEQ.parametric_process_buffer (Some peq) (Some (buf (xs1 ++ xs2))) =
       Some (Some h2, Some (buf (ys1 ++ ys2)))).
Proof.
  intros Hch Hk buf. unfold buf.
  repeat apply conj.
  - pose proof (route_app (Z.to_nat ch) (HPF.left hpf) (HPF.right hpf)
                  xs1 xs2 Hk) as HA.
    destruct (route (Z.to_nat ch) (HPF.left hpf) (HPF.right hpf) xs1)
      as [[lft1 rgt1] ys1] eqn:E1.
    destruct (route (Z.to_nat ch) lft1 rgt1 xs2)
      as [[lft2 rgt2] ys2] eqn:E2.
    exists (HPF.mkHPFFilter lft1 rgt1 (HPF.frequency hpf)), ys1,
           (HPF.mkHPFFilter lft2 rgt2 (HPF.frequency hpf)), ys2.
    rewrite !hpf_process_buffer_of by exact Hch.
    cbn [HPF.left HPF.right HPF.frequency].
    rewrite E1, E2, HA. repeat split.
  - pose proof (route_app (Z.to_nat ch) (LPF.left lpf) (LPF.right lpf)
                  xs1 xs2 Hk) as HA.
    destruct (route (Z.to_nat ch) (LPF.left lpf) (LPF.right lpf) xs1)
      as [[lft1 rgt1] ys1] eqn:E1.
    destruct (route (Z.to_nat ch) lft1 rgt1 xs2)
      as [[lft2 rgt2] ys2] eqn:E2.
    exists (LPF.mkLPFFilter lft1 rgt1 (LPF.frequency lpf)), ys1,
           (LPF.mkLPFFilter lft2 rgt2 (LPF.frequency lpf)), ys2.
    rewrite !lpf_process_buffer_of by exact Hch.
    cbn [LPF.left LPF.right LPF.frequency].
    rewrite E1, E2, HA. repeat split.
  - pose proof (route_app (Z.to_nat ch) (PEQ.left peq) (PEQ.right peq)
                  xs1 xs2 Hk) as HA.
    destruct (route (Z.to_nat ch) (PEQ.left peq) (PEQ.right peq) xs1)
      as [[lft1 rgt1] ys1] eqn:E1.
    destruct (route (Z.to_nat ch) lft1 rgt1 xs2)
      as [[lft2 rgt2] ys2] eqn:E2.
    exists (PEQ.mkParametricFilter lft1 rgt1 (PEQ.frequency peq)
              (PEQ.gain peq) (PEQ.q peq)), ys1,
           (PEQ.mkParametricFilter lft2 rgt2 (PEQ.frequency peq)
              (PEQ.gain peq) (PEQ.q peq)), ys2.
    rewrite !parametric_process_buffer_of by exact Hch.
    cbn [PEQ.left PEQ.right PEQ.frequency PEQ.gain PEQ.q].
    rewrite E1, E2, HA. repeat split.
Qed.

End Blocks.

(** X10 on one stereo frame followed by another, with units that take the
    mean of a sample and its predecessor. *)
Lemma block_processing_composes_witness :
  let h := HPF.mkHPFFilter averaging_unit averaging_unit 100%float in
  let buf := buffer_of (F := float) 44100 2 16 in
  exists h1 ys1 h2 ys2,
    HPF.hpf_process_buffer (Some h) (Some (buf [1; 2]%float)) =
      Some (Some h1, Some (buf ys1)) /\
    HPF.hpf_process_buffer (Some h1) (Some (buf [3; 4]%float)) =
      Some (Some h2, Some (buf ys2)) /\
    HPF.hpf_process_buffer (Some h) (Some (buf [1; 2; 3; 4]%float)) =
      Some (Some h2, Some (buf (ys1 ++ ys2))).
Proof.
  destruct (block_processing_composes
              (HPF.mkHPFFilter averaging_unit averaging_unit 100%float)
              doubling_lpf doubling_peq 44100 2 16
              [1; 2]%float [3; 4]%float)
    as [Hhpf _].
  - lia.
  - reflexivity.
  - exact Hhpf.
Defined.

(* ================================================================= *)
(** ** One channel at a time, and channel counts that are not positive *)

Section ChannelFacts.
Context {F : Type} {ops : DoubleOps F}.

(** X11.  [*_process_channel] on an array that holds [length] samples:
    channel 0 runs the left unit over the samples, and every other channel
    number, negative ones and those above 1 included, runs the right unit;
    the samples are replaced by [process(input)*c0 + input*d0], the unit
    not selected and the parameters stay as they are, and the cells past
    [length] are not touched. *)
Theorem process_channel_selects_unit
  (hpf : HPF.HPFFilter F) (lpf : LPF.LPFFilter F)
  (peq : PEQ.ParametricFilter F)
  (d : list F) (length : nat) (channel : Z) :
  (length <= List.length d)%nat ->
  let xs := firstn length d in
  let rest := skipn length d in
  HPF.hpf_process_channel (Some hpf) (Some d) length channel =
    Some (if (channel =? 0)%Z
          then let (u, ys) := lane_run (HPF.left hpf) xs in
               (Some (HPF.mkHPFFilter u (HPF.right hpf) (HPF.frequency hpf)),
                Some (ys ++ rest))
          else let (u, ys) := lane_run (HPF.right hpf) xs in
               (Some (HPF.mkHPFFilter (HPF.left hpf) u (HPF.frequency hpf)),
                Some (ys ++ rest)))
  /\
  LPF.lpf_process_channel (Some lpf) (Some d) length channel =
    Some (if (channel =? 0)%Z
          then let (u, ys) := lane_run (LPF.left lpf) xs in
               (Some (LPF.mkLPFFilter u (LPF.right lpf) (LPF.frequency lpf)),
                Some (ys ++ rest))
          else let (u, ys) := lane_run (LPF.right lpf) xs in
               (Some (LPF.mkLPFFilter (LPF.left lpf) u (LPF.frequency lpf)),
                Some (ys ++ rest)))
  /\
  PEQ.parametric_process_channel (Some peq) (Some d) length channel =
    Some (if (channel =? 0)%Z
          then let (u, ys) := lane_run (PEQ.left peq) xs in
               (Some (PEQ.mkParametricFilter u (PEQ.right peq)
                        (PEQ.frequency peq) (PEQ.gain peq) (PEQ.q peq)),
                Some (ys ++ rest))
          else let (u, ys) := lane_run (PEQ.right peq) xs in
               (Some (PEQ.mkParametricFilter (PEQ.left peq) u
                        (PEQ.frequency peq) (PEQ.gain peq) (PEQ.q peq)),
                Some (ys ++ rest))).
Proof.
  intros Hlen xs rest. subst xs rest.
  unfold HPF.hpf_process_channel, LPF.lpf_process_channel,
    PEQ.parametric_process_channel.
  repeat apply conj;
    (destruct (channel =? 0)%Z;
     rewrite (channel_loop_run _ d length Hlen);
     match goal with
     | |- context [lane_run ?u ?l] => destruct (lane_run u l)
     end; reflexivity).
Qed.

(** X12.  A channel count of zero is not guarded: on a buffer with at
    least one sample the three [*_process_buffer] take the multi-channel
    branch and evaluate [i % buffer->channels] with a zero divisor, which
    has no defined result. *)
Theorem zero_channels_divide_by_zero
  (hpf : HPF.HPFFilter F) (lpf : LPF.LPFFilter F)
  (peq : PEQ.ParametricFilter F)
  (b : AudioBuffer F) (d : list F) :
  data b = Some d ->
  channels b = 0%Z ->
  (0 < length b)%nat ->
  HPF.hpf_process_buffer (Some hpf) (Some b) = None /\
  LPF.lpf_process_buffer (Some lpf) (Some b) = None /\
  PEQ.parametric_process_buffer (Some peq) (Some b) = None.
Proof.
  intros Hdata Hch Hlen.
  assert (Hloop : forall lft rgt : BiQuad F,
            multi_loop lft rgt d (length b) 0 = None).
  { intros lft rgt. unfold multi_loop.
    destruct (length b) as [|n]; [lia|].
    rewrite for_loop_step by lia. reflexivity. }
  repeat apply conj; enter_process_buffer Hdata; rewrite Hch;
    cbn [Z.eqb]; rewrite Hloop; reflexivity.
Qed.

End ChannelFacts.

(** X11 on channel number [-3]: the right unit doubles the first two of
    three samples, and the left unit is as it was. *)
Lemma process_channel_selects_unit_witness :
  HPF.hpf_process_channel (Some doubling_hpf) (Some [1; 2; 3]%float)
                          2 (-3) =
  Some (Some (HPF.mkHPFFilter doubling_unit
                (mkBiQuad 2 0 0 0 0 1 0 2 1 4 2) 100),
        Some [2; 4; 3])%float.
Proof.
  destruct (process_channel_selects_unit doubling_hpf doubling_lpf
              doubling_peq [1; 2; 3]%float 2 (-3)) as [Hhpf _].
  - cbn. lia.
  - exact Hhpf.
Defined.

(** X12 on a one-sample buffer. *)
Lemma zero_channels_divide_by_zero_witness :
  HPF.hpf_process_buffer (Some doubling_hpf) (Some zero_channel_buffer) = None
  /\
  LPF.lpf_process_buffer (Some doubling_lpf) (Some zero_channel_buffer) = None
  /\
  PEQ.parametric_process_buffer (Some doubling_peq) (Some zero_channel_buffer)
    = None.
Proof.
  apply (zero_channels_divide_by_zero doubling_hpf doubling_lpf doubling_peq
           zero_channel_buffer [1]%float).
  - reflexivity.
  - reflexivity.
  - cbn. lia.
Defined.

(** A negative channel count is not guarded either.  The divisor of
    [i % buffer->channels] is the count converted to [size_t], which is
    above every index, so the channel number is the index itself, cut to
    an [int], and its parity that of the index. *)
Lemma lane_test_negative (channels : Z) (i : nat) :
  (- 2 ^ 31 <= channels < 0)%Z ->
  (Z.of_nat i < 2 ^ 63)%Z ->
  (to_size_t channels =? 0)%Z = false /\
  (Z.rem (to_int (Z.of_nat i mod to_size_t channels)) 2 =? 0)%Z = lane0 2 i.
Proof.
  intros Hc Hi.
  assert (Hs : to_size_t channels = (2 ^ 64 + channels)%Z).
  { unfold to_size_t.
    rewrite <- (Z.mod_small (2 ^ 64 + channels) (2 ^ 64)) by lia.
    rewrite <- Z.add_mod_idemp_l, Z.mod_same, Z.add_0_l by lia.
    reflexivity. }
  rewrite Hs. split; [apply Z.eqb_neq; lia|].
  rewrite Z.mod_small by lia.
  rewrite lane0_stereo, <- even_of_nat.
  set (z := Z.of_nat i).
  assert (Hz : to_int z = (z - 2 ^ 32 * ((z + 2 ^ 31) / 2 ^ 32))%Z).
  { unfold to_int.
    pose proof (Z.div_mod (z + 2 ^ 31) (2 ^ 32)) as HD. lia. }
  assert (Hev : Z.even (to_int z) = Z.even z).
  { rewrite Hz.
    replace (z - 2 ^ 32 * ((z + 2 ^ 31) / 2 ^ 32))%Z
      with (z + 2 * (- 2 ^ 31 * ((z + 2 ^ 31) / 2 ^ 32)))%Z by lia.
    apply Z.even_add_mul_2. }
  rewrite <- Hev.
  destruct (Z.even (to_int z)) eqn:Ee.
  - apply Z.eqb_eq. apply Z.rem_mod_eq_0; [lia|].
    rewrite Zeven_mod in Ee. apply Z.eqb_eq in Ee. exact Ee.
  - apply Z.eqb_neq. intros Hr. apply Z.rem_mod_eq_0 in Hr; [|lia].
    rewrite Zeven_mod, Hr in Ee. discriminate.
Qed.

Section NegativeChannels.
Context {F : Type} {ops : DoubleOps F}.

(** [for_loop_sweep] for a body that is a step of a pass at the indices
    below a bound. *)
Lemma for_loop_sweep_below {S : Type} (g : nat -> S -> F -> S * F)
  (body : nat -> S * list F -> option (S * list F)) (bound : nat) :
  (forall s pre x post,
     (List.length pre < bound)%nat ->
     body (List.length pre) (s, pre ++ x :: post) =
     Some (let (s', y) := g (List.length pre) s x in (s', pre ++ y :: post))) ->
  forall xs pre post s fuel,
    (List.length xs <= fuel)%nat ->
    (List.length pre + List.length xs <= bound)%nat ->
    for_loop fuel (List.length pre) (List.length pre + List.length xs) 1 body
             (s, pre ++ xs ++ post) =
    Some (let (s', ys) := sweep g (List.length pre) s xs in
          (s', pre ++ ys ++ post)).
Proof.
  intros Hbody. induction xs as [|x xs IH]; intros pre post s fuel Hfuel Hb.
  - rewrite for_loop_done by (simpl; lia). reflexivity.
  - destruct fuel as [|fuel]; [simpl in Hfuel; lia|].
    simpl in Hfuel, Hb.
    rewrite for_loop_step by (simpl; lia).
    cbn [app]. rewrite Hbody by lia. cbn [sweep].
    destruct (g (List.length pre) s x) as [s' y].
    replace (pre ++ y :: xs ++ post) with ((pre ++ [y]) ++ xs ++ post)
      by (rewrite <- app_assoc; reflexivity).
    replace (List.length pre + 1)%nat with (List.length (pre ++ [y]))
      by (rewrite length_app; reflexivity).
    replace (List.length pre + List.length (x :: xs))%nat
      with (List.length (pre ++ [y]) + List.length xs)%nat
      by (rewrite length_app; simpl; lia).
    rewrite IH by (rewrite ?length_app; simpl; lia).
    replace (List.length (pre ++ [y])) with (Datatypes.S (List.length pre))
      by (rewrite length_app; simpl; lia).
    destruct (sweep g (Datatypes.S (List.length pre)) s' xs) as [s'' ys].
    rewrite <- app_assoc. reflexivity.
Qed.

Lemma multi_loop_negative (channels : Z) (lft rgt : BiQuad F) (d : list F)
  (length : nat) :
  (- 2 ^ 31 <= channels < 0)%Z ->
  (length <= List.length d)%nat ->
  (Z.of_nat length <= 2 ^ 63)%Z ->
  multi_loop lft rgt d length channels =
  Some (let '(lft', rgt', ys) := route 2 lft rgt (firstn length d) in
        (lft', rgt', ys ++ skipn length d)).
Proof.
  intros Hc Hlen Hbound. unfold multi_loop, route.
  assert (Hbody : forall (s : BiQuad F * BiQuad F) pre x post,
            (List.length pre < length)%nat ->
            multi_body channels (List.length pre) (s, pre ++ x :: post) =
            Some (let (s', y) := route_sample 2 (List.length pre) s x in
                  (s', pre ++ y :: post))).
  { intros [l r] pre x post Hpre. unfold multi_body, route_sample.
    destruct (lane_test_negative channels (List.length pre) Hc) as [-> ->];
      [lia|].
    destruct (lane0 2 (List.length pre));
      rewrite filter_sample_middle;
      [destruct (process_mix l x) | destruct (process_mix r x)];
      reflexivity. }
  pose proof (for_loop_sweep_below (route_sample 2) (multi_body channels)
                length Hbody
                (firstn length d) [] (skipn length d) (lft, rgt) length) as HL.
  rewrite length_firstn, Nat.min_l in HL by assumption.
  simpl in HL. rewrite firstn_skipn in HL.
  rewrite HL by lia.
  destruct (sweep (route_sample 2) 0 (lft, rgt) (firstn length d))
    as [[lft' rgt'] ys].
  reflexivity.
Qed.

(** X13.  A negative channel count is processed as two channels.  On a
    buffer whose [channels] is negative, that holds its [length] samples
    (at most [2^63] of them), the three [*_process_buffer] write and leave
    what they do on the same buffer with [channels = 2]: samples at even
    indices through the left unit, samples at odd indices through the
    right unit, and the buffer's [channels] as it was. *)
Theorem negative_channel_count_is_stereo
  (hpf : HPF.HPFFilter F) (lpf : LPF.LPFFilter F)
  (peq : PEQ.ParametricFilter F)
  (b : AudioBuffer F) (d : list F) :
  data b = Some d ->
  (- 2 ^ 31 <= channels b < 0)%Z ->
  (length b <= List.length d)%nat ->
  (Z.of_nat (length b) <= 2 ^ 63)%Z ->
  let stereo :=
    mkAudioBuffer (data b) (length b) (sample_rate b) 2 (bit_depth b) in
  (exists h' d',
     HPF.hpf_process_buffer (Some hpf) (Some stereo) =
       Some (Some h', Some (set_data stereo (Some d'))) /\
     HPF.hpf_process_buffer (Some hpf) (Some b) =
       Some (Some h', Some (set_data b (Some d'))))
  /\
  (exists h' d',
     LPF.lpf_process_buffer (Some lpf) (Some stereo) =
       Some (Some h', Some (set_data stereo (Some d'))) /\
     LPF.lpf_process_buffer (Some lpf) (Some b) =
       Some (Some h', Some (set_data b (Some d'))))
  /\
  (exists h' d',
     PEQ.parametric_process_buffer (Some peq) (Some stereo) =
       Some (Some h', Some (set_data stereo (Some d'))) /\
     PEQ.parametric_process_buffer (Some peq) (Some b) =
       Some (Some h', Some (set_data b (Some d')))).
Proof.
  intros Hdata Hch Hlen Hbound stereo.
  assert (H1 : (channels b =? 1)%Z = false) by (apply Z.eqb_neq; lia).
  assert (H2 : (channels b =? 2)%Z = false) by (apply Z.eqb_neq; lia).
  assert (Hsd : data stereo = Some d) by exact Hdata.
  repeat apply conj.
  - rewrite (hpf_process_buffer_route hpf stereo d Hsd ltac:(cbn; lia) Hlen).
    unfold HPF.hpf_process_buffer. rewrite Hdata, H1, H2.
    rewrite (multi_loop_negative (channels b) _ _ d (length b)
               Hch Hlen Hbound).
    cbn [channels length stereo]. change (Z.to_nat 2) with 2%nat.
    destruct (route 2 (HPF.left hpf) (HPF.right hpf) (firstn (length b) d))
      as [[lft rgt] ys].
    eexists. eexists. split; reflexivity.
  - rewrite (lpf_process_buffer_route lpf stereo d Hsd ltac:(cbn; lia) Hlen).
    unfold LPF.lpf_process_buffer. rewrite Hdata, H1, H2.
    rewrite (multi_loop_negative (channels b) _ _ d (length b)
               Hch Hlen Hbound).
    cbn [channels length stereo]. change (Z.to_nat 2) with 2%nat.
    destruct (route 2 (LPF.left lpf) (LPF.right lpf) (firstn (length b) d))
      as [[lft rgt] ys].
    eexists. eexists. split; reflexivity.
  - rewrite (parametric_process_buffer_route peq stereo d Hsd
               ltac:(cbn; lia) Hlen).
    unfold PEQ.parametric_process_buffer. rewrite Hdata, H1, H2.
    rewrite (multi_loop_negative (channels b) _ _ d (length b)
               Hch Hlen Hbound).
    cbn [channels length stereo]. change (Z.to_nat 2) with 2%nat.
    destruct (route 2 (PEQ.left peq) (PEQ.right peq) (firstn (length b) d))
      as [[lft rgt] ys].
    eexists. eexists. split; reflexivity.
Qed.

End NegativeChannels.

(** X13 on three samples, a channel count of [-1] and doubling units. *)
Lemma negative_channel_count_is_stereo_witness :
  exists h' d',
    HPF.hpf_process_buffer (Some doubling_hpf) (Some odd_stereo_buffer) =
      Some (Some h', Some (set_data odd_stereo_buffer (Some d'))) /\
    HPF.hpf_process_buffer (Some doubling_hpf) (Some negative_channel_buffer) =
      Some (Some h', Some (set_data negative_channel_buffer (Some d'))).
Proof.
  destruct (negative_channel_count_is_stereo doubling_hpf doubling_lpf
              doubling_peq negative_channel_buffer [1; 2; 3]%float)
    as [Hhpf _].
  - reflexivity.
  - cbn. lia.
  - cbn. lia.
  - cbn. lia.
  - exact Hhpf.
Defined.

(* ================================================================= *)
(** ** The JIT backend where no underflow check fires *)

Section JitBuffer.
Context {F : Type} {ops : DoubleOps F}.
Local Open Scope double_scope.

(** The loop of the compiled [@biquad_process_buffer], from any index on,
    against the scalar reference on the same samples. *)
Lemma jit_buffer_loop (xs : list F) :
  forall (ipre opre os opost : list F) (bq : BiQuad F) (fuel : nat),
    List.length ipre = List.length opre ->
    List.length os = List.length xs ->
    (List.length xs <= fuel)%nat ->
    never_underflows bq xs ->
    exists u ys,
      biquad_run (Some bq) xs = (Some u, ys) /\
      coefficients u = coefficients bq /\
      (underflow_check (yz1 bq) = yz1 bq ->
       underflow_check (yz1 u) = yz1 u) /\
      for_loop fuel (List.length ipre) (List.length ipre + List.length xs) 1
        (MLIR.buffer_body (ipre ++ xs)
           (a0 bq) (a1 bq) (a2 bq) (b1 bq) (b2 bq))
        (opre ++ os ++ opost, delays bq) =
      Some (opre ++ ys ++ opost, delays u).
Proof.
  induction xs as [|x xs IH];
    intros ipre opre os opost bq fuel Hpre Hos Hfuel Hn.
  - destruct os; [|discriminate].
    exists bq, []. rewrite for_loop_done by (simpl; lia). auto.
  - destruct os as [|o os]; [discriminate|].
    destruct fuel as [|fuel]; [simpl in Hfuel; lia|].
    simpl in Hos, Hfuel. destruct Hn as [Hx Hn].
    set (bq1 := fst (biquad_process_unit bq x)) in *.
    assert (Hd1 : delays bq1 = (x, xz1 bq, recurrence bq x, yz1 bq)).
    { unfold bq1, biquad_process_unit, delays. cbn.
      fold (recurrence bq x). rewrite Hx. reflexivity. }
    assert (Hy1 : snd (biquad_process_unit bq x) = recurrence bq x).
    { unfold biquad_process_unit. cbn. fold (recurrence bq x). exact Hx. }
    destruct (IH (ipre ++ [x]) (opre ++ [recurrence bq x]) os opost bq1 fuel)
      as (u & ys & Erun & Hco & Hyz & Hloop).
    + rewrite !length_app. simpl. lia.
    + lia.
    + lia.
    + exact Hn.
    + exists u, (recurrence bq x :: ys).
      split; [|split; [|split]].
      * cbn [biquad_run biquad_process].
        rewrite (surjective_pairing (biquad_process_unit bq x)).
        fold bq1. rewrite Hy1, Erun. reflexivity.
      * rewrite Hco. unfold bq1, biquad_process_unit, coefficients. reflexivity.
      * intros _. apply Hyz.
        assert (Hz : yz1 bq1 = recurrence bq x)
          by (unfold delays in Hd1; injection Hd1; auto).
        rewrite Hz. exact Hx.
      * rewrite for_loop_step by (simpl; lia).
        unfold MLIR.buffer_body at 1. unfold delays at 1.
        rewrite load_middle. cbn [app]. rewrite Hpre, load_middle.
        rewrite store_middle. fold (recurrence bq x).
        rewrite <- Hd1.
        replace (opre ++ recurrence bq x :: os ++ opost)
          with ((opre ++ [recurrence bq x]) ++ os ++ opost)
          by (rewrite <- app_assoc; reflexivity).
        replace (ipre ++ x :: xs) with ((ipre ++ [x]) ++ xs)
          by (rewrite <- app_assoc; reflexivity).
        replace (List.length opre + 1)%nat
          with (List.length (ipre ++ [x]))
          by (rewrite length_app, Hpre; reflexivity).
        replace (List.length opre + List.length (x :: xs))%nat
          with (List.length (ipre ++ [x]) + List.length xs)%nat
          by (rewrite length_app, Hpre; simpl; lia).
        change (a0 bq) with (a0 bq1). change (a1 bq) with (a1 bq1).
        change (a2 bq) with (a2 bq1). change (b1 bq) with (b1 bq1).
        change (b2 bq) with (b2 bq1).
        rewrite Hloop. rewrite <- !app_assoc. reflexivity.
Qed.

(** X14.  Where no underflow check fires, the JIT backend is a drop-in
    replacement for [biquad_process].  For a compiled context, a unit
    whose [yz1] the checks leave alone, and samples [xs] (fewer than
    [2^63]) none of which makes a check fire on the scalar path: the calls
    of [mlir_biquad_process], one per sample, return what [biquad_process]
    returns and leave the same unit; and one call of
    [mlir_biquad_process_buffer], into an output array of the same length,
    writes those same values and leaves that same unit. *)
Theorem jit_agrees_where_no_underflow
  (bq0 bq : BiQuad F) (xs out : list F) :
  never_underflows bq xs ->
  underflow_check (yz1 bq) = yz1 bq ->
  List.length out = List.length xs ->
  (Z.of_nat (List.length xs) < 2 ^ 63)%Z ->
  let jit := MLIR.mlir_biquad_jit_create (Some bq0) in
  mlir_biquad_run jit (Some bq) xs = biquad_run (Some bq) xs /\
  MLIR.mlir_biquad_process_buffer jit (Some bq) (Some xs) (Some out)
                                  (List.length xs) =
  Some (fst (biquad_run (Some bq) xs), Some (snd (biquad_run (Some bq) xs))).
Proof.
  intros Hn Hyz Hout Hlen jit.
  split; [apply jit_matches_scalar_without_underflow; exact Hn|].
  destruct (jit_buffer_loop xs [] [] out [] bq (List.length xs))
    as (u & ys & Erun & Hco & Hyu & Hloop);
    [reflexivity | exact Hout | lia | exact Hn|].
  specialize (Hyu Hyz).
  unfold MLIR.mlir_biquad_process_buffer, jit, MLIR.mlir_biquad_jit_create.
  cbn [MLIR.process_buffer_fn]. unfold MLIR.addBufferProcessFunction.
  assert (Hto : Z.to_nat (MLIR.to_int64 (Z.of_nat (List.length xs))) =
                List.length xs).
  { unfold MLIR.to_int64. rewrite Z.mod_small by lia. lia. }
  rewrite Hto.
  cbn [app List.length Nat.add] in Hloop. rewrite !app_nil_r in Hloop.
  fold (delays bq). rewrite Hloop, Erun. cbn [fst snd].
  unfold delays. cbn. rewrite Hyu.
  unfold coefficients in Hco.
  destruct u, bq. cbn in Hco |- *.
  injection Hco as -> -> -> -> -> -> ->. reflexivity.
Qed.

End JitBuffer.

(** X14 on the averaging unit and the samples [1, 2, 3]. *)
Lemma jit_agrees_where_no_underflow_witness :
  let jit := MLIR.mlir_biquad_jit_create (Some averaging_unit) in
  (mlir_biquad_run jit (Some averaging_unit) [1; 2; 3] =
     biquad_run (Some averaging_unit) [1; 2; 3] /\
   MLIR.mlir_biquad_process_buffer jit (Some averaging_unit)
     (Some [1; 2; 3]) (Some [0; 0; 0]) 3 =
   Some (Some (mkBiQuad 0.5 0.5 0 0 0 1 0 3 2 2.5 1.5),
         Some [0.5; 1.5; 2.5]))%float.
Proof.
  refine (jit_agrees_where_no_underflow averaging_unit averaging_unit
            [1; 2; 3]%float [0; 0; 0]%float _ _ _ _).
  - cbn. repeat split; reflexivity.
  - reflexivity.
  - reflexivity.
  - cbn. lia.
Defined.

(* ================================================================= *)
(** ** The build with [USE_MLIR] *)

Section KernelFacts.
Context {F : Type} {ops : DoubleOps F}.
Local Open Scope double_scope.

Lemma kernel_run_coefficients (xs : list F) :
  forall bq : BiQuad F,
    coefficients (fst (kernel_run bq xs)) = coefficients bq.
Proof.
  induction xs as [|x xs IH]; intros bq; cbn [kernel_run]; [reflexivity|].
  specialize (IH (with_delays bq x (xz1 bq) (recurrence bq x) (yz1 bq))).
  destruct (kernel_run _ xs) as [u ys]. cbn [fst] in *. rewrite IH.
  reflexivity.
Qed.

Lemma kernel_run_length (xs : list F) :
  forall bq : BiQuad F,
    List.length (snd (kernel_run bq xs)) = List.length xs.
Proof.
  induction xs as [|x xs IH]; intros bq; cbn [kernel_run]; [reflexivity|].
  specialize (IH (with_delays bq x (xz1 bq) (recurrence bq x) (yz1 bq))).
  destruct (kernel_run _ xs) as [u ys]. cbn [snd List.length] in *.
  rewrite IH. reflexivity.
Qed.

(** The loop of the compiled [@biquad_process_buffer], from any index
    on. *)
Lemma kernel_loop (xs : list F) :
  forall (ipre ipost opre os opost : list F) (bq : BiQuad F) (fuel : nat),
    List.length ipre = List.length opre ->
    List.length os = List.length xs ->
    (List.length xs <= fuel)%nat ->
    for_loop fuel (List.length ipre) (List.length ipre + List.length xs) 1
      (MLIR.buffer_body (ipre ++ xs ++ ipost)
         (a0 bq) (a1 bq) (a2 bq) (b1 bq) (b2 bq))
      (opre ++ os ++ opost, delays bq) =
    Some (let (u, ys) := kernel_run bq xs in (opre ++ ys ++ opost, delays u)).
Proof.
  induction xs as [|x xs IH];
    intros ipre ipost opre os opost bq fuel Hpre Hos Hfuel.
  - destruct os; [|discriminate].
    rewrite for_loop_done by (simpl; lia). reflexivity.
  - destruct os as [|o os]; [discriminate|].
    destruct fuel as [|fuel]; [simpl in Hfuel; lia|].
    simpl in Hos, Hfuel.
    rewrite for_loop_step by (simpl; lia).
    unfold MLIR.buffer_body at 1. unfold delays at 1.
    cbn [app]. rewrite load_middle. rewrite Hpre, load_middle.
    rewrite store_middle. fold (recurrence bq x).
    cbn [kernel_run].
    set (bq1 := with_delays bq x (xz1 bq) (recurrence bq x) (yz1 bq)).
    change (x, xz1 bq, recurrence bq x, yz1 bq) with (delays bq1).
    replace (opre ++ recurrence bq x :: os ++ opost)
      with ((opre ++ [recurrence bq x]) ++ os ++ opost)
      by (rewrite <- app_assoc; reflexivity).
    replace (ipre ++ x :: xs ++ ipost) with ((ipre ++ [x]) ++ xs ++ ipost)
      by (rewrite <- app_assoc; reflexivity).
    replace (List.length opre + 1)%nat
      with (List.length (ipre ++ [x]))
      by (rewrite length_app, Hpre; reflexivity).
    replace (List.length opre + List.length (x :: xs))%nat
      with (List.length (ipre ++ [x]) + List.length xs)%nat
      by (rewrite length_app, Hpre; simpl; lia).
    change (a0 bq) with (a0 bq1). change (a1 bq) with (a1 bq1).
    change (a2 bq) with (a2 bq1). change (b1 bq) with (b1 bq1).
    change (b2 bq) with (b2 bq1).
    rewrite IH by (rewrite ?length_app; simpl; lia).
    destruct (kernel_run bq1 xs) as [u ys].
    rewrite <- !app_assoc. reflexivity.
Qed.

(** One call of [mlir_biquad_process_buffer] on a compiled context, in
    place, on the first cells of an array. *)
Lemma mlir_buffer_call (bq0 bq : BiQuad F) (xs post : list F) :
  (Z.of_nat (List.length xs) < 2 ^ 63)%Z ->
  MLIR.mlir_biquad_process_buffer (MLIR.mlir_biquad_jit_create (Some bq0))
    (Some bq) (Some (xs ++ post)) (Some (xs ++ post)) (List.length xs) =
  Some (let (u, ys) := kernel_run bq xs in
        (Some (checked_yz1 u), Some (ys ++ post))).
Proof.
  intros Hlen.
  unfold MLIR.mlir_biquad_process_buffer, MLIR.mlir_biquad_jit_create.
  cbn [MLIR.process_buffer_fn]. unfold MLIR.addBufferProcessFunction.
  assert (Hto : Z.to_nat (MLIR.to_int64 (Z.of_nat (List.length xs))) =
                List.length xs).
  { unfold MLIR.to_int64. rewrite Z.mod_small by lia. lia. }
  rewrite Hto.
  pose proof (kernel_loop xs [] post [] xs post bq (List.length xs)
                eq_refl eq_refl (le_n _)) as Hloop.
  cbn [app List.length Nat.add] in Hloop.
  fold (delays bq). rewrite Hloop.
  pose proof (kernel_run_coefficients xs bq) as Hco.
  destruct (kernel_run bq xs) as [u ys]. cbn [fst] in Hco.
  unfold checked_yz1, delays, coefficients in *.
  destruct u, bq. cbn in Hco |- *.
  injection Hco as -> -> -> -> -> -> ->. reflexivity.
Qed.

Lemma frames_length (ps : list (F * F)) :
  List.length (frames ps) = (2 * List.length ps)%nat.
Proof.
  induction ps as [|[l r] ps IH]; cbn [frames List.length]; [reflexivity|].
  rewrite IH. lia.
Qed.

Lemma interleave_length (ls : list F) :
  forall rs : list F,
    List.length rs = List.length ls ->
    List.length (interleave ls rs) = (2 * List.length ls)%nat.
Proof.
  induction ls as [|l ls IH]; intros [|r rs] Hl; try discriminate;
    cbn [interleave List.length]; [reflexivity|].
  rewrite IH by (simpl in Hl; lia). lia.
Qed.

(** The loop that takes the frames apart. *)
Lemma deinterleave_loop (ps : list (F * F)) :
  forall (pre post lpre rpre lo ro : list F) (fuel : nat),
    List.length pre = (2 * List.length lpre)%nat ->
    List.length rpre = List.length lpre ->
    List.length lo = List.length ps ->
    List.length ro = List.length ps ->
    (List.length ps <= fuel)%nat ->
    for_loop fuel (List.length lpre) (List.length lpre + List.length ps) 1
      (WithMLIR.deinterleave_body (pre ++ frames ps ++ post))
      (lpre ++ lo, rpre ++ ro) =
    Some (lpre ++ map fst ps, rpre ++ map snd ps).
Proof.
  induction ps as [|[l r] ps IH];
    intros pre post lpre rpre lo ro fuel Hpre Hrpre Hlo Hro Hfuel.
  - destruct lo; [|discriminate]. destruct ro; [|discriminate].
    rewrite for_loop_done by (simpl; lia). reflexivity.
  - destruct lo as [|o lo]; [discriminate|].
    destruct ro as [|o' ro]; [discriminate|].
    destruct fuel as [|fuel]; [simpl in Hfuel; lia|].
    simpl in Hlo, Hro, Hfuel.
    rewrite for_loop_step by (simpl; lia).
    unfold WithMLIR.deinterleave_body at 1. cbn [frames app].
    replace (List.length lpre * 2)%nat with (List.length pre) by lia.
    rewrite load_middle, load_middle.
    replace (load (pre ++ l :: r :: frames ps ++ post) (List.length pre + 1))
      with (Some r).
    2:{ replace (pre ++ l :: r :: frames ps ++ post)
          with ((pre ++ [l]) ++ r :: frames ps ++ post)
          by (rewrite <- app_assoc; reflexivity).
        replace (List.length pre + 1)%nat with (List.length (pre ++ [l]))
          by (rewrite length_app; reflexivity).
        rewrite load_middle. reflexivity. }
    replace (load (rpre ++ o' :: ro) (List.length lpre)) with (Some o')
      by (rewrite <- Hrpre, load_middle; reflexivity).
    rewrite (store_middle lpre o lo l).
    replace (store (rpre ++ o' :: ro) (List.length lpre) r)
      with (rpre ++ r :: ro)
      by (rewrite <- Hrpre, store_middle; reflexivity).
    replace (pre ++ l :: r :: frames ps ++ post)
      with ((pre ++ [l]) ++ r :: frames ps ++ post)
      by (rewrite <- app_assoc; reflexivity).
    replace ((pre ++ [l]) ++ r :: frames ps ++ post)
      with ((pre ++ [l; r]) ++ frames ps ++ post)
      by (rewrite <- !app_assoc; reflexivity).
    replace (lpre ++ l :: lo) with ((lpre ++ [l]) ++ lo)
      by (rewrite <- app_assoc; reflexivity).
    replace (rpre ++ r :: ro) with ((rpre ++ [r]) ++ ro)
      by (rewrite <- app_assoc; reflexivity).
    replace (List.length lpre + 1)%nat with (List.length (lpre ++ [l]))
      by (rewrite length_app; reflexivity).
    replace (List.length lpre + List.length ((l, r) :: ps))%nat
      with (List.length (lpre ++ [l]) + List.length ps)%nat
      by (rewrite length_app; simpl; lia).
    rewrite IH by (rewrite ?length_app; simpl; lia).
    cbn [map fst snd]. rewrite <- !app_assoc. reflexivity.
Qed.

(** The loop that puts the frames back. *)
Lemma reinterleave_loop (ls : list F) :
  forall (rs pre os post lpre rpre : list F) (fuel : nat),
    List.length rs = List.length ls ->
    List.length pre = (2 * List.length lpre)%nat ->
    List.length rpre = List.length lpre ->
    List.length os = (2 * List.length ls)%nat ->
    (List.length ls <= fuel)%nat ->
    for_loop fuel (List.length lpre) (List.length lpre + List.length ls) 1
      (WithMLIR.reinterleave_body (lpre ++ ls) (rpre ++ rs))
      (pre ++ os ++ post) =
    Some (pre ++ interleave ls rs ++ post).
Proof.
  induction ls as [|l ls IH];
    intros rs pre os post lpre rpre fuel Hrs Hpre Hrpre Hos Hfuel.
  - destruct rs; [|discriminate]. destruct os; [|discriminate].
    rewrite for_loop_done by (simpl; lia). reflexivity.
  - destruct rs as [|r rs]; [discriminate|].
    destruct os as [|o1 [|o2 os]]; try (simpl in Hos; lia).
    destruct fuel as [|fuel]; [simpl in Hfuel; lia|].
    simpl in Hrs, Hos, Hfuel.
    rewrite for_loop_step by (simpl; lia).
    unfold WithMLIR.reinterleave_body at 1. cbn [app].
    rewrite load_middle.
    replace (List.length lpre * 2)%nat with (List.length pre) by lia.
    rewrite load_middle, store_middle.
    replace (load (rpre ++ r :: rs) (List.length lpre)) with (Some r)
      by (rewrite <- Hrpre, load_middle; reflexivity).
    replace (pre ++ l :: o2 :: os ++ post)
      with ((pre ++ [l]) ++ o2 :: os ++ post)
      by (rewrite <- app_assoc; reflexivity).
    replace (List.length pre + 1)%nat with (List.length (pre ++ [l]))
      by (rewrite length_app; reflexivity).
    rewrite load_middle, store_middle.
    replace ((pre ++ [l]) ++ r :: os ++ post)
      with ((pre ++ [l; r]) ++ os ++ post)
      by (rewrite <- !app_assoc; reflexivity).
    replace (lpre ++ l :: ls) with ((lpre ++ [l]) ++ ls)
      by (rewrite <- app_assoc; reflexivity).
    replace (rpre ++ r :: rs) with ((rpre ++ [r]) ++ rs)
      by (rewrite <- app_assoc; reflexivity).
    replace (List.length lpre + 1)%nat with (List.length (lpre ++ [l]))
      by (rewrite length_app; reflexivity).
    replace (List.length lpre + List.length (l :: ls))%nat
      with (List.length (lpre ++ [l]) + List.length ls)%nat
      by (rewrite length_app; simpl; lia).
    rewrite IH by (rewrite ?length_app; simpl; lia).
    cbn [interleave]. rewrite <- !app_assoc. reflexivity.
Qed.

(** The stereo branch of the block, with both contexts compiled and both
    allocations successful: the frames are taken apart, each channel goes
    through the compiled loop on its own, and the frames are put back;
    what follows the last whole frame is not read. *)
Lemma mlir_block_stereo (bl br lft rgt : BiQuad F) (ps : list (F * F))
  (post lc rc : list F) (length : nat) :
  (length / 2)%nat = List.length ps ->
  List.length lc = List.length ps ->
  List.length rc = List.length ps ->
  (Z.of_nat (List.length ps) < 2 ^ 63)%Z ->
  WithMLIR.mlir_block lft rgt
    (MLIR.mlir_biquad_jit_create (Some bl))
    (MLIR.mlir_biquad_jit_create (Some br))
    2 length (frames ps ++ post) (Some lc) (Some rc) =
  Some (Some (let (ul, ls) := kernel_run lft (map fst ps) in
              let (ur, rs) := kernel_run rgt (map snd ps) in
              (checked_yz1 ul, checked_yz1 ur, interleave ls rs ++ post))).
Proof.
  intros Hk Hlc Hrc Hlen.
  unfold WithMLIR.mlir_block.
  cbn [MLIR.mlir_biquad_jit_create Z.eqb Pos.eqb]. rewrite Hk.
  pose proof (deinterleave_loop ps [] post [] [] lc rc (List.length ps)
                eq_refl eq_refl Hlc Hrc (le_n _)) as HD.
  cbn [app List.length Nat.add] in HD. rewrite HD.
  pose proof (mlir_buffer_call bl lft (map fst ps) []) as HL.
  pose proof (mlir_buffer_call br rgt (map snd ps) []) as HR.
  rewrite app_nil_r, length_map in HL, HR.
  unfold MLIR.mlir_biquad_jit_create in HL, HR.
  rewrite (HL Hlen).
  pose proof (kernel_run_length (map fst ps) lft) as HLl.
  destruct (kernel_run lft (map fst ps)) as [ul ls].
  rewrite (HR Hlen).
  pose proof (kernel_run_length (map snd ps) rgt) as HRl.
  destruct (kernel_run rgt (map snd ps)) as [ur rs].
  cbn [snd] in HLl, HRl. rewrite length_map in HLl, HRl.
  rewrite !app_nil_r.
  pose proof (reinterleave_loop ls rs [] (frames ps) post [] []
                (List.length ps)) as HI.
  cbn [app List.length Nat.add] in HI.
  rewrite HLl in HI.
  rewrite HI by (rewrite ?frames_length; simpl; lia).
  reflexivity.
Qed.

(** X15.  In the build with [USE_MLIR], on a two-channel buffer of odd
    length the dangling last sample is left alone.  For the three filters,
    with both contexts compiled and both allocations successful, on a
    buffer that holds the frames [ps] and then one more sample [x]: each
    channel of the frames goes through the compiled loop of its unit, [x]
    keeps its value, and no unit is given [x]: the left unit is as the
    left samples of the frames leave it.  (The reference build runs the
    left unit on [x].) *)
Theorem mlir_build_skips_dangling_sample
  (hpf : HPF.HPFFilter F) (lpf : LPF.LPFFilter F)
  (peq : PEQ.ParametricFilter F)
  (b : AudioBuffer F) (ps : list (F * F)) (x : F) (post lc rc : list F) :
  data b = Some (frames ps ++ x :: post) ->
  channels b = 2%Z ->
  length b = (2 * List.length ps + 1)%nat ->
  List.length lc = List.length ps ->
  List.length rc = List.length ps ->
  (Z.of_nat (List.length ps) < 2 ^ 63)%Z ->
  (let (ul, ls) := kernel_run (HPF.left hpf) (map fst ps) in
   let (ur, rs) := kernel_run (HPF.right hpf) (map snd ps) in
   WithMLIR.hpf_process_buffer
     (Some (jitted hpf (HPF.left hpf) (HPF.right hpf))) (Some b)
     (Some lc) (Some rc) =
   Some (Some (jitted (HPF.mkHPFFilter (checked_yz1 ul) (checked_yz1 ur)
                         (HPF.frequency hpf))
                      (HPF.left hpf) (HPF.right hpf)),
         Some (set_data b (Some (interleave ls rs ++ x :: post)))))
  /\
  (let (ul, ls) := kernel_run (LPF.left lpf) (map fst ps) in
   let (ur, rs) := kernel_run (LPF.right lpf) (map snd ps) in
   WithMLIR.lpf_process_buffer
     (Some (jitted lpf (LPF.left lpf) (LPF.right lpf))) (Some b)
     (Some lc) (Some rc) =
   Some (Some (jitted (LPF.mkLPFFilter (checked_yz1 ul) (checked_yz1 ur)
                         (LPF.frequency lpf))
                      (LPF.left lpf) (LPF.right lpf)),
         Some (set_data b (Some (interleave ls rs ++ x :: post)))))
  /\
  (let (ul, ls) := kernel_run (PEQ.left peq) (map fst ps) in
   let (ur, rs) := kernel_run (PEQ.right peq) (map snd ps) in
   WithMLIR.parametric_process_buffer
     (Some (jitted peq (PEQ.left peq) (PEQ.right peq))) (Some b)
     (Some lc) (Some rc) =
   Some (Some (jitted (PEQ.mkParametricFilter (checked_yz1 ul)
                         (checked_yz1 ur) (PEQ.frequency peq)
                         (PEQ.gain peq) (PEQ.q peq))
                      (PEQ.left peq) (PEQ.right peq)),
         Some (set_data b (Some (interleave ls rs ++ x :: post))))).
Proof.
  intros Hdata Hch Hlen Hlc Hrc Hbound.
  assert (Hk : (length b / 2)%nat = List.length ps).
  { rewrite Hlen.
    replace (2 * List.length ps + 1)%nat with (1 + List.length ps * 2)%nat
      by lia.
    rewrite Nat.div_add by lia. reflexivity. }
  repeat apply conj;
    unfold WithMLIR.hpf_process_buffer, WithMLIR.lpf_process_buffer,
      WithMLIR.parametric_process_buffer, jitted;
    cbn [WithMLIR.instance WithMLIR.left_jit WithMLIR.right_jit];
    rewrite Hdata, Hch;
    match goal with
    | |- context [WithMLIR.mlir_block ?l ?r _ _ _ _ _ _ _] =>
        rewrite (mlir_block_stereo l r l r ps (x :: post) lc rc (length b)
                   Hk Hlc Hrc Hbound);
        destruct (kernel_run l (map fst ps)) as [ul ls];
        destruct (kernel_run r (map snd ps)) as [ur rs]
    end;
    reflexivity.
Qed.

End KernelFacts.

(** X15 on the frame [(1, 2)] followed by the sample [3], at doubling
    units: the frame is doubled and [3] stays. *)
Lemma mlir_build_skips_dangling_sample_witness :
  WithMLIR.hpf_process_buffer
    (Some (jitted doubling_hpf doubling_unit doubling_unit))
    (Some odd_stereo_buffer) (Some one_cell) (Some one_cell) =
  Some (Some (jitted (HPF.mkHPFFilter (mkBiQuad 2 0 0 0 0 1 0 1 0 2 0)
                                      (mkBiQuad 2 0 0 0 0 1 0 2 0 4 0) 100)
                     doubling_unit doubling_unit),
        Some (mkAudioBuffer (Some [2; 4; 3]) 3 44100 2 16))%float.
Proof.
  destruct (mlir_build_skips_dangling_sample doubling_hpf doubling_lpf
              doubling_peq odd_stereo_buffer [(1, 2)]%float 3%float
              [] one_cell one_cell) as [Hhpf _].
  - reflexivity.
  - reflexivity.
  - reflexivity.
  - reflexivity.
  - reflexivity.
  - cbn. lia.
  - exact Hhpf.
Defined.

(** *** The two builds against each other *)

Section QuietLanes.
Context {F : Type} {ops : DoubleOps F}.

(** A step on which no underflow check fires leaves the unit that the
    compiled loop leaves. *)
Lemma quiet_step (bq : BiQuad F) (x : F) :
  underflow_check (recurrence bq x) = recurrence bq x ->
  biquad_process_unit bq x =
  (with_delays bq x (xz1 bq) (recurrence bq x) (yz1 bq), recurrence bq x).
Proof.
  intros Hx. unfold biquad_process_unit. fold (recurrence bq x).
  rewrite Hx. reflexivity.
Qed.

Lemma kernel_run_checked (xs : list F) :
  forall bq : BiQuad F,
    never_underflows bq xs ->
    underflow_check (yz1 bq) = yz1 bq ->
    checked_yz1 (fst (kernel_run bq xs)) = fst (kernel_run bq xs).
Proof.
  induction xs as [|x xs IH]; intros bq Hn Hyz; cbn [kernel_run].
  - unfold checked_yz1, set_yz1. cbn [fst]. rewrite Hyz.
    destruct bq; reflexivity.
  - destruct Hn as [Hx Hn]. rewrite (quiet_step bq x Hx) in Hn.
    cbn [fst] in Hn.
    specialize (IH _ Hn Hx).
    destruct (kernel_run (with_delays bq x (xz1 bq) (recurrence bq x) (yz1 bq))
                xs) as [u ys].
    exact IH.
Qed.

Lemma route_frames (ps : list (F * F)) :
  forall (i : nat) (lft rgt : BiQuad F),
    Nat.even i = true ->
    sweep (route_sample 2) i (lft, rgt) (frames ps) =
    let (lft', ls) := lane_run lft (map fst ps) in
    let (rgt', rs) := lane_run rgt (map snd ps) in
    (lft', rgt', interleave ls rs).
Proof.
  induction ps as [|[l r] ps IH]; intros i lft rgt Hev;
    cbn [frames sweep map lane_run fst snd]; [reflexivity|].
  unfold route_sample at 1. rewrite lane0_stereo, Hev.
  destruct (process_mix lft l) as [lft1 yl].
  unfold route_sample at 1. rewrite lane0_stereo, Nat.even_succ.
  rewrite <- Nat.negb_even, Hev. cbn [negb].
  destruct (process_mix rgt r) as [rgt1 yr].
  rewrite (IH (Datatypes.S (Datatypes.S i)) lft1 rgt1 Hev).
  destruct (lane_run lft1 (map fst ps)) as [lft' ls].
  destruct (lane_run rgt1 (map snd ps)) as [rgt' rs].
  reflexivity.
Qed.

Lemma lane_samples_frames (ps : list (F * F)) :
  forall i : nat,
    Nat.even i = true ->
    lane_samples 2 true i (frames ps) = map fst ps /\
    lane_samples 2 false i (frames ps) = map snd ps.
Proof.
  induction ps as [|[l r] ps IH]; intros i Hev;
    cbn [frames lane_samples map fst snd]; [auto|].
  rewrite !lane0_stereo, Nat.even_succ, <- Nat.negb_even, Hev.
  cbn [negb Bool.eqb].
  destruct (IH (Datatypes.S (Datatypes.S i)) Hev) as [-> ->]. auto.
Qed.

Lemma lane_samples_mono (xs : list F) :
  forall i : nat,
    lane_samples 1 true i xs = xs /\ lane_samples 1 false i xs = [].
Proof.
  induction xs as [|x xs IH]; intros i; cbn [lane_samples]; [auto|].
  rewrite lane0_mono. cbn [Bool.eqb].
  destruct (IH (Datatypes.S i)) as [-> ->]. auto.
Qed.

Lemma even_frames (xs : list F) :
  Nat.even (List.length xs) = true -> exists ps, xs = frames ps.
Proof.
  induction xs as [|x|x y xs IH] using list_pair_ind; intros Hev.
  - exists []. reflexivity.
  - discriminate.
  - destruct (IH Hev) as [ps ->]. exists ((x, y) :: ps). reflexivity.
Qed.

(** With no underflow check firing and a mix that returns the filtered
    value, the dispatcher's pass over one lane is the compiled loop. *)
Lemma lane_run_kernel_run (xs : list F) :
  forall u : BiQuad F,
    never_underflows u xs ->
    mix_returns_filtered u xs ->
    lane_run u xs = kernel_run u xs.
Proof.
  induction xs as [|x xs IH]; intros u Hn Hm;
    cbn [lane_run kernel_run]; [reflexivity|].
  destruct Hn as [Hx Hn]. rewrite (quiet_step u x Hx) in Hn.
  cbn [fst] in Hn. destruct Hm as [Hmix Hm].
  unfold process_mix. rewrite (quiet_step u x Hx).
  cbn [with_delays c0 d0]. rewrite Hmix.
  rewrite (IH (with_delays u x (xz1 u) (recurrence u x) (yz1 u)) Hn Hm).
  reflexivity.
Qed.

(** The block of the [USE_MLIR] build on quiet lanes: what the standard
    implementation does. *)
Lemma mlir_block_route (bl br lft rgt : BiQuad F) (b : AudioBuffer F)
  (xs post lc rc : list F) :
  length b = List.length xs ->
  (Z.of_nat (List.length xs) < 2 ^ 63)%Z ->
  mono_or_whole_frames b lc rc ->
  lanes_quiet (Z.to_nat (channels b)) lft rgt xs ->
  WithMLIR.mlir_block lft rgt
    (MLIR.mlir_biquad_jit_create (Some bl))
    (MLIR.mlir_biquad_jit_create (Some br))
    (channels b) (length b) (xs ++ post) (Some lc) (Some rc) =
  Some (Some (let '(lft', rgt', ys) :=
                route (Z.to_nat (channels b)) lft rgt xs in
              (lft', rgt', ys ++ post))).
Proof.
  intros Hlen Hbound Hshape (Hnl & Hml & Hnr & Hmr & Hyl & Hyr).
  destruct Hshape as [Hch | (Hch & Hev & Hlc & Hrc)]; rewrite Hch in *.
  - change (Z.to_nat 1) with 1%nat in *.
    destruct (lane_samples_mono xs 0) as [El Er]. rewrite El in Hnl, Hml.
    unfold WithMLIR.mlir_block.
    cbn [MLIR.mlir_biquad_jit_create Z.eqb Pos.eqb]. rewrite Hlen.
    pose proof (mlir_buffer_call bl lft xs post Hbound) as HC.
    unfold MLIR.mlir_biquad_jit_create in HC. rewrite HC.
    unfold route. rewrite route_mono.
    rewrite (lane_run_kernel_run xs lft Hnl Hml).
    pose proof (kernel_run_checked xs lft Hnl Hyl) as HK.
    destruct (kernel_run lft xs) as [u ys]. cbn [fst] in HK.
    rewrite HK. reflexivity.
  - change (Z.to_nat 2) with 2%nat in *.
    rewrite Hlen in Hev, Hlc, Hrc.
    destruct (even_frames xs Hev) as [ps ->].
    rewrite frames_length in Hlc, Hrc, Hbound.
    replace (2 * List.length ps / 2)%nat with (List.length ps) in Hlc, Hrc
      by (rewrite Nat.mul_comm, Nat.div_mul; lia).
    destruct (lane_samples_frames ps 0 eq_refl) as [El Er].
    rewrite El in Hnl, Hml. rewrite Er in Hnr, Hmr.
    rewrite (mlir_block_stereo bl br lft rgt ps post lc rc (length b));
      [| rewrite Hlen, frames_length, Nat.mul_comm, Nat.div_mul; lia
       | exact Hlc | exact Hrc | lia].
    unfold route. rewrite (route_frames ps 0 lft rgt eq_refl).
    rewrite (lane_run_kernel_run _ lft Hnl Hml).
    rewrite (lane_run_kernel_run _ rgt Hnr Hmr).
    pose proof (kernel_run_checked _ lft Hnl Hyl) as HKl.
    pose proof (kernel_run_checked _ rgt Hnr Hyr) as HKr.
    destruct (kernel_run lft (map fst ps)) as [ul ls].
    destruct (kernel_run rgt (map snd ps)) as [ur rs].
    cbn [fst] in HKl, HKr. rewrite HKl, HKr. reflexivity.
Qed.

(** X16.  Where no underflow check fires and the wet/dry mix returns the
    filtered value, the build with [USE_MLIR] computes what the reference
    build computes.  In every arithmetic, binary64 among them, for the
    three filters with both contexts compiled, on a mono buffer, or a
    two-channel buffer of whole frames with both allocations successful,
    that holds its samples (fewer than [2^63]): if on either lane no check
    fires, the mix [filtered * c0 + input * d0] is the filtered value on
    every sample, and the checks leave both [yz1] alone, then
    [*_process_buffer] of this build writes the samples and leaves the
    units that the reference build does, and keeps its contexts. *)
Theorem mlir_build_matches_reference
  (hpf : HPF.HPFFilter F) (lpf : LPF.LPFFilter F)
  (peq : PEQ.ParametricFilter F)
  (b : AudioBuffer F) (xs post lc rc : list F) :
  data b = Some (xs ++ post) ->
  length b = List.length xs ->
  (Z.of_nat (List.length xs) < 2 ^ 63)%Z ->
  mono_or_whole_frames b lc rc ->
  let N := Z.to_nat (channels b) in
  (lanes_quiet N (HPF.left hpf) (HPF.right hpf) xs ->
   exists h' b',
     HPF.hpf_process_buffer (Some hpf) (Some b) = Some (Some h', Some b') /\
     WithMLIR.hpf_process_buffer
       (Some (jitted hpf (HPF.left hpf) (HPF.right hpf))) (Some b)
       (Some lc) (Some rc) =
     Some (Some (jitted h' (HPF.left hpf) (HPF.right hpf)), Some b'))
  /\
  (lanes_quiet N (LPF.left lpf) (LPF.right lpf) xs ->
   exists h' b',
     LPF.lpf_process_buffer (Some lpf) (Some b) = Some (Some h', Some b') /\
     WithMLIR.lpf_process_buffer
       (Some (jitted lpf (LPF.left lpf) (LPF.right lpf))) (Some b)
       (Some lc) (Some rc) =
     Some (Some (jitted h' (LPF.left lpf) (LPF.right lpf)), Some b'))
  /\
  (lanes_quiet N (PEQ.left peq) (PEQ.right peq) xs ->
   exists h' b',
     PEQ.parametric_process_buffer (Some peq) (Some b) =
       Some (Some h', Some b') /\
     WithMLIR.parametric_process_buffer
       (Some (jitted peq (PEQ.left peq) (PEQ.right peq))) (Some b)
       (Some lc) (Some rc) =
     Some (Some (jitted h' (PEQ.left peq) (PEQ.right peq)), Some b')).
Proof.
  intros Hdata Hlen Hbound Hshape N.
  assert (Hch : (0 < channels b < 2 ^ 31)%Z)
    by (destruct Hshape as [-> | (-> & _)]; lia).
  assert (Hle : (length b <= List.length (xs ++ post))%nat)
    by (rewrite length_app; lia).
  repeat apply conj; intros Hq.
  - rewrite (hpf_process_buffer_route hpf b _ Hdata Hch Hle).
    unfold WithMLIR.hpf_process_buffer, jitted.
    cbn [WithMLIR.instance WithMLIR.left_jit WithMLIR.right_jit].
    rewrite Hdata.
    rewrite (mlir_block_route _ _ _ _ b xs post lc rc Hlen Hbound Hshape Hq).
    rewrite Hlen, firstn_exact, skipn_exact. fold N.
    destruct (route N (HPF.left hpf) (HPF.right hpf) xs) as [[lft rgt] ys].
    eexists. eexists. split; reflexivity.
  - rewrite (lpf_process_buffer_route lpf b _ Hdata Hch Hle).
    unfold WithMLIR.lpf_process_buffer, jitted.
    cbn [WithMLIR.instance WithMLIR.left_jit WithMLIR.right_jit].
    rewrite Hdata.
    rewrite (mlir_block_route _ _ _ _ b xs post lc rc Hlen Hbound Hshape Hq).
    rewrite Hlen, firstn_exact, skipn_exact. fold N.
    destruct (route N (LPF.left lpf) (LPF.right lpf) xs) as [[lft rgt] ys].
    eexists. eexists. split; reflexivity.
  - rewrite (parametric_process_buffer_route peq b _ Hdata Hch Hle).
    unfold WithMLIR.parametric_process_buffer, jitted.
    cbn [WithMLIR.instance WithMLIR.left_jit WithMLIR.right_jit].
    rewrite Hdata.
    rewrite (mlir_block_route _ _ _ _ b xs post lc rc Hlen Hbound Hshape Hq).
    rewrite Hlen, firstn_exact, skipn_exact. fold N.
    destruct (route N (PEQ.left peq) (PEQ.right peq) xs) as [[lft rgt] ys].
    eexists. eexists. split; reflexivity.
Qed.

End QuietLanes.

(** X16 in binary64, on the two stereo frames [(1, 2)] and [(3, 4)] and
    averaging units: both builds write [0.5, 1, 2, 3]. *)
Lemma mlir_build_matches_reference_witness :
  exists h',
    HPF.hpf_process_buffer (Some averaging_hpf) (Some two_frame_stereo_buffer)
    = Some (Some h',
            Some (set_data two_frame_stereo_buffer
                    (Some [0.5; 1; 2; 3]%float))) /\
    WithMLIR.hpf_process_buffer
      (Some (jitted averaging_hpf averaging_unit averaging_unit))
      (Some two_frame_stereo_buffer) (Some [0; 0]%float) (Some [0; 0]%float) =
    Some (Some (jitted h' averaging_unit averaging_unit),
          Some (set_data two_frame_stereo_buffer
                  (Some [0.5; 1; 2; 3]%float))).
Proof.
  destruct (mlir_build_matches_reference averaging_hpf averaging_lpf
              averaging_peq two_frame_stereo_buffer
              [1; 2; 3; 4]%float [] [0; 0]%float [0; 0]%float)
    as [Hhpf _].
  - reflexivity.
  - reflexivity.
  - cbn. lia.
  - right. repeat split; reflexivity.
  - destruct Hhpf as (h' & b' & Href & Hmlir).
    + vm_compute. repeat split; reflexivity.
    + exists h'.
      assert (Hb : b' = set_data two_frame_stereo_buffer
                          (Some [0.5; 1; 2; 3]%float)).
      { vm_compute in Href. injection Href as _ <-. reflexivity. }
      rewrite <- Hb. split; assumption.
Defined.

(** With the mix of the designs the condition on the mix holds of every
    signal in exact arithmetic; in binary64 it fails on an infinite
    sample, whose product with [0.0] is a NaN. *)
Lemma exact_mix_returns_filtered (xs : list R) :
  forall u : BiQuad R,
    c0 u = 1%R -> d0 u = 0%R -> mix_returns_filtered u xs.
Proof.
  induction xs as [|x xs IH]; intros u Hc Hd; cbn [mix_returns_filtered];
    [exact I|].
  split.
  - rewrite Hc, Hd. cbn. ring.
  - apply IH; assumption.
Qed.

Example infinite_sample_mix :
  ~ mix_returns_filtered passthrough_unit [infinity].
Proof.
  intros [H _]. apply (f_equal Prim2SF) in H. vm_compute in H. discriminate.
Qed.

(* ================================================================= *)
(** ** The command-line tool *)

(** *** A frequency that is not a number *)

(** An operation with a NaN operand returns the NaN, and no comparison
    with a NaN succeeds. *)
Lemma nan_mul_l (x : float) : (nan * x)%float = nan.
Proof.
  apply Prim2SF_inj. rewrite FloatAxioms.mul_spec.
  change (Prim2SF nan) with S754_nan. reflexivity.
Qed.

Lemma nan_mul_r (x : float) : (x * nan)%float = nan.
Proof.
  apply Prim2SF_inj. rewrite FloatAxioms.mul_spec.
  change (Prim2SF nan) with S754_nan.
  destruct (Prim2SF x); reflexivity.
Qed.

Lemma nan_add_l (x : float) : (nan + x)%float = nan.
Proof.
  apply Prim2SF_inj. rewrite FloatAxioms.add_spec.
  change (Prim2SF nan) with S754_nan. reflexivity.
Qed.

Lemma nan_add_r (x : float) : (x + nan)%float = nan.
Proof.
  apply Prim2SF_inj. rewrite FloatAxioms.add_spec.
  change (Prim2SF nan) with S754_nan.
  destruct (Prim2SF x); reflexivity.
Qed.

Lemma nan_sub_l (x : float) : (nan - x)%float = nan.
Proof.
  apply Prim2SF_inj. rewrite FloatAxioms.sub_spec.
  change (Prim2SF nan) with S754_nan. reflexivity.
Qed.

Lemma nan_div_l (x : float) : (nan / x)%float = nan.
Proof.
  apply Prim2SF_inj. rewrite FloatAxioms.div_spec.
  change (Prim2SF nan) with S754_nan. reflexivity.
Qed.

Lemma nan_div_r (x : float) : (x / nan)%float = nan.
Proof.
  apply Prim2SF_inj. rewrite FloatAxioms.div_spec.
  change (Prim2SF nan) with S754_nan.
  destruct (Prim2SF x); reflexivity.
Qed.

Lemma nan_leb_r (x : float) : PrimFloat.leb x nan = false.
Proof.
  rewrite FloatAxioms.leb_spec. change (Prim2SF nan) with S754_nan.
  destruct (Prim2SF x); reflexivity.
Qed.

Ltac nan_spreads :=
  repeat (rewrite ?nan_mul_l, ?nan_mul_r, ?nan_add_l, ?nan_add_r,
                  ?nan_sub_l, ?nan_div_l, ?nan_div_r).

(** A unit whose [a0] is a NaN returns a NaN for every sample, and keeps
    its [a0]. *)
Lemma nan_unit_process_mix (u : BiQuad float) (x : float) :
  a0 u = nan ->
  snd (process_mix u x) = nan /\ a0 (fst (process_mix u x)) = nan.
Proof.
  intros Ha. unfold process_mix, biquad_process_unit.
  cbn [fst snd a0 c0 d0 set_xz1 set_xz2 set_yz1 set_yz2].
  rewrite Ha. change (@dmul float binary64) with PrimFloat.mul.
  change (@dadd float binary64) with PrimFloat.add.
  change (@dsub float binary64) with PrimFloat.sub.
  nan_spreads. change (underflow_check nan) with nan.
  nan_spreads. split; reflexivity.
Qed.

Lemma nan_route (N : nat) (xs : list float) (lft rgt : BiQuad float) :
  a0 lft = nan -> a0 rgt = nan ->
  snd (route N lft rgt xs) = repeat nan (List.length xs).
Proof.
  intros Hl Hr. unfold route.
  apply (sweep_constant (route_sample N)
           (fun s => a0 (fst s) = nan /\ a0 (snd s) = nan) nan).
  - intros i [l r] x [Hl' Hr']. cbn [fst snd] in Hl', Hr'.
    unfold route_sample. destruct (lane0 N i).
    + destruct (nan_unit_process_mix l x Hl') as [Hy Ha].
      destruct (process_mix l x) as [l' y]. cbn [fst snd] in *. auto.
    + destruct (nan_unit_process_mix r x Hr') as [Hy Ha].
      destruct (process_mix r x) as [r' y]. cbn [fst snd] in *. auto.
  - split; assumption.
Qed.

(** With [tan(NaN) = NaN], every design computes [a0 = NaN] from a NaN
    frequency. *)
Section NanDesigns.
Variable tan : float -> float.
Variable pow : float -> float -> float.
Hypothesis tan_nan : tan nan = nan.

Lemma hpf_init_nan (h0 : HPF.HPFFilter float) (sample_rate : float) :
  exists l r,
    HPF.hpf_init (libm := binary64_libm tan pow) (Some h0) sample_rate nan =
      Some (HPF.mkHPFFilter l r nan) /\
    a0 l = nan /\ a0 r = nan.
Proof.
  eexists. eexists. split; [reflexivity|].
  cbn. nan_spreads. rewrite tan_nan. nan_spreads. split; reflexivity.
Qed.

Lemma lpf_init_nan (l0 : LPF.LPFFilter float) (sample_rate : float) :
  exists l r,
    LPF.lpf_init (libm := binary64_libm tan pow) (Some l0) sample_rate nan =
      Some (LPF.mkLPFFilter l r nan) /\
    a0 l = nan /\ a0 r = nan.
Proof.
  eexists. eexists. split; [reflexivity|].
  cbn. nan_spreads. rewrite tan_nan. nan_spreads. split; reflexivity.
Qed.

Lemma parametric_init_nan (p0 : PEQ.ParametricFilter float)
  (sample_rate g q : float) :
  exists l r,
    PEQ.parametric_init (libm := binary64_libm tan pow) (Some p0)
      sample_rate nan g q =
      Some (PEQ.mkParametricFilter l r nan g q) /\
    a0 l = nan /\ a0 r = nan.
Proof.
  eexists. eexists. split; [reflexivity|].
  cbn. nan_spreads. rewrite tan_nan. nan_spreads.
  destruct (PrimFloat.leb _ g); cbn; nan_spreads; split; reflexivity.
Qed.


End NanDesigns.


(* ================================================================= *)
(** ** PCM bytes and samples *)

(** Every 8-bit sample comes back as it was, and every 16-bit sample one
    step nearer to zero: by evaluation, on all the values. *)
Lemma round_trip8_all :
  forallb AudioIO.round_trip8_ok AudioIO.all_uint8 = true.
Proof. vm_compute. reflexivity. Qed.

Lemma round_trip16_all :
  forallb AudioIO.round_trip16_ok AudioIO.all_int16 = true.
Proof. vm_compute. reflexivity. Qed.

Lemma in_range (n : nat) :
  forall lo s : Z,
    (lo <= s < lo + Z.of_nat n)%Z -> In s (AudioIO.range lo n).
Proof.
  induction n as [|n IH]; intros lo s Hs; [lia|].
  cbn [AudioIO.range].
  destruct (Z.eq_dec lo s) as [->|Hne]; [left; reflexivity|].
  right. apply IH. lia.
Qed.

Lemma round_trip8_exact (s : Z) :
  (0 <= s < 256)%Z -> AudioIO.round_trip8 s = Some s.
Proof.
  intros Hs.
  pose proof (proj1 (forallb_forall _ _) round_trip8_all s) as H.
  unfold AudioIO.round_trip8_ok in H.
  destruct (AudioIO.round_trip8 s) as [v|].
  - f_equal. apply Z.eqb_eq. apply H. apply in_range. lia.
  - discriminate H. apply in_range. lia.
Qed.

Lemma round_trip16_toward_zero (s : Z) :
  (-32768 <= s <= 32767)%Z ->
  AudioIO.round_trip16 s = Some (AudioIO.toward_zero s).
Proof.
  intros Hs.
  pose proof (proj1 (forallb_forall _ _) round_trip16_all s) as H.
  unfold AudioIO.round_trip16_ok in H.
  assert (Hin : In s AudioIO.all_int16).
  { apply in_range.
    change (Z.of_nat (256 * 256)) with 65536%Z. lia. }
  destruct (AudioIO.round_trip16 s) as [v|].
  - f_equal. apply Z.eqb_eq. apply H. exact Hin.
  - discriminate H. exact Hin.
Qed.

(** *** Loops and array cells *)

Lemma for_loop_invariant {S : Type} (Inv : nat -> S -> Prop)
  (body : nat -> S -> option S) (n : nat) (s0 : S) :
  Inv 0%nat s0 ->
  (forall i s, (i < n)%nat -> Inv i s ->
               exists s', body i s = Some s' /\ Inv (Datatypes.S i) s') ->
  exists s', for_loop n 0 n 1 body s0 = Some s' /\ Inv n s'.
Proof.
  intros H0 Hstep.
  assert (G : forall k i s, (i + k = n)%nat -> Inv i s ->
                exists s', for_loop k i n 1 body s = Some s' /\ Inv n s').
  { induction k as [|k IH]; intros i s Hik Hi.
    - exists s. rewrite for_loop_done by lia.
      replace n with i by lia. auto.
    - rewrite for_loop_step by lia.
      destruct (Hstep i s ltac:(lia) Hi) as (s' & -> & Hi').
      replace (i + 1)%nat with (Datatypes.S i) by lia.
      apply IH; [lia | exact Hi']. }
  apply (G n 0%nat s0); [lia | exact H0].
Qed.

(** A loop one of whose iterations has no defined result has none. *)
Lemma for_loop_fails {S : Type} (body : nat -> S -> option S) (n i : nat) :
  (i < n)%nat ->
  (forall s, body i s = None) ->
  forall s0, for_loop n 0 n 1 body s0 = None.
Proof.
  intros Hi Hfail.
  assert (G : forall k j s, (j + k = n)%nat -> (j <= i)%nat ->
                for_loop k j n 1 body s = None).
  { induction k as [|k IH]; intros j s Hjk Hj; [lia|].
    rewrite for_loop_step by lia.
    destruct (Nat.eq_dec j i) as [->|Hne]; [rewrite Hfail; reflexivity|].
    destruct (body j s); [apply IH; lia | reflexivity]. }
  intros s0. apply (G n 0%nat s0); lia.
Qed.

Lemma load_store_same {A : Type} (d : list A) :
  forall (i : nat) (v : A),
    (i < List.length d)%nat -> load (store d i v) i = Some v.
Proof.
  induction d as [|x d IH]; intros [|i] v Hi; simpl in *; try lia;
    [reflexivity|].
  apply IH. lia.
Qed.

Lemma load_store_other {A : Type} (d : list A) :
  forall (i j : nat) (v : A), i <> j -> load (store d i v) j = load d j.
Proof.
  induction d as [|x d IH]; intros [|i] [|j] v Hij; simpl; try reflexivity;
    try congruence.
  apply IH. congruence.
Qed.

Lemma store_length {A : Type} (d : list A) :
  forall (i : nat) (v : A), List.length (store d i v) = List.length d.
Proof.
  induction d as [|x d IH]; intros [|i] v; simpl; try reflexivity.
  rewrite IH. reflexivity.
Qed.

Lemma load_defined {A : Type} (d : list A) (i : nat) :
  (i < List.length d)%nat -> exists x, load d i = Some x.
Proof.
  intros Hi. unfold load.
  destruct (nth_error d i) eqn:E; [eauto|].
  apply nth_error_None in E. lia.
Qed.

Lemma load_in {A : Type} (d : list A) (i : nat) (x : A) :
  load d i = Some x -> In x d.
Proof. apply nth_error_In. Qed.

(** X18.  8-bit samples survive the two conversions.  For an 8-bit PCM
    buffer of bytes and any [sample_count] within the three arrays,
    [pcm_to_float64] followed by [float64_to_pcm] into an 8-bit buffer
    writes back, in binary64, the bytes that were read, and leaves the
    bytes past [sample_count] as they were. *)
Theorem pcm8_round_trip (src dst : AudioIO.PCMBuffer)
  (bytes dbytes : list Z) (out : list float) (n : nat) :
  AudioIO.data src = Some bytes -> AudioIO.bit_depth src = 8%Z ->
  AudioIO.data dst = Some dbytes -> AudioIO.bit_depth dst = 8%Z ->
  Forall (fun b => (0 <= b < 256)%Z) bytes ->
  (n <= List.length bytes)%nat ->
  (n <= List.length out)%nat ->
  (n <= List.length dbytes)%nat ->
  exists fs bytes',
    AudioIO.pcm_to_float64 (Some src) (Some out) n = Some (Some fs) /\
    AudioIO.float64_to_pcm (Some fs) (Some dst) n =
      Some (Some (AudioIO.set_data dst (Some bytes'))) /\
    List.length bytes' = List.length dbytes /\
    (forall i, (i < n)%nat -> load bytes' i = load bytes i) /\
    (forall i, (n <= i)%nat -> load bytes' i = load dbytes i).
Proof.
  intros Hsrc Hs8 Hdst Hd8 Hbytes Hn Hout Hdn.
  unfold AudioIO.pcm_to_float64, AudioIO.float64_to_pcm.
  cbv beta iota zeta. rewrite Hsrc, Hs8, Hdst, Hd8.
  cbv beta iota zeta delta [Z.eqb Pos.eqb].
  destruct n as [|n'].
  - cbn [Nat.eqb]. exists out, dbytes.
    split; [reflexivity|]. split.
    + destruct dst. cbn in Hdst |- *. rewrite Hdst. reflexivity.
    + split; [reflexivity|]. split; [intros; lia | reflexivity].
  - cbn [Nat.eqb]. set (n := Datatypes.S n') in *.
    destruct (for_loop_invariant
                (fun i o =>
                   List.length o = List.length out /\
                   forall j, (j < i)%nat ->
                     exists s, load bytes j = Some s /\
                       load o j = Some (float_of_Z (s - 128) / 128)%float)
                (AudioIO.decode8 bytes) n out)
      as (fs & Hdec & Hlen & Hfs).
    + split; [reflexivity | intros; lia].
    + intros i o Hi [Hl Hprev]. unfold AudioIO.decode8.
      destruct (load_defined bytes i) as [s Es]; [lia|].
      destruct (load_defined o i) as [y Ey]; [lia|].
      rewrite Es, Ey. eexists. split; [reflexivity|].
      split; [rewrite store_length; exact Hl|].
      intros j Hj. destruct (Nat.eq_dec j i) as [->|Hne].
      * exists s. split; [exact Es | apply load_store_same; lia].
      * destruct (Hprev j) as (s' & E1 & E2); [lia|].
        exists s'. split; [exact E1|].
        rewrite load_store_other by congruence. exact E2.
    + destruct (for_loop_invariant
                  (fun i b =>
                     List.length b = List.length dbytes /\
                     (forall j, (j < i)%nat -> load b j = load bytes j) /\
                     (forall j, (i <= j)%nat -> load b j = load dbytes j))
                  (AudioIO.encode8 fs) n dbytes)
        as (bytes' & Henc & Hl' & Hlo & Hhi).
      * split; [reflexivity|]. split; [intros; lia | reflexivity].
      * intros i b Hi (Hl & Hlo & Hhi). unfold AudioIO.encode8.
        destruct (Hfs i Hi) as (s & Es & Ef). rewrite Ef.
        destruct (load_defined b i) as [y Ey]; [lia|]. rewrite Ey.
        change (AudioIO.cast 0 255
                  (AudioIO.clamp (float_of_Z (s - 128) / 128) * 128 + 128))
          with (AudioIO.round_trip8 s).
        rewrite round_trip8_exact
          by (exact (proj1 (Forall_forall _ _) Hbytes s (load_in _ _ _ Es))).
        eexists. split; [reflexivity|].
        split; [rewrite store_length; exact Hl|]. split.
        -- intros j Hj. destruct (Nat.eq_dec j i) as [->|Hne].
           ++ rewrite load_store_same by lia. symmetry. exact Es.
           ++ rewrite load_store_other by congruence. apply Hlo. lia.
        -- intros j Hj. rewrite load_store_other by lia. apply Hhi. lia.
      * exists fs, bytes'. rewrite Hdec, Henc. auto.
Qed.

(** X18 on the bytes [0, 128, 255]. *)
Lemma pcm8_round_trip_witness :
  exists fs bytes',
    AudioIO.pcm_to_float64 (Some AudioIO.three_samples8)
                           (Some [0; 0; 0]%float) 3 = Some (Some fs) /\
    AudioIO.float64_to_pcm (Some fs) (Some AudioIO.three_samples8) 3 =
      Some (Some (AudioIO.set_data AudioIO.three_samples8 (Some bytes'))) /\
    List.length bytes' = 3%nat /\
    (forall i, (i < 3)%nat -> load bytes' i = load [0; 128; 255]%Z i) /\
    (forall i, (3 <= i)%nat -> load bytes' i = load [0; 128; 255]%Z i).
Proof.
  apply (pcm8_round_trip AudioIO.three_samples8 AudioIO.three_samples8
           [0; 128; 255]%Z [0; 128; 255]%Z [0; 0; 0]%float 3).
  - reflexivity.
  - reflexivity.
  - reflexivity.
  - reflexivity.
  - repeat constructor; lia.
  - cbn. lia.
  - cbn. lia.
  - cbn. lia.
Defined.

(** The clamp sends every sample that is not below [1.0] to [1.0]. *)
Lemma clamp_full_scale (x : float) :
  PrimFloat.ltb x 1 = false -> AudioIO.clamp x = 1%float.
Proof.
  intros Hx. unfold AudioIO.clamp, AudioIO.fmin.
  change (PrimFloat.is_nan 1) with false. cbv iota.
  destruct (PrimFloat.is_nan x); [reflexivity|].
  rewrite Hx. reflexivity.
Qed.

(** X19.  The 8-bit writer has no defined result on a full-scale sample.
    If some sample among the first [sample_count] is not below [1.0] (it
    is [1.0] or above, or a NaN), [float64_to_pcm] into an 8-bit buffer
    clamps it to [1.0] and converts [1.0 * 128.0 + 128 = 256.0] to
    [uint8_t], which cannot hold it. *)
Theorem pcm8_full_scale_undefined (input : list float)
  (dst : AudioIO.PCMBuffer) (n i : nat) (x : float) :
  AudioIO.bit_depth dst = 8%Z ->
  (i < n)%nat ->
  load input i = Some x ->
  PrimFloat.ltb x 1 = false ->
  AudioIO.float64_to_pcm (Some input) (Some dst) n = None.
Proof.
  intros Hd8 Hi Hload Hx.
  unfold AudioIO.float64_to_pcm. cbv beta iota zeta. rewrite Hd8.
  cbv beta iota zeta delta [Z.eqb Pos.eqb].
  destruct n as [|n']; [lia|]. cbn [Nat.eqb].
  destruct (AudioIO.data dst) as [bytes|]; [|reflexivity].
  rewrite (for_loop_fails (AudioIO.encode8 input) (Datatypes.S n') i Hi);
    [reflexivity|].
  intros s. unfold AudioIO.encode8. rewrite Hload.
  destruct (load s i); [|reflexivity].
  rewrite (clamp_full_scale x Hx). reflexivity.
Qed.

(** X19 on the single sample [1.0]. *)
Lemma pcm8_full_scale_undefined_witness :
  AudioIO.float64_to_pcm (Some [1]%float) (Some AudioIO.three_samples8) 1 =
  None.
Proof.
  apply (pcm8_full_scale_undefined [1]%float AudioIO.three_samples8 1 0
           1%float).
  - reflexivity.
  - lia.
  - reflexivity.
  - reflexivity.
Defined.

(** *** 16-bit samples in an array of bytes *)

Lemma signed16_range (z : Z) :
  (-32768 <= AudioIO.signed 16 z <= 32767)%Z.
Proof.
  unfold AudioIO.signed. change (2 ^ (16 - 1))%Z with 32768%Z.
  change (2 ^ 16)%Z with 65536%Z.
  pose proof (Z.mod_pos_bound (z + 32768) 65536 ltac:(lia)). lia.
Qed.

Lemma int16_bytes (v : Z) :
  (-32768 <= v <= 32767)%Z ->
  AudioIO.signed 16 (v mod 256 + 256 * ((v / 256) mod 256)) = v.
Proof.
  intros Hv. unfold AudioIO.signed.
  change (2 ^ (16 - 1))%Z with 32768%Z. change (2 ^ 16)%Z with 65536%Z.
  Z.div_mod_to_equations. lia.
Qed.

Lemma toward_zero_range (s : Z) :
  (-32768 <= s <= 32767)%Z ->
  (-32768 <= AudioIO.toward_zero s <= 32767)%Z.
Proof.
  unfold AudioIO.toward_zero. destruct s; cbn [Z.sgn]; lia.
Qed.

Lemma load_int16_defined (bytes : list Z) (i : nat) :
  (2 * i + 1 < List.length bytes)%nat ->
  exists s, AudioIO.load_int16 bytes i = Some s /\ (-32768 <= s <= 32767)%Z.
Proof.
  intros Hi. unfold AudioIO.load_int16.
  destruct (load_defined bytes (2 * i)) as [b0 E0]; [lia|].
  destruct (load_defined bytes (2 * i + 1)) as [b1 E1]; [lia|].
  rewrite E0, E1. eexists. split; [reflexivity | apply signed16_range].
Qed.

(** [samples[i] = v] writes the two bytes of [v] and no other cell. *)
Lemma store_int16_spec (bytes : list Z) (i : nat) (v : Z) :
  (2 * i + 1 < List.length bytes)%nat ->
  (-32768 <= v <= 32767)%Z ->
  exists bytes',
    AudioIO.store_int16 bytes i v = Some bytes' /\
    List.length bytes' = List.length bytes /\
    AudioIO.load_int16 bytes' i = Some v /\
    (forall j, j <> i ->
               AudioIO.load_int16 bytes' j = AudioIO.load_int16 bytes j).
Proof.
  intros Hi Hv. unfold AudioIO.store_int16.
  destruct (load_defined bytes (2 * i)) as [b0 E0]; [lia|].
  destruct (load_defined bytes (2 * i + 1)) as [b1 E1]; [lia|].
  rewrite E0, E1. eexists. split; [reflexivity|].
  split; [rewrite !store_length; reflexivity|]. split.
  - unfold AudioIO.load_int16.
    rewrite load_store_other by lia.
    rewrite load_store_same by lia.
    rewrite load_store_same by (rewrite store_length; lia).
    rewrite int16_bytes by exact Hv. reflexivity.
  - intros j Hj. unfold AudioIO.load_int16.
    rewrite !load_store_other by lia. reflexivity.
Qed.

(** X20.  16-bit samples do not survive the two conversions: each comes
    back one step nearer to zero.  For a 16-bit PCM buffer and any
    [sample_count] within the three arrays, [pcm_to_float64] followed by
    [float64_to_pcm] into a 16-bit buffer writes, in binary64, for every
    sample [s] that was read the sample [s - sgn s]: [s / 32768.0] is
    scaled by [32767.0] and the fraction is discarded.  Only silence
    ([s = 0]) comes back as it was. *)
Theorem pcm16_round_trip_moves_toward_zero (src dst : AudioIO.PCMBuffer)
  (bytes dbytes : list Z) (out : list float) (n : nat) :
  AudioIO.data src = Some bytes -> AudioIO.bit_depth src = 16%Z ->
  AudioIO.data dst = Some dbytes -> AudioIO.bit_depth dst = 16%Z ->
  (2 * n <= List.length bytes)%nat ->
  (n <= List.length out)%nat ->
  (2 * n <= List.length dbytes)%nat ->
  exists fs bytes',
    AudioIO.pcm_to_float64 (Some src) (Some out) n = Some (Some fs) /\
    AudioIO.float64_to_pcm (Some fs) (Some dst) n =
      Some (Some (AudioIO.set_data dst (Some bytes'))) /\
    forall i, (i < n)%nat ->
      exists s, AudioIO.load_int16 bytes i = Some s /\
                AudioIO.load_int16 bytes' i = Some (AudioIO.toward_zero s).
Proof.
  intros Hsrc Hs16 Hdst Hd16 Hn Hout Hdn.
  unfold AudioIO.pcm_to_float64, AudioIO.float64_to_pcm.
  cbv beta iota zeta. rewrite Hsrc, Hs16, Hdst, Hd16.
  cbv beta iota zeta delta [Z.eqb Pos.eqb].
  destruct n as [|n'].
  - cbn [Nat.eqb]. exists out, dbytes.
    split; [reflexivity|]. split.
    + destruct dst. cbn in Hdst |- *. rewrite Hdst. reflexivity.
    + intros; lia.
  - cbn [Nat.eqb]. set (n := Datatypes.S n') in *.
    destruct (for_loop_invariant
                (fun i o =>
                   List.length o = List.length out /\
                   forall j, (j < i)%nat ->
                     exists s, AudioIO.load_int16 bytes j = Some s /\
                       load o j = Some (float_of_Z s / 32768)%float)
                (AudioIO.decode16 bytes) n out)
      as (fs & Hdec & Hlen & Hfs).
    + split; [reflexivity | intros; lia].
    + intros i o Hi [Hl Hprev]. unfold AudioIO.decode16.
      destruct (load_int16_defined bytes i) as (s & Es & _); [lia|].
      destruct (load_defined o i) as [y Ey]; [lia|].
      rewrite Es, Ey. eexists. split; [reflexivity|].
      split; [rewrite store_length; exact Hl|].
      intros j Hj. destruct (Nat.eq_dec j i) as [->|Hne].
      * exists s. split; [exact Es | apply load_store_same; lia].
      * destruct (Hprev j) as (s' & E1 & E2); [lia|].
        exists s'. split; [exact E1|].
        rewrite load_store_other by congruence. exact E2.
    + destruct (for_loop_invariant
                  (fun i b =>
                     List.length b = List.length dbytes /\
                     forall j, (j < i)%nat ->
                       exists s, AudioIO.load_int16 bytes j = Some s /\
                         AudioIO.load_int16 b j =
                           Some (AudioIO.toward_zero s))
                  (AudioIO.encode16 fs) n dbytes)
        as (bytes' & Henc & Hl' & Hall).
      * split; [reflexivity | intros; lia].
      * intros i b Hi (Hl & Hprev). unfold AudioIO.encode16.
        destruct (Hfs i Hi) as (s & Es & Ef). rewrite Ef.
        destruct (load_int16_defined bytes i) as (s' & Es' & Hs'); [lia|].
        assert (s' = s) by congruence. subst s'.
        change (AudioIO.cast (-32768) 32767
                  (AudioIO.clamp (float_of_Z s / 32768) * 32767))
          with (AudioIO.round_trip16 s).
        rewrite (round_trip16_toward_zero s Hs').
        destruct (store_int16_spec b i (AudioIO.toward_zero s))
          as (b' & Est & Hlb & Hsame & Hother);
          [lia | apply toward_zero_range; exact Hs'|].
        exists b'. split; [exact Est|].
        split; [rewrite Hlb; exact Hl|].
        intros j Hj. destruct (Nat.eq_dec j i) as [->|Hne].
        -- exists s. split; [exact Es | exact Hsame].
        -- destruct (Hprev j) as (t & E1 & E2); [lia|].
           exists t. split; [exact E1|].
           rewrite (Hother j Hne). exact E2.
      * exists fs, bytes'. rewrite Hdec, Henc. auto.
Qed.

(** X20 on the samples [1] and [-2]: they come back as [0] and [-1]. *)
Lemma pcm16_round_trip_moves_toward_zero_witness :
  exists fs bytes',
    AudioIO.pcm_to_float64 (Some AudioIO.two_samples16)
                           (Some [0; 0]%float) 2 = Some (Some fs) /\
    AudioIO.float64_to_pcm (Some fs) (Some AudioIO.two_samples16) 2 =
      Some (Some (AudioIO.set_data AudioIO.two_samples16 (Some bytes'))) /\
    forall i, (i < 2)%nat ->
      exists s, AudioIO.load_int16 [1; 0; 254; 255]%Z i = Some s /\
                AudioIO.load_int16 bytes' i = Some (AudioIO.toward_zero s).
Proof.
  apply (pcm16_round_trip_moves_toward_zero AudioIO.two_samples16
           AudioIO.two_samples16 [1; 0; 254; 255]%Z [1; 0; 254; 255]%Z
           [0; 0]%float 2).
  - reflexivity.
  - reflexivity.
  - reflexivity.
  - reflexivity.
  - cbn. lia.
  - cbn. lia.
  - cbn. lia.
Defined.

(* ================================================================= *)
(** ** Linearity of the recurrence *)

(** A run on which no underflow check fires is a run of the bare
    recurrence. *)
Lemma biquad_run_kernel_run {F : Type} {ops : DoubleOps F} (xs : list F) :
  forall u : BiQuad F,
    never_underflows u xs ->
    biquad_run (Some u) xs =
    (Some (fst (kernel_run u xs)), snd (kernel_run u xs)).
Proof.
  induction xs as [|x xs IH]; intros u Hn;
    cbn [biquad_run biquad_process kernel_run]; [reflexivity|].
  destruct Hn as [Hx Hn]. rewrite (quiet_step u x Hx) in Hn |- *.
  cbn [fst] in Hn. rewrite (IH _ Hn).
  destruct (kernel_run (with_delays u x (xz1 u) (recurrence u x) (yz1 u)) xs).
  reflexivity.
Qed.

Lemma kernel_run_linear (a b : R) (xs : list R) :
  forall (ys : list R) (u v w : BiQuad R),
    List.length xs = List.length ys ->
    (a0 u = a0 w /\ a1 u = a1 w /\ a2 u = a2 w /\
     b1 u = b1 w /\ b2 u = b2 w)%R ->
    (a0 v = a0 w /\ a1 v = a1 w /\ a2 v = a2 w /\
     b1 v = b1 w /\ b2 v = b2 w)%R ->
    combined_delays a b u v w ->
    snd (kernel_run w (combine_signals a b xs ys)) =
    combine_signals a b (snd (kernel_run u xs)) (snd (kernel_run v ys)).
Proof.
  induction xs as [|x xs IH]; intros [|y ys] u v w Hl Hu Hv Hd;
    try discriminate; [reflexivity|].
  cbn [combine_signals combine map fst snd kernel_run].
  assert (Hr : recurrence w (a * x + b * y)%D =
               (a * recurrence u x + b * recurrence v y)%D).
  { destruct Hu as (U0 & U1 & U2 & U3 & U4).
    destruct Hv as (V0 & V1 & V2 & V3 & V4).
    destruct Hd as (D1 & D2 & D3 & D4).
    unfold recurrence. cbn.
    rewrite U0, U1, U2, U3, U4, V0, V1, V2, V3, V4, D1, D2, D3, D4. ring. }
  specialize (IH ys
                (with_delays u x (xz1 u) (recurrence u x) (yz1 u))
                (with_delays v y (xz1 v) (recurrence v y) (yz1 v))
                (with_delays w (a * x + b * y)%D (xz1 w)
                   (recurrence w (a * x + b * y)%D) (yz1 w))).
  fold (combine_signals a b xs ys).
  destruct (kernel_run (with_delays w _ _ _ _) (combine_signals a b xs ys))
    as [w' ws].
  destruct (kernel_run (with_delays u _ _ _ _) xs) as [u' us].
  destruct (kernel_run (with_delays v _ _ _ _) ys) as [v' vs].
  cbn [snd combine_signals combine map fst] in IH |- *.
  rewrite Hr. f_equal. apply IH.
  - simpl in Hl. lia.
  - exact Hu.
  - exact Hv.
  - destruct Hd as (D1 & D2 & D3 & D4).
    unfold combined_delays, with_delays. cbn [xz1 xz2 yz1 yz2].
    rewrite Hr. auto.
Qed.

(** In exact arithmetic a sample on which the recurrence evaluates to at
    least 1 in magnitude fires no underflow check. *)
Lemma exact_never_underflows_cons (u : BiQuad R) (x : R) (xs : list R) :
  (1 <= Rabs (recurrence u x))%R ->
  never_underflows (with_delays u x (xz1 u) (recurrence u x) (yz1 u)) xs ->
  never_underflows u (x :: xs).
Proof.
  intros Hx Hn.
  assert (Hq : underflow_check (recurrence u x) = recurrence u x).
  { apply underflow_check_outside_window, exact_outside_window.
    eapply Rle_trans; [exact exact_flt_min_below_one | exact Hx]. }
  cbn [never_underflows]. split; [exact Hq|].
  rewrite (quiet_step u x Hq). exact Hn.
Qed.



(* ================================================================= *)
(** ** 24-bit samples in three bytes *)

(** Where the low [n] bits of the shifted value are free, [|] adds. *)
Lemma lor_shiftl_add (lo hi n : Z) :
  (0 <= n)%Z -> (0 <= lo < 2 ^ n)%Z ->
  Z.lor lo (Z.shiftl hi n) = (lo + hi * 2 ^ n)%Z.
Proof.
  intros Hn Hlo.
  assert (Hland : Z.land lo (Z.shiftl hi n) = 0%Z).
  { apply Z.bits_inj'. intros k Hk. rewrite Z.land_spec, Z.bits_0.
    destruct (Z.ltb_spec k n).
    - rewrite Z.shiftl_spec_low by lia. apply andb_false_r.
    - rewrite <- (Z.mod_small lo (2 ^ n)) by lia.
      rewrite Z.mod_pow2_bits_high by lia. reflexivity. }
  rewrite <- Z.lxor_lor, <- Z.add_nocarry_lxor by exact Hland.
  rewrite Z.shiftl_mul_pow2 by lia. reflexivity.
Qed.

Lemma unpack24 (b0 b1 b2 : Z) :
  (0 <= b0 < 256)%Z -> (0 <= b1 < 256)%Z -> (0 <= b2 < 256)%Z ->
  Z.lor (Z.lor b0 (Z.shiftl b1 8)) (Z.shiftl b2 16) =
  (b0 + 256 * b1 + 65536 * b2)%Z.
Proof.
  intros H0 H1 H2.
  rewrite (lor_shiftl_add b0 b1 8)
    by (change (2 ^ 8)%Z with 256%Z; lia).
  change (2 ^ 8)%Z with 256%Z.
  rewrite (lor_shiftl_add (b0 + b1 * 256) b2 16)
    by (change (2 ^ 16)%Z with 65536%Z; lia).
  change (2 ^ 16)%Z with 65536%Z. lia.
Qed.

Lemma land_bit23 (u : Z) :
  (0 <= u < 16777216)%Z ->
  (Z.land u 8388608 =? 0)%Z = (u <? 8388608)%Z.
Proof.
  intros Hu.
  assert (H : Z.land u (2 ^ 23) =
              if Z.testbit u 23 then (2 ^ 23)%Z else 0%Z).
  { apply Z.bits_inj'. intros k Hk.
    rewrite Z.land_spec, Z.pow2_bits_eqb by lia.
    destruct (Z.eqb_spec 23 k) as [<-|Hne].
    - destruct (Z.testbit u 23);
        [rewrite Z.pow2_bits_eqb by lia | rewrite Z.bits_0]; reflexivity.
    - rewrite andb_false_r.
      destruct (Z.testbit u 23); [|rewrite Z.bits_0; reflexivity].
      rewrite Z.pow2_bits_eqb by lia. symmetry. apply Z.eqb_neq. exact Hne. }
  change (2 ^ 23)%Z with 8388608%Z in H. rewrite H.
  destruct (Z.testbit u 23) eqn:E.
  - apply Z.testbit_true in E; [|lia].
    change (2 ^ 23)%Z with 8388608%Z in E.
    symmetry. apply Z.ltb_ge. Z.div_mod_to_equations. lia.
  - assert (Hn : ~ ((u / 2 ^ 23) mod 2 = 1)%Z).
    { intros Hc. apply Z.testbit_true in Hc; [|lia]. congruence. }
    change (2 ^ 23)%Z with 8388608%Z in Hn.
    symmetry. apply Z.ltb_lt. Z.div_mod_to_equations. lia.
Qed.

(** The test of bit 23 and [sample |= 0xFF000000] extend the sign. *)
Lemma sign_extend24 (u : Z) :
  (0 <= u < 16777216)%Z ->
  (if (Z.land u 8388608 =? 0)%Z then u
   else to_int (Z.lor u 4278190080)) = AudioIO.signed 24 u.
Proof.
  intros Hu. rewrite (land_bit23 u Hu).
  unfold AudioIO.signed.
  change (2 ^ (24 - 1))%Z with 8388608%Z.
  change (2 ^ 24)%Z with 16777216%Z.
  destruct (Z.ltb_spec u 8388608).
  - rewrite Z.mod_small by lia. lia.
  - change 4278190080%Z with (Z.shiftl 255 24).
    rewrite (lor_shiftl_add u 255 24)
      by (change (2 ^ 24)%Z with 16777216%Z; lia).
    change (2 ^ 24)%Z with 16777216%Z.
    unfold to_int. change (2 ^ 31)%Z with 2147483648%Z.
    change (2 ^ 32)%Z with 4294967296%Z.
    Z.div_mod_to_equations. lia.
Qed.

Lemma pack24 (v : Z) :
  Z.land v 255 = (v mod 256)%Z /\
  Z.land (Z.shiftr v 8) 255 = ((v / 256) mod 256)%Z /\
  Z.land (Z.shiftr v 16) 255 = ((v / 65536) mod 256)%Z.
Proof.
  change 255%Z with (Z.ones 8).
  rewrite !Z.land_ones, !Z.shiftr_div_pow2 by lia.
  change (2 ^ 8)%Z with 256%Z. change (2 ^ 16)%Z with 65536%Z. auto.
Qed.

Lemma bytes24 (v : Z) :
  (-8388608 <= v < 8388608)%Z ->
  AudioIO.signed 24
    (v mod 256 + 256 * ((v / 256) mod 256) + 65536 * ((v / 65536) mod 256)) =
  v.
Proof.
  intros Hv. unfold AudioIO.signed.
  change (2 ^ (24 - 1))%Z with 8388608%Z.
  change (2 ^ 24)%Z with 16777216%Z.
  Z.div_mod_to_equations. lia.
Qed.

(** X22.  The three bytes of a 24-bit sample are packed and unpacked
    consistently.  For a 24-bit PCM buffer and samples whose conversion
    [(int32_t)(clamped * 8388607.0)] is defined with a value [v] of 24
    bits: [float64_to_pcm] writes the three low bytes of [v], least
    significant first, and [pcm_to_float64] on those bytes puts them back
    together with [|] and [<<], extends the sign from bit 23, and returns
    [v / 8388608.0]. *)
Theorem pcm24_bytes_round_trip (input out : list float)
  (dst : AudioIO.PCMBuffer) (dbytes : list Z) (n : nat) :
  AudioIO.data dst = Some dbytes -> AudioIO.bit_depth dst = 24%Z ->
  (n <= List.length input)%nat ->
  (3 * n <= List.length dbytes)%nat ->
  (n <= List.length out)%nat ->
  (forall i x, (i < n)%nat -> load input i = Some x ->
     exists v, AudioIO.sample24 x = Some v /\ (-8388608 <= v < 8388608)%Z) ->
  exists bytes' fs,
    AudioIO.float64_to_pcm (Some input) (Some dst) n =
      Some (Some (AudioIO.set_data dst (Some bytes'))) /\
    AudioIO.pcm_to_float64 (Some (AudioIO.set_data dst (Some bytes')))
                           (Some out) n = Some (Some fs) /\
    forall i x, (i < n)%nat -> load input i = Some x ->
      exists v, AudioIO.sample24 x = Some v /\
                load fs i = Some (float_of_Z v / 8388608)%float.
Proof.
  intros Hdst Hd24 Hin Hdn Hout Hconv.
  unfold AudioIO.pcm_to_float64, AudioIO.float64_to_pcm.
  cbv beta iota zeta. cbn [AudioIO.set_data AudioIO.data AudioIO.bit_depth].
  rewrite Hdst, Hd24.
  cbv beta iota zeta delta [Z.eqb Pos.eqb].
  destruct n as [|n'].
  - cbn [Nat.eqb]. exists dbytes, out.
    split; [|split; [reflexivity | intros; lia]].
    destruct dst. cbn in Hdst |- *. rewrite Hdst. reflexivity.
  - cbn [Nat.eqb]. set (n := Datatypes.S n') in *.
    destruct (for_loop_invariant
                (fun i b =>
                   List.length b = List.length dbytes /\
                   forall j x, (j < i)%nat -> load input j = Some x ->
                     exists v,
                       AudioIO.sample24 x = Some v /\
                       (-8388608 <= v < 8388608)%Z /\
                       load b (j * 3) = Some (v mod 256)%Z /\
                       load b (j * 3 + 1) = Some ((v / 256) mod 256)%Z /\
                       load b (j * 3 + 2) = Some ((v / 65536) mod 256)%Z)
                (AudioIO.encode24 input) n dbytes)
      as (bytes' & Henc & Hl' & Hall).
    + split; [reflexivity | intros; lia].
    + intros i b Hi (Hl & Hprev). unfold AudioIO.encode24.
      destruct (load_defined input i) as [x Ex]; [lia|]. rewrite Ex.
      destruct (Hconv i x Hi Ex) as (v & Ev & Hv).
      change (AudioIO.cast (-2147483648) 2147483647
                (AudioIO.clamp x * 8388607)) with (AudioIO.sample24 x).
      rewrite Ev.
      destruct (load_defined b (i * 3)) as [y0 E0]; [lia|].
      destruct (load_defined b (i * 3 + 1)) as [y1 E1]; [lia|].
      destruct (load_defined b (i * 3 + 2)) as [y2 E2]; [lia|].
      rewrite E0, E1, E2.
      destruct (pack24 v) as (P0 & P1 & P2). rewrite P0, P1, P2.
      eexists. split; [reflexivity|].
      split; [rewrite !store_length; exact Hl|].
      intros j xj Hj Exj. destruct (Nat.eq_dec j i) as [->|Hne].
      * assert (xj = x) by congruence. subst xj.
        exists v. split; [exact Ev|]. split; [exact Hv|].
        split; [|split].
        -- rewrite !load_store_other by lia.
           apply load_store_same. lia.
        -- rewrite load_store_other by lia.
           apply load_store_same. rewrite store_length. lia.
        -- apply load_store_same. rewrite !store_length. lia.
      * destruct (Hprev j xj ltac:(lia) Exj) as (w & Ew & Hw & B0 & B1 & B2).
        exists w. split; [exact Ew|]. split; [exact Hw|].
        rewrite !load_store_other by lia. auto.
    + rewrite Henc.
      destruct (for_loop_invariant
                  (fun i o =>
                     List.length o = List.length out /\
                     forall j x, (j < i)%nat -> load input j = Some x ->
                       exists v,
                         AudioIO.sample24 x = Some v /\
                         load o j = Some (float_of_Z v / 8388608)%float)
                  (AudioIO.decode24 bytes') n out)
        as (fs & Hdec & Hlen & Hfs).
      * split; [reflexivity | intros; lia].
      * intros i o Hi [Hl Hprev]. unfold AudioIO.decode24.
        destruct (load_defined input i) as [x Ex]; [lia|].
        destruct (Hall i x Hi Ex) as (v & Ev & Hv & B0 & B1 & B2).
        destruct (load_defined o i) as [y Ey]; [lia|].
        rewrite B0, B1, B2, Ey.
        rewrite unpack24
          by (apply Z.mod_pos_bound; lia).
        rewrite sign_extend24
          by (pose proof (Z.mod_pos_bound v 256 ltac:(lia));
              pose proof (Z.mod_pos_bound (v / 256) 256 ltac:(lia));
              pose proof (Z.mod_pos_bound (v / 65536) 256 ltac:(lia)); lia).
        rewrite (bytes24 v Hv).
        eexists. split; [reflexivity|].
        split; [rewrite store_length; exact Hl|].
        intros j xj Hj Exj. destruct (Nat.eq_dec j i) as [->|Hne].
        -- assert (xj = x) by congruence. subst xj.
           exists v. split; [exact Ev | apply load_store_same; lia].
        -- destruct (Hprev j xj ltac:(lia) Exj) as (w & Ew & Ew').
           exists w. split; [exact Ew|].
           rewrite load_store_other by congruence. exact Ew'.
      * exists bytes', fs. rewrite Hdec.
        split; [reflexivity|]. split; [reflexivity|]. exact Hfs.
Qed.

(** X22 on the sample [-0.5], packed as [-4194303]. *)
Lemma pcm24_bytes_round_trip_witness :
  exists bytes' fs,
    AudioIO.float64_to_pcm (Some [-0.5]%float) (Some AudioIO.one_sample24) 1 =
      Some (Some (AudioIO.set_data AudioIO.one_sample24 (Some bytes'))) /\
    AudioIO.pcm_to_float64
      (Some (AudioIO.set_data AudioIO.one_sample24 (Some bytes')))
      (Some [0]%float) 1 = Some (Some fs) /\
    forall i x, (i < 1)%nat -> load [-0.5]%float i = Some x ->
      exists v, AudioIO.sample24 x = Some v /\
                load fs i = Some (float_of_Z v / 8388608)%float.
Proof.
  apply (pcm24_bytes_round_trip [-0.5]%float [0]%float AudioIO.one_sample24
           [0; 0; 0]%Z 1).
  - reflexivity.
  - reflexivity.
  - cbn. lia.
  - cbn. lia.
  - cbn. lia.
  - intros i x Hi Ex. destruct i as [|i]; [|lia].
    injection Ex as <-. exists (-4194303)%Z.
    split; [vm_compute; reflexivity | lia].
Defined.
